(** * humanfriendly.testing: scoped resources, retry and run_cli

    A shallow embedding of [humanfriendly/testing.py].  Python values are
    an inductive type, exceptions are values of a small class hierarchy,
    and every method is a computation in a state-and-exception monad in
    which a raised exception keeps the state reached so far (as in
    Python, where side effects done before a [raise] are not undone). *)

From Stdlib Require Import ZArith QArith Qround Qabs Qpower Lqa Lia String Ascii List.
From stdpp Require Import gmap strings list fin_maps pretty.

Local Open Scope string_scope.
Local Open Scope list_scope.

(** ** Python values *)

#[local] Unset Elimination Schemes.
Inductive value : Type :=
| VNone
| VBool (b : bool)
| VInt (n : Z)
| VStr (s : string)
| VList (l : list value)
| VRef (id : N)       (* a reference to a heap object such as a StringIO *)
| VNothing.           (* the module level object created by [NOTHING = object()] *)
#[local] Set Elimination Schemes.

(** [NOTHING = object()]: a unique object reference used to detect
    missing attributes. *)
Definition NOTHING : value := VNothing.

(** [v is NOTHING] *)
Definition is_NOTHING (v : value) : bool :=
  match v with VNothing => true | _ => false end.

(** [v is not False] *)
Definition is_not_False (v : value) : bool :=
  match v with VBool false => false | _ => true end.

(** ** Exceptions *)

Inductive exc_class : Type :=
| BaseException | Exception | SystemExit | KeyboardInterrupt
| AssertionError | AttributeError | LookupError | KeyError | OSError
| TypeError
| CallableTimedOut          (* class CallableTimedOut(Exception) *)
| UserException (n : N).    (* any other subclass of Exception *)

#[global] Instance exc_class_eq_dec : EqDecision exc_class.
Proof. solve_decision. Defined.

Definition base_class (c : exc_class) : option exc_class :=
  match c with
  | BaseException => None
  | Exception | SystemExit | KeyboardInterrupt => Some BaseException
  | KeyError => Some LookupError
  | _ => Some Exception
  end.

Fixpoint ancestors (depth : nat) (c : exc_class) : list exc_class :=
  c :: match depth with
       | O => []
       | S d => match base_class c with
                | Some p => ancestors d p
                | None => []
                end
       end.

Definition issubclass (c d : exc_class) : bool :=
  bool_decide (d ∈ ancestors 4 c).

(** An exception instance: its class and its argument ([e.code] for a
    [SystemExit], the message for an [AssertionError]). *)
Record exn : Type := mk_exn { exn_class : exc_class; exn_arg : value }.

(** [except exc_type] catches [e] *)
Definition caught_by (exc_type : exc_class) (e : exn) : bool :=
  issubclass (exn_class e) exc_type.

(** [e.code] of a [SystemExit]: [sys.exit()] without argument gives
    [None], [sys.exit(n)] gives [n]. *)
Definition code (e : exn) : value := exn_arg e.

(** ** The state and exception monad *)

Inductive result (A : Type) : Type :=
| Ok (a : A)
| Raise (e : exn).
Arguments Ok {A} a.
Arguments Raise {A} e.

Definition M (S A : Type) : Type := S -> result A * S.

Definition ret {S A} (a : A) : M S A := fun s => (Ok a, s).

Definition raise {S A} (e : exn) : M S A := fun s => (Raise e, s).

Definition bind {S A B} (c : M S A) (k : A -> M S B) : M S B :=
  fun s => match c s with
           | (Ok a, s') => k a s'
           | (Raise e, s') => (Raise e, s')
           end.

Notation "'let!' x ':=' c1 'in' c2" := (bind c1 (fun x => c2))
  (at level 10, x name, c1 at level 100, c2 at level 200, only parsing).
Notation "'do!' c1 'in' c2" := (bind c1 (fun _ => c2))
  (at level 10, c1 at level 100, c2 at level 200, only parsing).

(** [try: body except exc_type as e: handler e] *)
Definition try_except {S A} (body : M S A) (exc_type : exc_class)
    (handler : exn -> M S A) : M S A :=
  fun s => match body s with
           | (Ok a, s') => (Ok a, s')
           | (Raise e, s') =>
               if caught_by exc_type e then handler e s' else (Raise e, s')
           end.

(** [try: body finally: fin].  The [finally] block always runs.  When it
    executes a [return v] (here [Ok (Some v)]) or raises, that outcome
    replaces the outcome of the body, and a pending exception is
    discarded; when it falls through ([Ok None]) the outcome of the body
    stands. *)
Definition try_finally {S A} (body : M S A) (fin : M S (option A)) : M S A :=
  fun s => let '(r, s1) := body s in
           match fin s1 with
           | (Raise e, s2) => (Raise e, s2)
           | (Ok (Some v), s2) => (Ok v, s2)
           | (Ok None, s2) => (r, s2)
           end.

(** [with mgr as x: body x].  Every [__exit__] of this module returns
    [None], so an exception of the body is never suppressed; an exception
    raised by [__exit__] itself replaces it. *)
Definition with_ {S A B} (enter : M S A) (exit : M S unit)
    (body : A -> M S B) : M S B :=
  let! x := enter in
  fun s => let '(r, s1) := body x s in
           match exit s1 with
           | (Ok _, s2) => (r, s2)
           | (Raise e, s2) => (Raise e, s2)
           end.

(** Instance fields live somewhere in the state; a lens says where. *)
Record Lens (S T : Type) : Type := mk_lens { view : S -> T; update : T -> S -> S }.
Arguments mk_lens {S T} view update.
Arguments view {S T} l s.
Arguments update {S T} l t s.

Definition gets {S T} (l : Lens S T) : M S T := fun s => (Ok (view l s), s).
Definition puts {S T} (l : Lens S T) (t : T) : M S unit :=
  fun s => (Ok tt, update l t s).

Definition fst_lens {A B} : Lens (A * B) A :=
  mk_lens fst (fun a s => (a, snd s)).
Definition snd_lens {A B} : Lens (A * B) B :=
  mk_lens snd (fun b s => (fst s, b)).

(** ** The protocols used by the patches *)

(** [getattr(obj, name, default)], [setattr(obj, name, v)],
    [delattr(obj, name)] on one object. *)
Record ObjectProtocol (S : Type) : Type := {
  object_ref : value;
  getattr : string -> value -> M S value;
  setattr : string -> value -> M S unit;
  delattr : string -> M S unit
}.
Arguments object_ref {S} _.
Arguments getattr {S} _ _ _.
Arguments setattr {S} _ _ _.
Arguments delattr {S} _ _.

(** [obj[k]], [obj[k] = v], [del obj[k]] on one mapping. *)
Record MappingProtocol (S K : Type) : Type := {
  mapping_ref : value;
  getitem : K -> M S value;
  setitem : K -> value -> M S unit;
  delitem : K -> M S unit
}.
Arguments mapping_ref {S K} _.
Arguments getitem {S K} _ _.
Arguments setitem {S K} _ _ _.
Arguments delitem {S K} _ _.

(** An ordinary object: attributes of the instance, and attributes found
    through its type.  [getattr] looks at the instance first; [setattr]
    and [delattr] act on the instance only. *)
Record pyobj : Type := mk_pyobj {
  inst_attrs : gmap string value;
  type_attrs : gmap string value
}.

Definition lookup_attr (o : pyobj) (name : string) : option value :=
  match inst_attrs o !! name with
  | Some v => Some v
  | None => type_attrs o !! name
  end.

Definition pyobj_setattr (name : string) (v : value) (o : pyobj) : pyobj :=
  mk_pyobj (<[name := v]> (inst_attrs o)) (type_attrs o).

Definition pyobj_delattr (name : string) (o : pyobj) : pyobj :=
  mk_pyobj (delete name (inst_attrs o)) (type_attrs o).

Definition pyobj_protocol {S} (ref : value) (l : Lens S pyobj) : ObjectProtocol S := {|
  object_ref := ref;
  getattr name default := fun s =>
    (Ok (match lookup_attr (view l s) name with Some v => v | None => default end), s);
  setattr name v := fun s => (Ok tt, update l (pyobj_setattr name v (view l s)) s);
  delattr name := fun s =>
    match inst_attrs (view l s) !! name with
    | Some _ => (Ok tt, update l (pyobj_delattr name (view l s)) s)
    | None => (Raise (mk_exn AttributeError (VStr name)), s)
    end
|}.

(** A [dict]. *)
Definition dict_protocol {S K} `{Countable K} (ref : value) (key_repr : K -> value)
    (l : Lens S (gmap K value)) : MappingProtocol S K := {|
  mapping_ref := ref;
  getitem k := fun s =>
    match view l s !! k with
    | Some v => (Ok v, s)
    | None => (Raise (mk_exn KeyError (key_repr k)), s)
    end;
  setitem k v := fun s => (Ok tt, update l (<[k := v]> (view l s)) s);
  delitem k := fun s =>
    match view l s !! k with
    | Some _ => (Ok tt, update l (delete k (view l s)) s)
    | None => (Raise (mk_exn KeyError (key_repr k)), s)
    end
|}.

(** ** class ContextManager *)

Module ContextManager.
(** [__enter__] returns [self]; its callers in this module drop the
    result. *)
Definition enter {S} : M S unit := ret tt.
Definition exit {S} : M S unit := ret tt.
End ContextManager.

(** ** class PatchedAttribute(ContextManager) *)

Module PatchedAttribute.

Record t : Type := mk {
  attribute_to_patch : string;
  patched_value : value;
  original_value : value
}.

Definition set_original_value (v : value) (me : t) : t :=
  mk (attribute_to_patch me) (patched_value me) v.

(** [__init__(self, obj, name, value)]; the object is the protocol
    passed to the methods. *)
Definition init (name : string) (v : value) : t := mk name v NOTHING.

Section methods.
Context {S : Type}.
Variable object_to_patch : ObjectProtocol S.
Variable self : Lens S t.

Definition enter : M S value :=
  do! ContextManager.enter in
  let! me := gets self in
  let! v := getattr object_to_patch (attribute_to_patch me) NOTHING in
  do! puts self (set_original_value v me) in
  let! me := gets self in
  do! setattr object_to_patch (attribute_to_patch me) (patched_value me) in
  ret (object_ref object_to_patch).

Definition exit : M S unit :=
  do! ContextManager.exit in
  let! me := gets self in
  if is_NOTHING (original_value me)
  then delattr object_to_patch (attribute_to_patch me)
  else setattr object_to_patch (attribute_to_patch me) (original_value me).
End methods.

End PatchedAttribute.

(** ** class PatchedItem(ContextManager) *)

Module PatchedItem.

Record t (K : Type) : Type := mk {
  item_to_patch : K;
  patched_value : value;
  original_value : value
}.
Arguments mk {K} _ _ _.
Arguments item_to_patch {K} _.
Arguments patched_value {K} _.
Arguments original_value {K} _.

Definition set_original_value {K} (v : value) (me : t K) : t K :=
  mk (item_to_patch me) (patched_value me) v.
Definition set_patched_value {K} (v : value) (me : t K) : t K :=
  mk (item_to_patch me) v (original_value me).

Definition init {K} (item : K) (v : value) : t K := mk item v NOTHING.

Section methods.
Context {S K : Type}.
Variable object_to_patch : MappingProtocol S K.
Variable self : Lens S (t K).
(** [super(PatchedItem, self).__enter__] and [.__exit__]: the next
    class in the method resolution order of [type(self)]. *)
Variable super_enter super_exit : M S unit.

Definition enter : M S value :=
  do! super_enter in
  let! me := gets self in
  let! v := try_except (getitem object_to_patch (item_to_patch me))
              KeyError (fun _ => ret NOTHING) in
  do! puts self (set_original_value v me) in
  let! me := gets self in
  do! setitem object_to_patch (item_to_patch me) (patched_value me) in
  ret (mapping_ref object_to_patch).

Definition exit : M S unit :=
  do! super_exit in
  let! me := gets self in
  if is_NOTHING (original_value me)
  then delitem object_to_patch (item_to_patch me)
  else setitem object_to_patch (item_to_patch me) (original_value me).
End methods.

End PatchedItem.

(** [try: body except exc_type as e: handler e else: orelse].  The
    [else] block runs when the body finished without raising; what it
    raises is not offered to the handler. *)
Definition try_except_else {S A B} (body : M S A) (exc_type : exc_class)
    (handler : exn -> M S B) (orelse : A -> M S B) : M S B :=
  fun s => match body s with
           | (Ok a, s') => orelse a s'
           | (Raise e, s') =>
               if caught_by exc_type e then handler e s' else (Raise e, s')
           end.

(** Run a computation of a component on the part of the state it owns. *)
Definition zoom {S W A} (l : Lens S W) (c : M W A) : M S A :=
  fun s => let '(r, w) := c (view l s) in (r, update l w s).

Definition compose_lens {S T U} (l : Lens S T) (m : Lens T U) : Lens S U :=
  mk_lens (fun s => view m (view l s))
          (fun u s => update l (update m u (view l s)) s).

(** [for x in l: body x] *)
Fixpoint for_each {S A} (l : list A) (body : A -> M S unit) : M S unit :=
  match l with
  | [] => ret tt
  | x :: rest => do! body x in for_each rest body
  end.

(** ** The operating system as seen by the module: the environment, the
    file system, and the names [tempfile] is going to try *)

Inductive os_event : Type :=
| EvMkdtemp (d : string)
| EvRmtree (d : string)
| EvSetenv (k : string) (v : value)
| EvDelenv (k : string)
| EvWrite (p : string)
| EvChmod (p : string) (mode : N).

Record file : Type := mk_file { content : string; mode : N }.

Record OS : Type := mk_OS {
  environ : gmap string value;      (* os.environ *)
  dirs : gset string;               (* the directories that exist *)
  files : gmap string file;         (* the regular files that exist *)
  temp_names : list string;         (* candidate names of tempfile, in order *)
  os_trace : list os_event          (* the effects performed, oldest first *)
}.

Definition set_environ (e : gmap string value) (w : OS) : OS :=
  mk_OS e (dirs w) (files w) (temp_names w) (os_trace w).
Definition set_fs (d : gset string) (f : gmap string file) (w : OS) : OS :=
  mk_OS (environ w) d f (temp_names w) (os_trace w).
Definition set_temp_names (n : list string) (w : OS) : OS :=
  mk_OS (environ w) (dirs w) (files w) n (os_trace w).
Definition log_event (e : os_event) (w : OS) : OS :=
  mk_OS (environ w) (dirs w) (files w) (temp_names w) (os_trace w ++ [e]).

Definition os_error (p : string) : exn := mk_exn OSError (VStr p).

Definition exists_path (p : string) (w : OS) : bool :=
  bool_decide (p ∈ dirs w) || bool_decide (is_Some (files w !! p)).

(** [os.path.isfile(p)] *)
Definition isfile (p : string) : M OS bool :=
  fun w => (Ok (bool_decide (is_Some (files w !! p))), w).

(** [os.path.isdir(p)] *)
Definition isdir (p : string) : M OS bool :=
  fun w => (Ok (bool_decide (p ∈ dirs w)), w).

(** Keyword arguments of [tempfile.mkdtemp]. *)
Record mkdtemp_opts : Type := mk_opts { suffix : string; prefix : string; dir : string }.
Definition default_opts : mkdtemp_opts := mk_opts "" "tmp" "/tmp".

Definition temp_path (o : mkdtemp_opts) (name : string) : string :=
  dir o ++ "/" ++ prefix o ++ name ++ suffix o.

(** [tempfile.mkdtemp] with keyword arguments: the first candidate name whose path
    does not exist yet is created; [FileExistsError] (an [OSError]) when
    the candidates are used up. *)
Fixpoint mkdtemp_from (o : mkdtemp_opts) (names : list string) (w : OS)
    : result string * OS :=
  match names with
  | [] => (Raise (os_error (dir o)), set_temp_names [] w)
  | n :: rest =>
      let p := temp_path o n in
      if exists_path p w then mkdtemp_from o rest w
      else (Ok p, log_event (EvMkdtemp p)
                    (set_temp_names rest (set_fs ({[p]} ∪ dirs w) (files w) w)))
  end.

Definition mkdtemp (o : mkdtemp_opts) : M OS string :=
  fun w => mkdtemp_from o (temp_names w) w.

(** [p] lies below the directory [d]. *)
Definition below (d p : string) : bool := String.prefix (d ++ "/") p.

(** The state [shutil.rmtree(d)] leaves behind. *)
Definition after_rmtree (d : string) (w : OS) : OS :=
  log_event (EvRmtree d)
    (set_fs (filter (fun p => below d p = false) (dirs w ∖ {[d]}))
            (filter (fun kv => below d (fst kv) = false) (files w)) w).

(** [shutil.rmtree(d)]: removes [d] and everything below it; an
    [OSError] when [d] is not an existing directory. *)
Definition rmtree (d : string) : M OS unit :=
  fun w =>
    if bool_decide (d ∈ dirs w)
    then (Ok tt, after_rmtree d w)
    else (Raise (os_error d), w).

(** [p[:p.rfind('/') + 1]] *)
Fixpoint up_to_last_slash (p : string) : string :=
  match p with
  | EmptyString => ""
  | String c rest =>
      match up_to_last_slash rest with
      | EmptyString => if Ascii.eqb c "/" then "/" else ""
      | head => String c head
      end
  end.

(** [s.rstrip('/')] *)
Fixpoint rstrip_slashes (s : string) : string :=
  match s with
  | EmptyString => ""
  | String c rest =>
      match rstrip_slashes rest with
      | EmptyString => if Ascii.eqb c "/" then "" else String c ""
      | stripped => String c stripped
      end
  end.

(** [os.path.dirname(p)] of posixpath: the part up to the last slash,
    without its trailing slashes unless it consists of slashes only. *)
Definition dirname (p : string) : string :=
  let head := up_to_last_slash p in
  match rstrip_slashes head with
  | EmptyString => head
  | stripped => stripped
  end.

(** The directory a new file [p] goes into is there.  The current
    directory, for a path without a slash, and the root are; any other
    directory has to be one of [dirs].  Paths are taken as they are
    written: [.], [..] and links are not resolved. *)
Definition parent_exists (p : string) (w : OS) : bool :=
  bool_decide (rstrip_slashes (dirname p) = "") || bool_decide (dirname p ∈ dirs w).
Arguments parent_exists : simpl never.

(** [with open(p, 'w') as handle: handle.write(text)]: an [OSError]
    when [p] is a directory, or when the directory it lies in is
    missing. *)
Definition write_file (p text : string) : M OS unit :=
  fun w =>
    if bool_decide (p ∈ dirs w) then (Raise (os_error p), w)
    else if negb (parent_exists p w) then (Raise (os_error p), w)
    else
      let m := match files w !! p with Some f => mode f | None => 420%N end in
      (Ok tt, log_event (EvWrite p)
                (set_fs (dirs w) (<[p := mk_file text m]> (files w)) w)).

(** [os.chmod(p, m)] *)
Definition chmod (p : string) (m : N) : M OS unit :=
  fun w =>
    match files w !! p with
    | Some f => (Ok tt, log_event (EvChmod p m)
                          (set_fs (dirs w) (<[p := mk_file (content f) m]> (files w)) w))
    | None => if bool_decide (p ∈ dirs w)
              then (Ok tt, log_event (EvChmod p m) w)
              else (Raise (os_error p), w)
    end.

(** [os.environ] as a mapping: only strings can be stored. *)
Definition environ_protocol {S} (os : Lens S OS) : MappingProtocol S string := {|
  mapping_ref := VNone;
  getitem k := zoom os (fun w =>
    match environ w !! k with
    | Some v => (Ok v, w)
    | None => (Raise (mk_exn KeyError (VStr k)), w)
    end);
  setitem k v := zoom os (fun w =>
    match v with
    | VStr _ => (Ok tt, log_event (EvSetenv k v) (set_environ (<[k := v]> (environ w)) w))
    | _ => (Raise (mk_exn TypeError v), w)
    end);
  delitem k := zoom os (fun w =>
    match environ w !! k with
    | Some _ => (Ok tt, log_event (EvDelenv k) (set_environ (delete k (environ w)) w))
    | None => (Raise (mk_exn KeyError (VStr k)), w)
    end)
|}.

(** ** Strings: [sep.join(parts)] and [s.split(sep)] for a separator of
    one character, which [os.pathsep] is on every platform *)

Fixpoint str_join (sep : ascii) (parts : list string) : string :=
  match parts with
  | [] => ""
  | [p] => p
  | p :: rest => p ++ String sep (str_join sep rest)
  end.

(** [str_split] never returns the empty list: [''.split(':') == ['']]. *)
Fixpoint str_split (sep : ascii) (s : string) : list string :=
  match s with
  | EmptyString => [""]
  | String c rest =>
      if Ascii.eqb c sep then "" :: str_split sep rest
      else match str_split sep rest with
           | p :: ps => String c p :: ps
           | [] => [String c ""]
           end
  end.

(** [repr(s)] of a string, which is what [%r] puts into a message, for
    characters below 256 as Python 3 writes them: single quotes, or
    double quotes when the string has a single quote and no double one;
    a backslash before the quote in use and before a backslash; [\t],
    [\n], [\r]; [\xhh] for what is not printable. *)
Definition hex_digit (n : N) : ascii :=
  default "0"%char (get (N.to_nat n) "0123456789abcdef").

Fixpoint contains (c : ascii) (s : string) : bool :=
  match s with
  | EmptyString => false
  | String c' rest => Ascii.eqb c c' || contains c rest
  end.

Definition repr_char (quote c : ascii) : string :=
  let n := N_of_ascii c in
  if Ascii.eqb c quote || Ascii.eqb c "\" then String "\" (String c "")
  else if Ascii.eqb c "009" then "\t"
  else if Ascii.eqb c "010" then "\n"
  else if Ascii.eqb c "013" then "\r"
  else if (n <? 32)%N || ((127 <=? n)%N && (n <=? 160)%N) || (n =? 173)%N
       then "\x" ++ String (hex_digit (n / 16)) (String (hex_digit (n mod 16)) "")
       else String c "".

Fixpoint repr_chars (quote : ascii) (s : string) : string :=
  match s with
  | EmptyString => ""
  | String c rest => repr_char quote c ++ repr_chars quote rest
  end.

Definition repr (s : string) : string :=
  let quote := if contains "'" s && negb (contains "034" s) then "034"%char
               else "'"%char in
  String quote (repr_chars quote s ++ String quote "").

(** [os.path.join(a, b)] of posixpath. *)
Definition path_join (a b : string) : string :=
  if String.prefix "/" b then b
  else if bool_decide (a = "") then b
  else match get (String.length a - 1) a with
       | Some "/"%char => a ++ b
       | _ => a ++ "/" ++ b
       end.

(** ** class TemporaryDirectory(ContextManager) *)

Module TemporaryDirectory.

Record t : Type := mk {
  mkdtemp_options : mkdtemp_opts;
  temporary_directory : option string
}.

Definition set_temporary_directory (d : option string) (me : t) : t :=
  mk (mkdtemp_options me) d.

Definition init (options : mkdtemp_opts) : t := mk options None.

Section methods.
Context {S : Type}.
Variable os : Lens S OS.
Variable self : Lens S t.
Variable super_enter super_exit : M S unit.

Definition enter : M S string :=
  do! super_enter in
  let! me := gets self in
  let! d := zoom os (mkdtemp (mkdtemp_options me)) in
  let! me := gets self in
  do! puts self (set_temporary_directory (Some d) me) in
  ret d.

Definition exit : M S unit :=
  do! super_exit in
  let! me := gets self in
  match temporary_directory me with
  | Some d =>
      do! zoom os (rmtree d) in
      let! me := gets self in
      puts self (set_temporary_directory None me)
  | None => ret tt
  end.
End methods.

End TemporaryDirectory.

(** ** The class hierarchy and its method resolution order *)

Inductive class : Type :=
| cContextManager | cPatchedItem | cTemporaryDirectory
| cCustomSearchPath | cMockedProgram.

#[global] Instance class_eq_dec : EqDecision class.
Proof. solve_decision. Defined.

(** The base classes as the [class] statements list them. *)
Definition bases (c : class) : list class :=
  match c with
  | cContextManager => []
  | cPatchedItem => [cContextManager]
  | cTemporaryDirectory => [cContextManager]
  | cCustomSearchPath => [cPatchedItem; cTemporaryDirectory]
  | cMockedProgram => [cCustomSearchPath]
  end.

(** C3 linearisation, the algorithm Python uses for [__mro__]. *)
Definition in_a_tail (h : class) (seqs : list (list class)) : bool :=
  existsb (fun s => match s with
                    | [] => false
                    | _ :: tl => bool_decide (h ∈ tl)
                    end) seqs.

Fixpoint good_head (candidates seqs : list (list class)) : option class :=
  match candidates with
  | [] => None
  | [] :: rest => good_head rest seqs
  | (h :: _) :: rest => if in_a_tail h seqs then good_head rest seqs else Some h
  end.

Definition drop_class (h : class) (s : list class) : list class :=
  List.filter (fun c => negb (bool_decide (c = h))) s.

Fixpoint c3_merge (fuel : nat) (seqs : list (list class)) : list class :=
  match fuel with
  | O => []
  | S f =>
      match good_head seqs seqs with
      | None => []
      | Some h => h :: c3_merge f (List.map (drop_class h) seqs)
      end
  end.

Fixpoint linearise (depth : nat) (c : class) : list class :=
  match depth with
  | O => [c]
  | S d => c :: c3_merge 8 (List.map (linearise d) (bases c) ++ [bases c])
  end.

Definition mro (c : class) : list class := linearise 4 c.

(** The classes behind [c] in a method resolution order: where
    [super(c, self)] continues the search. *)
Fixpoint after (c : class) (order : list class) : list class :=
  match order with
  | [] => []
  | x :: rest => if bool_decide (x = c) then rest else after c rest
  end.

(** ** class CustomSearchPath(PatchedItem, TemporaryDirectory) *)

Module CustomSearchPath.

Record t : Type := mk {
  isolated_search_path : bool;
  item : PatchedItem.t string;          (* the fields of PatchedItem *)
  tempdir : TemporaryDirectory.t        (* the fields of TemporaryDirectory *)
}.

Definition item_lens : Lens t (PatchedItem.t string) :=
  mk_lens item (fun i me => mk (isolated_search_path me) i (tempdir me)).
Definition tempdir_lens : Lens t TemporaryDirectory.t :=
  mk_lens tempdir (fun d me => mk (isolated_search_path me) (item me) d).

Section methods.
Context {S : Type}.
Variable pathsep : ascii.       (* os.pathsep *)
Variable defpath : string.      (* os.defpath *)
Variable os : Lens S OS.
Variable self : Lens S t.
Variable T : class.             (* type(self) *)

(** [os.environ.get('PATH', os.defpath)] *)
Definition current_search_path : M S value :=
  zoom os (fun w =>
    (Ok (match environ w !! "PATH" with
         | Some v => v
         | None => VStr defpath
         end), w)).

(** The [__enter__] found by searching the classes [order].  The
    orders searched here are the ones behind [TemporaryDirectory],
    [PatchedItem] and [CustomSearchPath] in the method resolution
    order of [T]; they hold the three base classes only, so the last
    case of the match is never reached. *)
Fixpoint enter_from (order : list class) : M S unit :=
  match order with
  | [] => raise (mk_exn AttributeError (VStr "__enter__"))
  | cContextManager :: _ => ContextManager.enter
  | cPatchedItem :: rest =>
      let! _ := PatchedItem.enter (environ_protocol os)
                  (compose_lens self item_lens) (enter_from rest) in
      ret tt
  | cTemporaryDirectory :: rest =>
      let! _ := TemporaryDirectory.enter os
                  (compose_lens self tempdir_lens) (enter_from rest) in
      ret tt
  | _ :: rest => enter_from rest
  end.

Fixpoint exit_from (order : list class) : M S unit :=
  match order with
  | [] => raise (mk_exn AttributeError (VStr "__exit__"))
  | cContextManager :: _ => ContextManager.exit
  | cPatchedItem :: rest =>
      PatchedItem.exit (environ_protocol os)
        (compose_lens self item_lens) (exit_from rest)
  | cTemporaryDirectory :: rest =>
      TemporaryDirectory.exit os
        (compose_lens self tempdir_lens) (exit_from rest)
  | _ :: rest => exit_from rest
  end.

(** [super(c, self).__enter__()] and [super(c, self).__exit__()] *)
Definition super_enter (c : class) : M S unit := enter_from (after c (mro T)).
Definition super_exit (c : class) : M S unit := exit_from (after c (mro T)).

Definition enter : M S string :=
  (* directory = TemporaryDirectory.__enter__(self) *)
  let! directory := TemporaryDirectory.enter os
                      (compose_lens self tempdir_lens)
                      (super_enter cTemporaryDirectory) in
  let! me := gets self in
  let! v := (if isolated_search_path me then ret (VStr directory)
             else
               let! p := current_search_path in
               match p with
               | VStr s => ret (VStr (str_join pathsep (directory :: str_split pathsep s)))
               | _ => raise (mk_exn AttributeError (VStr "split"))
               end) in
  let! me := gets self in
  do! puts self (update item_lens (PatchedItem.set_patched_value v (item me)) me) in
  (* PatchedItem.__enter__(self) *)
  let! _ := PatchedItem.enter (environ_protocol os)
              (compose_lens self item_lens) (super_enter cPatchedItem) in
  ret directory.

Definition exit : M S unit := super_exit cCustomSearchPath.
End methods.

(** [__init__(self, isolated=False)] *)
Definition init (defpath : string) (isolated : bool) : M OS t :=
  let! p := current_search_path defpath (mk_lens (fun w => w) (fun w _ => w)) in
  ret (mk isolated (PatchedItem.init "PATH" p) (TemporaryDirectory.init default_opts)).

End CustomSearchPath.

(** ** class MockedProgram(CustomSearchPath) *)

Module MockedProgram.

Record t : Type := mk {
  program_name : string;
  program_returncode : Z;
  program_signal_file : option string;
  base : CustomSearchPath.t             (* the inherited fields *)
}.

Definition base_lens : Lens t CustomSearchPath.t :=
  mk_lens base (fun b me =>
    mk (program_name me) (program_returncode me) (program_signal_file me) b).

Definition set_program_signal_file (f : option string) (me : t) : t :=
  mk (program_name me) (program_returncode me) f (base me).

(** [__init__(self, name, returncode=0)] *)
Definition init (defpath : string) (name : string) (returncode : Z) : M OS t :=
  let! b := CustomSearchPath.init defpath false in
  ret (mk name returncode None b).

Section methods.
Context {S : Type}.
Variable pathsep : ascii.
Variable defpath : string.
(** [humanfriendly.text.random_string] and [pipes.quote] *)
Variable random_string : nat -> string.
Variable quote : string -> string.
Variable os : Lens S OS.
Variable self : Lens S t.

Definition script (signal_file : string) (returncode : Z) : string :=
  "#!/bin/sh" ++ String "010" ""
  ++ "echo > " ++ quote signal_file ++ String "010" ""
  ++ "exit " ++ pretty returncode
  ++ String "010" "".

Definition enter : M S string :=
  let! directory := CustomSearchPath.enter pathsep defpath os
                      (compose_lens self base_lens) cMockedProgram in
  let signal_file := path_join directory ("program-was-run-" ++ random_string 10) in
  let! me := gets self in
  do! puts self (set_program_signal_file (Some signal_file) me) in
  let! me := gets self in
  let pathname := path_join directory (program_name me) in
  do! zoom os (write_file pathname (script signal_file (program_returncode me))) in
  do! zoom os (chmod pathname 493) in
  ret directory.

(** [assert self.program_signal_file and os.path.isfile(...)] *)
Definition assert_program_was_run : M S unit :=
  let! me := gets self in
  let! ok := match program_signal_file me with
             | None => ret false
             | Some f => if bool_decide (f = "") then ret false
                         else zoom os (isfile f)
             end in
  if (ok : bool) then ret tt
  else raise (mk_exn AssertionError
                (VStr ("It looks like " ++ repr (program_name me) ++ " was never run!"))).

(** [try: assert ... finally: return super().__exit__(...)] *)
Definition exit : M S unit :=
  try_finally
    assert_program_was_run
    (let! r := CustomSearchPath.exit os (compose_lens self base_lens)
                 cMockedProgram in
     ret (Some r)).
End methods.

End MockedProgram.

(** ** The interpreter process: module [sys] and the StringIO objects *)

Inductive attr_event : Type :=
| EvSetattr (name : string) (v : value)
| EvDelattr (name : string).

Record Process : Type := mk_Process {
  sys : pyobj;                       (* the attributes of module sys *)
  heap : gmap N string;              (* the text held by each StringIO *)
  sys_trace : list attr_event        (* setattr and delattr done on sys *)
}.

Definition sys_lens : Lens Process pyobj :=
  mk_lens sys (fun o p => mk_Process o (heap p) (sys_trace p)).

Definition log_attr (e : attr_event) (p : Process) : Process :=
  mk_Process (sys p) (heap p) (sys_trace p ++ [e]).

(** [StringIO(text)]: a new object *)
Definition StringIO (text : string) : M Process value :=
  fun p => let id := fresh (dom (heap p)) in
           (Ok (VRef id), mk_Process (sys p) (<[id := text]> (heap p)) (sys_trace p)).

(** [stream.getvalue()] *)
Definition getvalue_of (stream : value) : M Process value :=
  fun p => match stream with
           | VRef id => match heap p !! id with
                        | Some text => (Ok (VStr text), p)
                        | None => (Raise (mk_exn AttributeError (VStr "getvalue")), p)
                        end
           | _ => (Raise (mk_exn AttributeError (VStr "getvalue")), p)
           end.

(** Module [sys] as an object whose [setattr] and [delattr] are recorded. *)
Definition sys_protocol {S} (proc : Lens S Process) : ObjectProtocol S :=
  let plain := pyobj_protocol VNone (compose_lens proc sys_lens) in {|
  object_ref := VNone;
  getattr := getattr plain;
  setattr name v :=
    do! setattr plain name v in
    zoom proc (fun p => (Ok tt, log_attr (EvSetattr name v) p));
  delattr name :=
    do! delattr plain name in
    zoom proc (fun p => (Ok tt, log_attr (EvDelattr name) p))
|}.

(** The element [i] of a list of instances. *)
Definition nth_lens {A} (i : nat) (default : A) : Lens (list A) A :=
  mk_lens (fun l => nth i l default) (fun a l => <[i := a]> l).

(** ** class CaptureOutput(ContextManager) *)

Module CaptureOutput.

Record t : Type := mk {
  stdin : value;
  stdout : value;
  stderr : value;
  patched_attributes : list PatchedAttribute.t
}.

Definition patched_attributes_lens : Lens t (list PatchedAttribute.t) :=
  mk_lens patched_attributes (fun l me => mk (stdin me) (stdout me) (stderr me) l).

(** [getattr(self, name)] for the three stream names *)
Definition stream (i o e : value) (name : string) : value :=
  if bool_decide (name = "stdin") then i
  else if bool_decide (name = "stdout") then o
  else e.

(** [__init__(self, merged=False, input='')] *)
Definition init (merged : bool) (input : string) : M Process t :=
  let! i := StringIO input in
  let! o := StringIO "" in
  let! e := (if merged then ret o else StringIO "") in
  ret (mk i o e
         (List.map (fun name => PatchedAttribute.init name (stream i o e name))
                   ["stdin"; "stdout"; "stderr"])).

Section methods.
Context {S : Type}.
Variable proc : Lens S Process.
Variable self : Lens S t.

Definition context_lens (i : nat) : Lens S PatchedAttribute.t :=
  compose_lens self
    (compose_lens patched_attributes_lens
       (nth_lens i (PatchedAttribute.init "" VNone))).

Definition enter : M S unit :=
  do! ContextManager.enter in
  let! me := gets self in
  (* for context in self.patched_attributes: context.__enter__() *)
  for_each (seq 0 (length (patched_attributes me)))
    (fun i => let! _ := PatchedAttribute.enter (sys_protocol proc) (context_lens i) in
              ret tt).

Definition exit : M S unit :=
  do! ContextManager.exit in
  let! me := gets self in
  (* for context in self.patched_attributes: context.__exit__(...) *)
  for_each (seq 0 (length (patched_attributes me)))
    (fun i => PatchedAttribute.exit (sys_protocol proc) (context_lens i)).

Definition getvalue : M S value :=
  let! me := gets self in
  zoom proc (getvalue_of (stdout me)).
End methods.

End CaptureOutput.

(** ** run_cli *)

(** Run a computation that has one more local variable. *)
Definition with_local {W L A} (l : L) (c : M (L * W) A) : M W A :=
  fun w => let '(r, s) := c (l, w) in (r, snd s).

(** The keyword arguments [run_cli] understands. *)
Record run_cli_options : Type := mk_run_cli_options {
  opt_input : option string;
  opt_merged : option bool;
  opt_program_name : option value
}.

Definition run_cli (entry_point : M Process unit) (arguments : list value)
    (options : run_cli_options) : M Process (value * value) :=
  (* program_name = options.pop('program_name', sys.executable) *)
  let! executable := (fun p => match lookup_attr (sys p) "executable" with
                               | Some v => (Ok v, p)
                               | None => (Raise (mk_exn AttributeError (VStr "executable")), p)
                               end) in
  let program_name := default executable (opt_program_name options) in
  let! capture := CaptureOutput.init (default false (opt_merged options))
                                     (default "" (opt_input options)) in
  with_local capture
    (with_ (CaptureOutput.enter snd_lens fst_lens) (CaptureOutput.exit snd_lens fst_lens)
       (fun _ =>
          let arguments := program_name :: arguments in
          with_local (PatchedAttribute.init "argv" (VList arguments))
            (with_ (PatchedAttribute.enter (sys_protocol (compose_lens snd_lens snd_lens)) fst_lens)
                   (PatchedAttribute.exit (sys_protocol (compose_lens snd_lens snd_lens)) fst_lens)
               (fun _ =>
                  let! returncode :=
                    try_except_else
                      (zoom (compose_lens snd_lens snd_lens) entry_point)
                      SystemExit
                      (fun e => ret (code e))
                      (fun _ => ret (VInt 0)) in
                  let! text := CaptureOutput.getvalue (compose_lens snd_lens snd_lens)
                                 (compose_lens snd_lens fst_lens) in
                  ret (returncode, text))))).

(** ** retry *)

Record Clock : Type := mk_Clock {
  now : Q;                (* the time; time.time() returns it as a float *)
  sleeps : list Q         (* the arguments of the calls of time.sleep, oldest first *)
}.

(** *** Python's floats

    A [float] is an IEEE 754 binary64 number.  The finite ones are
    rationals, and the model keeps them as such: [float q] is the
    binary64 number nearest to [q], ties going to the even significand,
    which is what a decimal literal, the conversion of an integer and
    every arithmetic operation on floats produce from the exact value.
    Magnitudes from [2^1024] on, which Python turns into [inf] or an
    [OverflowError], are outside the model: [float] rounds them like
    any other value. *)

(** [2 ** k] *)
Definition pow2 (k : Z) : Q := Qpower 2 k.

(** The [k] with [2 ** k <= a < 2 ** (k + 1)], for a positive [a] *)
Definition binade (a : Q) : Z :=
  if Qle_bool 1 a then Z.log2 (Qfloor a) else (- Z.log2_up (Qceiling (/ a)))%Z.

(** The integer nearest to [x], the even one of two that are equally near *)
Definition round_half_even (x : Q) : Z :=
  let f := Qfloor x in
  match Qcompare (x - inject_Z f) (1 # 2) with
  | Lt => f
  | Gt => (f + 1)%Z
  | Eq => if Z.even f then f else (f + 1)%Z
  end.

(** A significand of 53 bits; the exponent does not go below that of
    the subnormal numbers. *)
Definition float (q : Q) : Q :=
  if Qeq_bool q 0 then 0%Q
  else
    let a := Qabs q in
    let e := Z.max (binade a - 52) (-1074) in
    let m := Qred (inject_Z (round_half_even (a / pow2 e)) * pow2 e) in
    if Qle_bool 0 q then m else (- m)%Q.

(** [time.time()]: the time of the clock, as a float *)
Definition time_time {S} (clock : Lens S Clock) : M S Q :=
  fun s => (Ok (float (now (view clock s))), s).

(** [time.sleep(seconds)] *)
Definition time_sleep {S} (clock : Lens S Clock) (seconds : Q) : M S unit :=
  fun s => let c := view clock s in
           (Ok tt, update clock (mk_Clock (now c + seconds)%Q (sleeps c ++ [seconds])) s).

(** [a > b] and [a < b] on the rationals, as booleans *)
Definition Qgt_bool (a b : Q) : bool := negb (Qle_bool a b).
Definition Qlt_bool (a b : Q) : bool := negb (Qle_bool b a).

(** [CallableTimedOut()] *)
Definition timed_out : exn := mk_exn CallableTimedOut VNone.

(** [if pause < 1: pause *= 2].  The pause starts at [0.1] and is only
    ever doubled; doubling is exact in binary floating point, and every
    value it takes compares with [1] as the rational of the same name
    does, so the rationals stand for the floats here. *)
Definition next_pause (pause : Q) : Q :=
  if Qlt_bool pause 1 then (pause * 2)%Q else pause.

(** The pause before the attempt number [n + 1] *)
Definition pause_at (n : nat) : Q := Nat.iter n next_pause (1 # 10)%Q.

Section retry.
Context {W : Type}.
Variable clock : Lens W Clock.
Variable func : M W value.
Variable exc_type : exc_class.

(** One pass through the body of [while True] up to the sleep:
    [Some v] when the pass executed [return v], [None] when it fell
    through to [time.sleep(pause)]. *)
Definition attempt (timeout : Q) : M W (option value) :=
  try_except_else
    (let! result := func in
     if is_not_False result then ret (Some result) else ret None)
    exc_type
    (fun e =>
       let! t := time_time clock in
       if Qgt_bool t timeout then raise e else ret None)
    (fun returned =>
       match returned with
       | Some result => ret (Some result)
       | None =>
           let! t := time_time clock in
           if Qgt_bool t timeout then raise timed_out
           else ret None
       end).

(** The loop, unrolled at most [fuel] times; [None] when the fuel ran
    out before the loop was left. *)
Fixpoint retry_loop (fuel : nat) (timeout pause : Q) : M W (option value) :=
  match fuel with
  | O => ret None
  | S n =>
      let! r := attempt timeout in
      match r with
      | Some result => ret (Some result)
      | None =>
          do! time_sleep clock pause in
          retry_loop n timeout (next_pause pause)
      end
  end.

(** [timeout += time.time()] is an addition of floats: the number
    passed as [timeout] is converted, and the sum is rounded. *)
Definition retry (fuel : nat) (timeout : Q) : M W (option value) :=
  let pause := (1 # 10)%Q in
  let! t := time_time clock in
  let timeout := float (float timeout + t) in
  retry_loop fuel timeout pause.
End retry.

(** ** The classes used on their own

    A [PatchedAttribute], [PatchedItem] or [TemporaryDirectory] that is
    not part of a larger class: the state is the instance together with
    the thing it acts on, and [super()] is [ContextManager]. *)

Module Standalone.

Definition attr_enter (ref : value) : M (PatchedAttribute.t * pyobj) value :=
  PatchedAttribute.enter (pyobj_protocol ref snd_lens) fst_lens.
Definition attr_exit (ref : value) : M (PatchedAttribute.t * pyobj) unit :=
  PatchedAttribute.exit (pyobj_protocol ref snd_lens) fst_lens.

Definition item_enter {K} `{Countable K} (ref : value) (key_repr : K -> value)
    : M (PatchedItem.t K * gmap K value) value :=
  PatchedItem.enter (dict_protocol ref key_repr snd_lens) fst_lens ContextManager.enter.
Definition item_exit {K} `{Countable K} (ref : value) (key_repr : K -> value)
    : M (PatchedItem.t K * gmap K value) unit :=
  PatchedItem.exit (dict_protocol ref key_repr snd_lens) fst_lens ContextManager.exit.

Definition tempdir_enter : M (TemporaryDirectory.t * OS) string :=
  TemporaryDirectory.enter snd_lens fst_lens ContextManager.enter.
Definition tempdir_exit : M (TemporaryDirectory.t * OS) unit :=
  TemporaryDirectory.exit snd_lens fst_lens ContextManager.exit.

(** A [CustomSearchPath] or a [MockedProgram] ([T] says which) with
    the operating system it acts on. *)
Definition csp_enter (pathsep : ascii) (defpath : string) (T : class)
    : M (CustomSearchPath.t * OS) string :=
  CustomSearchPath.enter pathsep defpath snd_lens fst_lens T.
Definition csp_exit (T : class) : M (CustomSearchPath.t * OS) unit :=
  CustomSearchPath.exit snd_lens fst_lens T.

Definition mocked_enter (pathsep : ascii) (defpath : string)
    (random_string : nat -> string) (quote : string -> string)
    : M (MockedProgram.t * OS) string :=
  MockedProgram.enter pathsep defpath random_string quote snd_lens fst_lens.
Definition mocked_exit : M (MockedProgram.t * OS) unit :=
  MockedProgram.exit snd_lens fst_lens.

(** [os.environ.get('PATH', os.defpath)] as a function of the state *)
Definition search_path (defpath : string) (w : OS) : value :=
  match environ w !! "PATH" with
  | Some v => v
  | None => VStr defpath
  end.

(** The instance [CustomSearchPath(isolated)] built in the state [w] *)
Definition csp_new (defpath : string) (isolated : bool) (w : OS) : CustomSearchPath.t :=
  CustomSearchPath.mk isolated (PatchedItem.init "PATH" (search_path defpath w))
    (TemporaryDirectory.init default_opts).

(** A [CaptureOutput] with the process it acts on. *)
Definition capture_enter : M (CaptureOutput.t * Process) unit :=
  CaptureOutput.enter snd_lens fst_lens.
Definition capture_exit : M (CaptureOutput.t * Process) unit :=
  CaptureOutput.exit snd_lens fst_lens.

(** The attribute an event is about, and the names of the attributes
    touched between two states, oldest first *)
Definition event_name (e : attr_event) : string :=
  match e with
  | EvSetattr name _ | EvDelattr name => name
  end.
Definition touched (before after : Process) : list string :=
  List.map event_name (drop (length (sys_trace before)) (sys_trace after)).

(** The state in which [run_cli] calls the entry point: three new
    StringIO objects (two when the streams are merged), the three
    streams and [sys.argv] patched. *)
Definition entry_state (arguments : list value) (options : run_cli_options)
    (executable : value) (p : Process) : Process :=
  let i := fresh (dom (heap p)) in
  let h1 := <[i := default "" (opt_input options)]> (heap p) in
  let o := fresh (dom h1) in
  let h2 := <[o := ""]> h1 in
  let e := if default false (opt_merged options) then o else fresh (dom h2) in
  let h3 := if default false (opt_merged options) then h2 else <[e := ""]> h2 in
  let argv := VList (default executable (opt_program_name options) :: arguments) in
  mk_Process
    (pyobj_setattr "argv" argv
       (pyobj_setattr "stderr" (VRef e)
          (pyobj_setattr "stdout" (VRef o)
             (pyobj_setattr "stdin" (VRef i) (sys p)))))
    h3
    (sys_trace p ++ [EvSetattr "stdin" (VRef i); EvSetattr "stdout" (VRef o);
                     EvSetattr "stderr" (VRef e); EvSetattr "argv" argv]).

(** The StringIO that captures the standard output there *)
Definition capture_buffer (options : run_cli_options) (p : Process) : N :=
  fresh (dom (<[fresh (dom (heap p)) := default "" (opt_input options)]> (heap p))).

(** The instance [MockedProgram(name, returncode)] built in the state [w] *)
Definition mocked_new (defpath name : string) (returncode : Z) (w : OS)
    : MockedProgram.t :=
  MockedProgram.mk name returncode None (csp_new defpath false w).

(** The exception the failing assertion of [MockedProgram.__exit__] carries *)
Definition never_run_error (name : string) : exn :=
  mk_exn AssertionError (VStr ("It looks like " ++ repr name ++ " was never run!")).

Definition is_csp (T : class) : Prop := T = cCustomSearchPath \/ T = cMockedProgram.

(** The event and the environment that restoring the item produces *)
Definition restore_event (k : string) (orig : value) : os_event :=
  if is_NOTHING orig then EvDelenv k else EvSetenv k orig.

Definition restore_environ (k : string) (orig : value) (e : gmap string value)
    : gmap string value :=
  if is_NOTHING orig then delete k e else <[k := orig]> e.

(** The events performed between two states *)
Definition new_events (before after : OS) : list os_event :=
  drop (length (os_trace before)) (os_trace after).

End Standalone.

(** ** The order of teardown as the specification words it

    "restores environment then removes the directory": among the events
    of an exit, a restoration of the environment entry comes before a
    removal of the directory. *)

Definition is_restore (e : os_event) : bool :=
  match e with
  | EvSetenv _ _ | EvDelenv _ => true
  | _ => false
  end.

Definition is_removal (e : os_event) : bool :=
  match e with
  | EvRmtree _ => true
  | _ => false
  end.

Definition restored_before_removed (events : list os_event) : Prop :=
  exists i j e r,
    i < j /\ events !! i = Some e /\ is_restore e = true
    /\ events !! j = Some r /\ is_removal r = true.

(** ** The order of deactivation as the specification words it

    "deactivates patches in reverse order": the attributes are restored
    in the reverse of the order in which they were patched. *)

Definition deactivated_in_reverse (patched restored : list string) : Prop :=
  restored = rev patched.

(** ** Concrete inputs used by the examples *)

Definition example_object : pyobj :=
  mk_pyobj {["verbose" := VNone]} {["level" := VInt 3]}.

Definition example_dict : gmap string value := {["HOME" := VStr "/root"]}.

Definition example_os : OS :=
  mk_OS {["PATH" := VStr "/bin:/usr/bin"]} {["/tmp"]} ∅ ["a"; "b"; "c"] [].

Definition example_os_with_tempdir : OS :=
  mk_OS {["PATH" := VStr "/bin:/usr/bin"]} {["/tmp"; "/tmp/tmpa"]} ∅ ["b"; "c"] [].

Definition example_os_without_path : OS :=
  mk_OS ∅ {["/tmp"]} ∅ ["a"; "b"; "c"] [].

(** The state after entering [CustomSearchPath()] in [example_os] *)
Definition example_scope : CustomSearchPath.t * OS :=
  snd (Standalone.csp_enter ":" "/bin" cCustomSearchPath
         (Standalone.csp_new "/bin" false example_os, example_os)).

(** The state after entering [MockedProgram('git')] in [example_os]; the
    program is not run afterwards. *)
Definition example_mocked_scope : MockedProgram.t * OS :=
  snd (Standalone.mocked_enter ":" "/bin" (fun _ => "k3J9x0QzPA") (fun s => s)
         (Standalone.mocked_new "/bin" "git" 0 example_os, example_os)).

Definition example_process : Process :=
  mk_Process
    (mk_pyobj {["stdin" := VRef 100; "stdout" := VRef 101; "stderr" := VRef 102;
                "argv" := VList [VStr "prog"]; "executable" := VStr "/usr/bin/python"]} ∅)
    {[100%N := ""; 101%N := ""; 102%N := ""]} [].

(** A process that only has a clock, and two operations on it:
    [lambda: False] and [lambda: 0] *)
Definition id_lens {A} : Lens A A := mk_lens (fun a => a) (fun a _ => a).
Definition always_False : M Clock value := ret (VBool false).
Definition returns_zero : M Clock value := ret (VInt 0).

(** [sys.<stream>.write(text)] *)
Definition sys_write (stream text : string) : M Process unit :=
  fun p => match lookup_attr (sys p) stream with
           | Some (VRef id) =>
               match heap p !! id with
               | Some old => (Ok tt, mk_Process (sys p) (<[id := (old ++ text)%string]> (heap p))
                                       (sys_trace p))
               | None => (Raise (mk_exn AttributeError (VStr "write")), p)
               end
           | _ => (Raise (mk_exn AttributeError (VStr "write")), p)
           end.

(** An entry point that writes "hello" and calls [sys.exit(3)] *)
Definition says_hello_and_exits_3 : M Process unit :=
  do! sys_write "stdout" "hello" in
  raise (mk_exn SystemExit (VInt 3)).

(** An entry point that calls [sys.exit()] without an argument *)
Definition exits_without_code : M Process unit := raise (mk_exn SystemExit VNone).

(** ** What the users of the module do with it *)

(** What running the script written by [MockedProgram.__enter__] does
    to the file system: its line [echo > signal_file] writes a newline
    to the signal file.  An instance that was never entered has no
    script to run. *)
Definition run_mocked_program (me : MockedProgram.t) : M OS unit :=
  match MockedProgram.program_signal_file me with
  | Some f => write_file f (String "010" "")
  | None => raise (os_error (MockedProgram.program_name me))
  end.

(** The value of [run_cli], from the way the entry point ended and the
    text in the StringIO that stood for [sys.stdout]; [None] for a
    stream that is no longer there. *)
Definition run_cli_result (r6 : result unit) (captured : option string)
    : result (value * value) :=
  match r6 with
  | Ok _ =>
      match captured with
      | Some text => Ok (VInt 0, VStr text)
      | None => Raise (mk_exn AttributeError (VStr "getvalue"))
      end
  | Raise e =>
      if caught_by SystemExit e
      then match captured with
           | Some text => Ok (code e, VStr text)
           | None => Raise (mk_exn AttributeError (VStr "getvalue"))
           end
      else Raise e
  end.

(** ** class TestCase(unittest.TestCase) *)

Module TestCase.
(** [assertRaises(self, exception, callable, ...)]: the call of
    [callable] with the remaining arguments is the computation
    [callable]; the value returned is the exception object. *)
Definition assertRaises {S A} (exception : exc_class) (callable : M S A) : M S exn :=
  try_except_else callable exception
    (fun e => ret e)
    (fun _ => raise (mk_exn AssertionError (VStr "Expected an exception to be raised!"))).
End TestCase.

(** An operation that fails its assertion the first [n] times it is
    called and ends as [last] from then on; the state counts the calls. *)
Definition fails_then (n : nat) (last : result value) : M (Clock * nat) value :=
  fun s => if (snd s <? n)%nat
           then (Raise (mk_exn AssertionError (VStr "not yet")), (fst s, S (snd s)))
           else (last, s).

(** An operation that takes until the time [t] and returns [False] *)
Definition returns_False_at (t : Q) : M Clock value :=
  fun c => (Ok (VBool false), mk_Clock t (sleeps c)).

(** [func], with the number of its calls kept beside the state *)
Definition counting {W A} (func : M W A) : M (W * nat) A :=
  fun s => let '(r, w) := func (fst s) in (r, (w, S (snd s))).

(** * Properties *)

(** ** Patches restore what they found (C1) *)

Lemma is_NOTHING_true (v : value) : is_NOTHING v = true <-> v = NOTHING.
Proof. destruct v; cbn; split; intros E; try discriminate; reflexivity. Qed.

Lemma is_NOTHING_false (v : value) : v <> NOTHING -> is_NOTHING v = false.
Proof. destruct v; cbn; intros E; try reflexivity. now destruct E. Qed.

Lemma PatchedAttribute_enter_run (ref : value) (o : pyobj) (name : string) (v : value) :
  Standalone.attr_enter ref (PatchedAttribute.init name v, o)
  = (Ok ref,
     (PatchedAttribute.mk name v (default NOTHING (lookup_attr o name)),
      pyobj_setattr name v o)).
Proof.
  unfold Standalone.attr_enter, PatchedAttribute.enter, bind, gets, puts, ret,
    ContextManager.enter; cbn.
  destruct (lookup_attr o name); reflexivity.
Qed.

Lemma PatchedAttribute_exit_run (ref : value) (me : PatchedAttribute.t) (o : pyobj) :
  Standalone.attr_exit ref (me, o)
  = if is_NOTHING (PatchedAttribute.original_value me)
    then match inst_attrs o !! PatchedAttribute.attribute_to_patch me with
         | Some _ => (Ok tt, (me, pyobj_delattr (PatchedAttribute.attribute_to_patch me) o))
         | None => (Raise (mk_exn AttributeError
                             (VStr (PatchedAttribute.attribute_to_patch me))), (me, o))
         end
    else (Ok tt, (me, pyobj_setattr (PatchedAttribute.attribute_to_patch me)
                        (PatchedAttribute.original_value me) o)).
Proof.
  unfold Standalone.attr_exit, PatchedAttribute.exit, bind, gets, ret,
    ContextManager.exit; cbn.
  destruct (is_NOTHING _); cbn; [|reflexivity].
  destruct (inst_attrs o !! _); reflexivity.
Qed.

Lemma lookup_attr_setattr (o : pyobj) (name : string) (v : value) (n : string) :
  lookup_attr (pyobj_setattr name v o) n
  = if decide (name = n) then Some v else lookup_attr o n.
Proof.
  unfold lookup_attr, pyobj_setattr; cbn. rewrite lookup_insert.
  destruct (decide (name = n)); reflexivity.
Qed.

Lemma pyobj_delattr_setattr (o : pyobj) (name : string) (v : value) :
  inst_attrs o !! name = None -> pyobj_delattr name (pyobj_setattr name v o) = o.
Proof.
  intros Hi. destruct o as [inst ty]; unfold pyobj_delattr, pyobj_setattr; cbn in *.
  now rewrite delete_insert_eq, delete_id.
Qed.

Lemma pyobj_setattr_setattr (o : pyobj) (name : string) (v x : value) :
  pyobj_setattr name x (pyobj_setattr name v o) = pyobj_setattr name x o.
Proof. unfold pyobj_setattr; cbn. now rewrite insert_insert_eq. Qed.

Lemma pyobj_setattr_id (o : pyobj) (name : string) (x : value) :
  inst_attrs o !! name = Some x -> pyobj_setattr name x o = o.
Proof.
  intros Hi. destruct o as [inst ty]; unfold pyobj_setattr; cbn in *.
  now rewrite insert_id.
Qed.

Lemma PatchedAttribute_scope (ref : value) (o : pyobj) (name : string) (v : value) :
  inst_attrs o !! name <> Some NOTHING ->
  let me1 := PatchedAttribute.mk name v (default NOTHING (lookup_attr o name)) in
  let o1 := pyobj_setattr name v o in
  Standalone.attr_enter ref (PatchedAttribute.init name v, o) = (Ok ref, (me1, o1))
  /\ lookup_attr o1 name = Some v
  /\ exists o2,
       Standalone.attr_exit ref (me1, o1) = (Ok tt, (me1, o2))
       /\ (forall n, lookup_attr o2 n = lookup_attr o n)
       /\ (is_Some (inst_attrs o !! name) \/ type_attrs o !! name = None -> o2 = o).
Proof.
  intros Hlegit me1 o1.
  split; [apply PatchedAttribute_enter_run|].
  split; [unfold o1; rewrite lookup_attr_setattr; now destruct (decide _)|].
  rewrite PatchedAttribute_exit_run. subst me1 o1; cbn.
  destruct (inst_attrs o !! name) as [x|] eqn:Hi.
  - assert (Hl : lookup_attr o name = Some x) by (unfold lookup_attr; now rewrite Hi).
    rewrite Hl; cbn. rewrite is_NOTHING_false by congruence.
    rewrite pyobj_setattr_setattr, pyobj_setattr_id by exact Hi.
    exists o. repeat split; reflexivity.
  - assert (Hl : lookup_attr o name = type_attrs o !! name)
      by (unfold lookup_attr; now rewrite Hi).
    rewrite Hl.
    destruct (type_attrs o !! name) as [y|] eqn:Ht; cbn;
      [destruct (is_NOTHING y) eqn:Hy|]; cbn.
    + rewrite lookup_insert_eq, pyobj_delattr_setattr by exact Hi.
      exists o. repeat split; reflexivity.
    + rewrite pyobj_setattr_setattr. eexists. split; [reflexivity|]. split.
      * intros n. rewrite lookup_attr_setattr.
        destruct (decide (name = n)) as [<-|]; [|reflexivity].
        now rewrite Hl.
      * intros [[? ?]|?]; congruence.
    + rewrite lookup_insert_eq, pyobj_delattr_setattr by exact Hi.
      exists o. repeat split; reflexivity.
Qed.

Section item.
Context {K : Type} `{Countable K}.

Lemma PatchedItem_enter_run (ref : value) (key_repr : K -> value)
    (m : gmap K value) (k : K) (v : value) :
  Standalone.item_enter ref key_repr (PatchedItem.init k v, m)
  = (Ok ref, (PatchedItem.mk k v (default NOTHING (m !! k)), <[k := v]> m)).
Proof.
  unfold Standalone.item_enter, PatchedItem.enter, try_except, bind, gets, puts, ret,
    ContextManager.enter; cbn.
  destruct (m !! k); reflexivity.
Qed.

Lemma PatchedItem_exit_run (ref : value) (key_repr : K -> value)
    (me : PatchedItem.t K) (m : gmap K value) :
  Standalone.item_exit ref key_repr (me, m)
  = if is_NOTHING (PatchedItem.original_value me)
    then match m !! PatchedItem.item_to_patch me with
         | Some _ => (Ok tt, (me, delete (PatchedItem.item_to_patch me) m))
         | None => (Raise (mk_exn KeyError (key_repr (PatchedItem.item_to_patch me))), (me, m))
         end
    else (Ok tt, (me, <[PatchedItem.item_to_patch me := PatchedItem.original_value me]> m)).
Proof.
  unfold Standalone.item_exit, PatchedItem.exit, bind, gets, ret, ContextManager.exit; cbn.
  destruct (is_NOTHING _); cbn; [|reflexivity].
  destruct (m !! _); reflexivity.
Qed.

Lemma PatchedItem_scope (ref : value) (key_repr : K -> value)
    (m : gmap K value) (k : K) (v : value) :
  m !! k <> Some NOTHING ->
  let me1 := PatchedItem.mk k v (default NOTHING (m !! k)) in
  let m1 := <[k := v]> m in
  Standalone.item_enter ref key_repr (PatchedItem.init k v, m) = (Ok ref, (me1, m1))
  /\ m1 !! k = Some v
  /\ Standalone.item_exit ref key_repr (me1, m1) = (Ok tt, (me1, m)).
Proof.
  intros Hlegit me1 m1.
  split; [apply PatchedItem_enter_run|].
  split; [apply lookup_insert_eq|].
  rewrite PatchedItem_exit_run. subst me1 m1; cbn.
  destruct (m !! k) as [x|] eqn:Hk; cbn.
  - rewrite is_NOTHING_false by congruence.
    now rewrite insert_insert_eq, insert_id.
  - now rewrite lookup_insert_eq, delete_insert_eq, delete_id.
Qed.
End item.

(** C1. For every object, attribute name and replacement value, and for
    every mapping, key and replacement value, whose current value is a
    legitimate one (anything but the sentinel object [NOTHING] itself,
    so [None] and the other falsy values are included): entering
    records the current value, or [NOTHING] when there is none, and
    installs the replacement; exiting right after succeeds and leaves
    every [getattr] query on the object as it was before entering (the
    object itself is unchanged when the attribute was its own or was
    absent altogether), and leaves the mapping exactly as it was, an
    absent key being absent again rather than present with a null
    value. *)
Theorem patch_scope_restores {K : Type} `{Countable K}
    (ref : value) (o : pyobj) (name : string) (v : value)
    (key_repr : K -> value) (m : gmap K value) (k : K) (w : value) :
  inst_attrs o !! name <> Some NOTHING ->
  m !! k <> Some NOTHING ->
  (let me1 := PatchedAttribute.mk name v (default NOTHING (lookup_attr o name)) in
   let o1 := pyobj_setattr name v o in
   Standalone.attr_enter ref (PatchedAttribute.init name v, o) = (Ok ref, (me1, o1))
   /\ lookup_attr o1 name = Some v
   /\ exists o2,
        Standalone.attr_exit ref (me1, o1) = (Ok tt, (me1, o2))
        /\ (forall n, lookup_attr o2 n = lookup_attr o n)
        /\ (is_Some (inst_attrs o !! name) \/ type_attrs o !! name = None -> o2 = o))
  /\
  (let me1 := PatchedItem.mk k w (default NOTHING (m !! k)) in
   let m1 := <[k := w]> m in
   Standalone.item_enter ref key_repr (PatchedItem.init k w, m) = (Ok ref, (me1, m1))
   /\ m1 !! k = Some w
   /\ Standalone.item_exit ref key_repr (me1, m1) = (Ok tt, (me1, m)))
  /\ NOTHING <> VNone.
Proof.
  intros Ho Hm. split; [|split].
  - now apply PatchedAttribute_scope.
  - now apply PatchedItem_scope.
  - discriminate.
Qed.

Lemma patch_scope_restores_witness :
  exists o2 : pyobj,
    Standalone.attr_exit VNone
      (PatchedAttribute.mk "verbose" (VBool true) VNone,
       pyobj_setattr "verbose" (VBool true) example_object)
    = (Ok tt, (PatchedAttribute.mk "verbose" (VBool true) VNone, o2))
    /\ o2 = example_object.
Proof.
  destruct (patch_scope_restores (K := string) VNone example_object "verbose"
              (VBool true) VStr example_dict "LANG" (VStr "C"))
    as [(_ & _ & o2 & Hexit & _ & Hsame) _].
  - vm_compute. discriminate.
  - vm_compute. discriminate.
  - exists o2. split; [exact Hexit|]. apply Hsame. left. vm_compute. eauto.
Defined.

(** The hypothesis on the current value cannot be dropped: a key that
    holds the sentinel object itself is taken for an absent one, and is
    deleted on exit. *)
Remark PatchedItem_sentinel_is_taken_for_absence :
  let m : gmap string value := {["x" := NOTHING]} in
  exists me1 m1,
    Standalone.item_enter VNone VStr (PatchedItem.init "x" (VInt 1), m) = (Ok VNone, (me1, m1))
    /\ Standalone.item_exit VNone VStr (me1, m1) = (Ok tt, (me1, delete "x" m)).
Proof.
  intros m. eexists _, _. split; [apply PatchedItem_enter_run|].
  rewrite PatchedItem_exit_run. subst m. cbn.
  now rewrite lookup_insert_eq, delete_insert_eq.
Qed.

(** ** The temporary directory (C9) *)

Lemma mkdtemp_from_ok (o : mkdtemp_opts) (names : list string) (w w' : OS) (p : string) :
  mkdtemp_from o names w = (Ok p, w') ->
  (p ∉ dirs w)
  /\ dirs w' = {[p]} ∪ dirs w
  /\ files w' = files w
  /\ environ w' = environ w
  /\ os_trace w' = os_trace w ++ [EvMkdtemp p].
Proof.
  induction names as [|n rest IH]; cbn; [discriminate|].
  destruct (exists_path (temp_path o n) w) eqn:He; [exact IH|].
  intros [= <- <-]; cbn. repeat split; try reflexivity.
  unfold exists_path in He. apply orb_false_iff in He as [He _].
  now apply bool_decide_eq_false in He.
Qed.

Lemma tempdir_enter_ok (me me1 : TemporaryDirectory.t) (w w1 : OS) (d : string) :
  Standalone.tempdir_enter (me, w) = (Ok d, (me1, w1)) ->
  TemporaryDirectory.temporary_directory me1 = Some d
  /\ (d ∉ dirs w) /\ (d ∈ dirs w1).
Proof.
  unfold Standalone.tempdir_enter, TemporaryDirectory.enter, bind, gets, puts, ret,
    zoom, mkdtemp, ContextManager.enter; cbn.
  destruct (mkdtemp_from _ _ w) as [[p|e] w'] eqn:Hm; cbn; [|discriminate].
  intros [= <- <- <-]; cbn. apply mkdtemp_from_ok in Hm as (Hfresh & Hd & _).
  split; [reflexivity|]. split; [exact Hfresh|]. rewrite Hd.
  apply elem_of_union_l, elem_of_singleton. reflexivity.
Qed.

Lemma tempdir_exit_run (me : TemporaryDirectory.t) (w : OS) :
  Standalone.tempdir_exit (me, w)
  = match TemporaryDirectory.temporary_directory me with
    | Some d =>
        if bool_decide (d ∈ dirs w)
        then (Ok tt, (TemporaryDirectory.set_temporary_directory None me, after_rmtree d w))
        else (Raise (os_error d), (me, w))
    | None => (Ok tt, (me, w))
    end.
Proof.
  unfold Standalone.tempdir_exit, TemporaryDirectory.exit, bind, gets, puts, ret,
    zoom, rmtree, ContextManager.exit; cbn.
  destruct (TemporaryDirectory.temporary_directory me) as [d|]; cbn; [|reflexivity].
  destruct (bool_decide (d ∈ dirs w)); reflexivity.
Qed.

Lemma after_rmtree_gone (d : string) (w : OS) : d ∉ dirs (after_rmtree d w).
Proof.
  cbn. rewrite elem_of_filter, elem_of_difference, elem_of_singleton.
  intros (_ & _ & Hne). now apply Hne.
Qed.

(** C9. Exiting a [TemporaryDirectory] whose stored directory exists
    removes the directory tree and then clears the stored path to
    [None]; from then on, exiting the same instance again does nothing
    (it returns normally and changes neither the instance nor the file
    system), whatever happened in between. *)
Theorem tempdir_exit_idempotent (me : TemporaryDirectory.t) (w : OS) (d : string) :
  TemporaryDirectory.temporary_directory me = Some d ->
  d ∈ dirs w ->
  exists me' w',
    Standalone.tempdir_exit (me, w) = (Ok tt, (me', w'))
    /\ os_trace w' = os_trace w ++ [EvRmtree d]
    /\ (d ∉ dirs w')
    /\ TemporaryDirectory.temporary_directory me' = None
    /\ forall w'', Standalone.tempdir_exit (me', w'') = (Ok tt, (me', w'')).
Proof.
  intros Hd Hin. eexists _, _. rewrite tempdir_exit_run, Hd.
  rewrite bool_decide_eq_true_2 by exact Hin.
  split; [reflexivity|]. split; [reflexivity|]. split; [apply after_rmtree_gone|].
  split; [reflexivity|]. intros w''. now rewrite tempdir_exit_run.
Qed.

Lemma tempdir_exit_idempotent_witness :
  exists me' w',
    Standalone.tempdir_exit
      (TemporaryDirectory.mk default_opts (Some "/tmp/tmpa"), example_os_with_tempdir)
    = (Ok tt, (me', w'))
    /\ Standalone.tempdir_exit (me', w') = (Ok tt, (me', w')).
Proof.
  destruct (tempdir_exit_idempotent
              (TemporaryDirectory.mk default_opts (Some "/tmp/tmpa"))
              example_os_with_tempdir "/tmp/tmpa")
    as (me' & w' & Hexit & _ & _ & _ & Htwice).
  - reflexivity.
  - vm_compute. tauto.
  - exists me', w'. split; [exact Hexit | apply Htwice].
Defined.

(** ** The search path (C7, C10, C3) *)

Import Standalone.

Lemma str_split_cons (sep : ascii) (s : string) :
  exists p ps, str_split sep s = p :: ps.
Proof.
  induction s as [|c rest IH]; cbn; [eauto|].
  destruct (Ascii.eqb c sep); [eauto|].
  destruct IH as (p & ps & ->). eauto.
Qed.

Lemma str_join_cons (sep : ascii) (p q : string) (ps : list string) :
  str_join sep (p :: q :: ps) = (p ++ String sep (str_join sep (q :: ps)))%string.
Proof. reflexivity. Qed.

Lemma str_join_split (sep : ascii) (s : string) :
  str_join sep (str_split sep s) = s.
Proof.
  induction s as [|c rest IH]; [reflexivity|].
  cbn [str_split]. destruct (str_split_cons sep rest) as (p & ps & Hs).
  rewrite Hs in *. destruct (Ascii.eqb_spec c sep) as [->|Hc].
  - rewrite str_join_cons, IH. reflexivity.
  - destruct ps as [|q ps].
    + cbn in *. now rewrite IH.
    + rewrite str_join_cons in *. cbn. now rewrite <- IH.
Qed.

Lemma str_join_prepend (sep : ascii) (d s : string) :
  str_join sep (d :: str_split sep s) = (d ++ String sep s)%string.
Proof.
  destruct (str_split_cons sep s) as (p & ps & Hs).
  pose proof (str_join_split sep s) as Hj. rewrite Hs in *.
  now rewrite str_join_cons, Hj.
Qed.

Ltac csp_unfold :=
  repeat (progress
    (cbn -[mkdtemp str_join str_split];
     unfold PatchedItem.enter, PatchedItem.exit, TemporaryDirectory.enter,
       TemporaryDirectory.exit, CustomSearchPath.enter_from, CustomSearchPath.exit_from,
       CustomSearchPath.current_search_path, try_except, try_finally,
       bind, gets, puts, ret, raise, zoom, ContextManager.enter, ContextManager.exit)).

(** The method resolution orders, as C3 linearisation computes them. *)
Example mro_CustomSearchPath :
  mro cCustomSearchPath
  = [cCustomSearchPath; cPatchedItem; cTemporaryDirectory; cContextManager].
Proof. reflexivity. Qed.

Example mro_MockedProgram :
  mro cMockedProgram
  = [cMockedProgram; cCustomSearchPath; cPatchedItem; cTemporaryDirectory;
     cContextManager].
Proof. reflexivity. Qed.

Lemma CustomSearchPath_init_run (defpath : string) (isolated : bool) (w : OS) :
  CustomSearchPath.init defpath isolated w = (Ok (csp_new defpath isolated w), w).
Proof. reflexivity. Qed.

Lemma csp_enter_inv (pathsep : ascii) (defpath : string) (T : class)
    (isolated : bool) (pv0 orig0 : value) (opts : mkdtemp_opts) (td0 : option string)
    (w0 w1 : OS) (d : string) (me1 : CustomSearchPath.t) :
  is_csp T ->
  csp_enter pathsep defpath T
    (CustomSearchPath.mk isolated (PatchedItem.mk "PATH" pv0 orig0)
       (TemporaryDirectory.mk opts td0), w0) = (Ok d, (me1, w1)) ->
  exists wa d2 wb cur,
    mkdtemp opts w0 = (Ok d, wa)
    /\ mkdtemp opts wa = (Ok d2, wb)
    /\ (isolated = false -> search_path defpath w0 = VStr cur)
    /\ let pv := VStr (if isolated then d else d ++ String pathsep cur)%string in
       me1 = CustomSearchPath.mk isolated
               (PatchedItem.mk "PATH" pv (default NOTHING (environ w0 !! "PATH")))
               (TemporaryDirectory.mk opts (Some d2))
       /\ w1 = log_event (EvSetenv "PATH" pv) (set_environ (<["PATH" := pv]> (environ wb)) wb).
Proof.
  intros HT.
  assert (Hmro : after cTemporaryDirectory (mro T) = [cContextManager]
                 /\ after cPatchedItem (mro T) = [cTemporaryDirectory; cContextManager])
    by (destruct HT as [-> | ->]; split; reflexivity).
  destruct Hmro as [Hm1 Hm2].
  unfold csp_enter, CustomSearchPath.enter, CustomSearchPath.super_enter.
  rewrite Hm1, Hm2. unfold search_path.
  csp_unfold.
  destruct (mkdtemp opts w0) as [[d1|e] wa] eqn:Ha; csp_unfold; [|discriminate].
  pose proof (mkdtemp_from_ok _ _ _ _ _ Ha) as (_ & _ & _ & Hea & _).
  rewrite <- Hea.
  destruct isolated; csp_unfold.
  - destruct (mkdtemp opts wa) as [[d2|e] wb] eqn:Hb; csp_unfold; [|discriminate].
    pose proof (mkdtemp_from_ok _ _ _ _ _ Hb) as (_ & _ & _ & Heb & _).
    rewrite Heb.
    destruct (environ wa !! "PATH") as [v|] eqn:Hp; csp_unfold; intros [= <- <- <-];
      exists wa, d2, wb, ""; repeat split; try reflexivity; try discriminate; exact Hb.
  - destruct (environ wa !! "PATH") as [v|] eqn:Hp; csp_unfold.
    + destruct v as [ |b|n|cur|l|id| ]; csp_unfold; try discriminate.
      destruct (mkdtemp opts wa) as [[d2|e] wb] eqn:Hb; csp_unfold; [|discriminate].
      pose proof (mkdtemp_from_ok _ _ _ _ _ Hb) as (_ & _ & _ & Heb & _).
      rewrite Heb, Hp; csp_unfold. intros [= <- <- <-].
      exists wa, d2, wb, cur.
      destruct (str_split_cons pathsep cur) as (p & ps & Hs).
      rewrite Hs, <- Hs, str_join_split.
      repeat split; try reflexivity; exact Hb.
    + destruct (mkdtemp opts wa) as [[d2|e] wb] eqn:Hb; csp_unfold; [|discriminate].
      pose proof (mkdtemp_from_ok _ _ _ _ _ Hb) as (_ & _ & _ & Heb & _).
      rewrite Heb, Hp; csp_unfold. intros [= <- <- <-].
      exists wa, d2, wb, defpath.
      destruct (str_split_cons pathsep defpath) as (p & ps & Hs).
      rewrite Hs, <- Hs, str_join_split.
      repeat split; try reflexivity; exact Hb.
Qed.

Lemma csp_exit_run (T : class) (me : CustomSearchPath.t) (w : OS) (d : string) :
  is_csp T ->
  TemporaryDirectory.temporary_directory (CustomSearchPath.tempdir me) = Some d ->
  d ∈ dirs w ->
  let k := PatchedItem.item_to_patch (CustomSearchPath.item me) in
  let orig := PatchedItem.original_value (CustomSearchPath.item me) in
  (exists s, orig = VStr s) \/ (orig = NOTHING /\ is_Some (environ w !! k)) ->
  csp_exit T (me, w)
  = (Ok tt,
     (update CustomSearchPath.tempdir_lens
        (TemporaryDirectory.set_temporary_directory None (CustomSearchPath.tempdir me)) me,
      log_event (restore_event k orig)
        (set_environ (restore_environ k orig (environ w)) (after_rmtree d w)))).
Proof.
  intros HT Hd Hin k orig Horig.
  assert (Hmro : after cCustomSearchPath (mro T)
                 = [cPatchedItem; cTemporaryDirectory; cContextManager])
    by (destruct HT as [-> | ->]; reflexivity).
  unfold csp_exit, CustomSearchPath.exit, CustomSearchPath.super_exit.
  rewrite Hmro. unfold restore_event, restore_environ. subst k orig.
  destruct me as [iso [k pv orig] [opts td]]; cbn in *. subst td.
  csp_unfold. unfold rmtree. rewrite (bool_decide_eq_true_2 _ Hin). csp_unfold.
  destruct Horig as [[s ->] | [-> [x Hx]]]; csp_unfold.
  - reflexivity.
  - rewrite Hx. reflexivity.
Qed.

Lemma mkdtemp_ok (o : mkdtemp_opts) (w w' : OS) (p : string) :
  mkdtemp o w = (Ok p, w') ->
  (p ∈ dirs w') /\ environ w' = environ w.
Proof.
  intros Hm. apply mkdtemp_from_ok in Hm as (_ & Hd & _ & He & _).
  split; [|exact He]. rewrite Hd. apply elem_of_union_l, elem_of_singleton. reflexivity.
Qed.

(** What an entered scope looks like. *)
Lemma csp_enter_ok (pathsep : ascii) (defpath : string) (T : class) (isolated : bool)
    (w0 w1 : OS) (d : string) (me1 : CustomSearchPath.t) :
  is_csp T ->
  csp_enter pathsep defpath T (csp_new defpath isolated w0, w0) = (Ok d, (me1, w1)) ->
  exists d2 cur,
    (isolated = false -> search_path defpath w0 = VStr cur)
    /\ let pv := VStr (if isolated then d else d ++ String pathsep cur)%string in
       me1 = CustomSearchPath.mk isolated
               (PatchedItem.mk "PATH" pv (default NOTHING (environ w0 !! "PATH")))
               (TemporaryDirectory.mk default_opts (Some d2))
       /\ environ w1 = <["PATH" := pv]> (environ w0)
       /\ (d2 ∈ dirs w1)
       /\ exists wa wb, mkdtemp default_opts w0 = (Ok d, wa)
                     /\ mkdtemp default_opts wa = (Ok d2, wb)
                     /\ os_trace w1 = os_trace wb ++ [EvSetenv "PATH" pv].
Proof.
  intros HT Henter. apply csp_enter_inv in Henter as
    (wa & d2 & wb & cur & Ha & Hb & Hcur & Hme & Hw); [|exact HT].
  exists d2, cur. split; [exact Hcur|]. cbn. split; [exact Hme|].
  apply mkdtemp_ok in Ha as Ha'. apply mkdtemp_ok in Hb as Hb'.
  destruct Ha' as [_ Hea], Hb' as [Hd2 Heb].
  subst w1; cbn. rewrite Heb, Hea. split; [reflexivity|]. split; [exact Hd2|].
  exists wa, wb. repeat split; assumption.
Qed.

(** C7. While a [CustomSearchPath] scope is active, [os.environ['PATH']]
    is the temporary directory [__enter__] returned, alone when
    [isolated] is true, and followed by [os.pathsep] and the original
    value otherwise; that directory is the one [tempfile.mkdtemp] made
    in the state the scope was entered in, it did not exist before and
    exists in the scope.  Exiting (with the directory the instance
    stores still in place, whatever else the body did) puts the
    original value back verbatim. *)
Theorem search_path_while_active (pathsep : ascii) (defpath : string)
    (isolated : bool) (w0 w1 : OS) (orig d : string) (me1 : CustomSearchPath.t) :
  environ w0 !! "PATH" = Some (VStr orig) ->
  csp_enter pathsep defpath cCustomSearchPath (csp_new defpath isolated w0, w0)
    = (Ok d, (me1, w1)) ->
  environ w1 !! "PATH"
    = Some (VStr (if isolated then d else d ++ String pathsep orig)%string)
  /\ (d ∉ dirs w0) /\ (d ∈ dirs w1)
  /\ (exists wa, mkdtemp default_opts w0 = (Ok d, wa))
  /\ exists d2,
       TemporaryDirectory.temporary_directory (CustomSearchPath.tempdir me1) = Some d2
       /\ (d2 ∈ dirs w1)
       /\ forall w2, d2 ∈ dirs w2 ->
            exists me2 w3,
              csp_exit cCustomSearchPath (me1, w2) = (Ok tt, (me2, w3))
              /\ environ w3 !! "PATH" = Some (VStr orig).
Proof.
  intros Hpath Henter.
  assert (Hnew : (d ∉ dirs w0) /\ (d ∈ dirs w1)
                 /\ exists wa, mkdtemp default_opts w0 = (Ok d, wa)).
  { apply csp_enter_inv in Henter as (wa & d2 & wb & cur & Ha & Hb & _ & _ & Hw);
      [|now left].
    pose proof (mkdtemp_from_ok _ _ _ _ _ Ha) as (Hfresh & Hda & _).
    pose proof (mkdtemp_from_ok _ _ _ _ _ Hb) as (_ & Hdb & _).
    split; [exact Hfresh|]. split; [|now exists wa].
    subst w1; cbn. rewrite Hdb, Hda.
    apply elem_of_union_r, elem_of_union_l, elem_of_singleton. reflexivity. }
  destruct Hnew as (Hfresh & Hin1 & Hmk).
  apply csp_enter_ok in Henter as (d2 & cur & Hcur & Hme & Henv & Hd2 & _); [|now left].
  assert (Hc : isolated = false -> cur = orig).
  { intros Hi. specialize (Hcur Hi). unfold search_path in Hcur.
    rewrite Hpath in Hcur. congruence. }
  split.
  { rewrite Henv, lookup_insert_eq. destruct isolated; [reflexivity|].
    now rewrite Hc. }
  split; [exact Hfresh|]. split; [exact Hin1|]. split; [exact Hmk|].
  exists d2. subst me1. split; [reflexivity|]. split; [exact Hd2|].
  intros w2 Hin. eexists _, _. split.
  + apply csp_exit_run with (d := d2); [now left|reflexivity|exact Hin|].
    left. cbn. rewrite Hpath. now exists orig.
  + cbn. rewrite Hpath. cbn. apply lookup_insert_eq.
Qed.

Lemma search_path_while_active_witness :
  exists (d : string) (s1 : CustomSearchPath.t * OS),
    csp_enter ":" "/bin" cCustomSearchPath (csp_new "/bin" false example_os, example_os)
      = (Ok d, s1)
    /\ environ (snd s1) !! "PATH" = Some (VStr (d ++ ":/bin:/usr/bin")%string).
Proof.
  exists "/tmp/tmpa". eexists (_, _). split; [vm_compute; reflexivity|].
  refine (proj1 (search_path_while_active ":" "/bin" false example_os _
                   "/bin:/usr/bin" "/tmp/tmpa" _ _ _)).
  - reflexivity.
  - vm_compute; reflexivity.
Defined.

(** C10. When the environment has no ['PATH'] entry as the scope is
    entered, the value installed is built from [os.defpath] (the
    temporary directory, [os.pathsep], [os.defpath]) unless the scope is
    isolated, the instance records [NOTHING] as the original value, and
    exiting deletes the entry: ['PATH'] is absent again, not set to
    [os.defpath]. *)
Theorem absent_search_path_is_absent_again (pathsep : ascii) (defpath : string)
    (isolated : bool) (w0 w1 : OS) (d : string) (me1 : CustomSearchPath.t) :
  environ w0 !! "PATH" = None ->
  csp_enter pathsep defpath cCustomSearchPath (csp_new defpath isolated w0, w0)
    = (Ok d, (me1, w1)) ->
  environ w1 !! "PATH"
    = Some (VStr (if isolated then d else d ++ String pathsep defpath)%string)
  /\ PatchedItem.original_value (CustomSearchPath.item me1) = NOTHING
  /\ exists d2,
       TemporaryDirectory.temporary_directory (CustomSearchPath.tempdir me1) = Some d2
       /\ (d2 ∈ dirs w1)
       /\ forall w2, d2 ∈ dirs w2 -> is_Some (environ w2 !! "PATH") ->
            exists me2 w3,
              csp_exit cCustomSearchPath (me1, w2) = (Ok tt, (me2, w3))
              /\ environ w3 !! "PATH" = None
              /\ os_trace w3 = os_trace w2 ++ [EvRmtree d2; EvDelenv "PATH"].
Proof.
  intros Hpath Henter.
  apply csp_enter_ok in Henter as (d2 & cur & Hcur & Hme & Henv & Hd2 & _); [|now left].
  assert (Hc : isolated = false -> cur = defpath).
  { intros Hi. specialize (Hcur Hi). unfold search_path in Hcur.
    rewrite Hpath in Hcur. congruence. }
  split; [|split].
  - rewrite Henv, lookup_insert_eq. destruct isolated; [reflexivity|].
    now rewrite Hc.
  - subst me1. cbn. now rewrite Hpath.
  - exists d2. subst me1. split; [reflexivity|]. split; [exact Hd2|].
    intros w2 Hin Hsome. eexists _, _. split; [|split].
    + apply csp_exit_run with (d := d2); [now left|reflexivity|exact Hin|].
      right. cbn. rewrite Hpath. split; [reflexivity|exact Hsome].
    + cbn. rewrite Hpath. cbn. apply lookup_delete_eq.
    + cbn. rewrite Hpath. cbn. now rewrite <- app_assoc.
Qed.

Lemma absent_search_path_is_absent_again_witness :
  exists (d : string) (s1 s2 : CustomSearchPath.t * OS),
    csp_enter ":" "/bin" cCustomSearchPath
      (csp_new "/bin" false example_os_without_path, example_os_without_path)
      = (Ok d, s1)
    /\ environ (snd s1) !! "PATH" = Some (VStr (d ++ ":/bin")%string)
    /\ csp_exit cCustomSearchPath s1 = (Ok tt, s2)
    /\ environ (snd s2) !! "PATH" = None.
Proof.
  destruct (absent_search_path_is_absent_again ":" "/bin" false example_os_without_path
              (snd (snd (csp_enter ":" "/bin" cCustomSearchPath
                           (csp_new "/bin" false example_os_without_path,
                            example_os_without_path))))
              "/tmp/tmpa"
              (fst (snd (csp_enter ":" "/bin" cCustomSearchPath
                           (csp_new "/bin" false example_os_without_path,
                            example_os_without_path)))))
    as (Henv & _ & d2 & Hd2 & Hin & Hexit).
  - reflexivity.
  - vm_compute; reflexivity.
  - destruct (Hexit _ Hin) as (me2 & w3 & Hrun & Hgone & _).
    + rewrite Henv. eauto.
    + exists "/tmp/tmpa". eexists (_, _), (me2, w3).
      split; [vm_compute; reflexivity|]. split; [exact Henv|].
      split; [exact Hrun | exact Hgone].
Defined.

(** C3 as stated fails: in the example scope the exit removes the
    directory before it restores the environment entry, so no
    restoration precedes a removal. *)
Lemma teardown_order_counterexample :
  let s2 := snd (csp_exit cCustomSearchPath example_scope) in
  new_events (snd example_scope) (snd s2)
    = [EvRmtree "/tmp/tmpb"; EvSetenv "PATH" (VStr "/bin:/usr/bin")]
  /\ ~ restored_before_removed (new_events (snd example_scope) (snd s2)).
Proof.
  assert (He : new_events (snd example_scope)
                 (snd (snd (csp_exit cCustomSearchPath example_scope)))
               = [EvRmtree "/tmp/tmpb"; EvSetenv "PATH" (VStr "/bin:/usr/bin")])
    by (vm_compute; reflexivity).
  cbv zeta. rewrite He. split; [reflexivity|].
  intros (i & j & e & r & Hij & Hi & He' & Hj & Hr).
  destruct j as [|[|j]]; cbn in Hj.
  - lia.
  - injection Hj as <-. discriminate.
  - discriminate.
Qed.

(** C3, amended. Entering acquires the temporary directories first and
    patches the environment last.  On exit of an entered scope, in any
    state the body left in which the stored directory still exists and
    ['PATH'] is still set, the teardown runs in that same order: the
    stored temporary directory is removed first, and the environment
    entry is restored (or deleted, when there was none) second. *)
Theorem teardown_removes_then_restores (pathsep : ascii) (defpath : string)
    (isolated : bool) (w0 w1 : OS) (d : string) (me1 : CustomSearchPath.t) :
  (forall v, environ w0 !! "PATH" = Some v -> exists s, v = VStr s) ->
  csp_enter pathsep defpath cCustomSearchPath (csp_new defpath isolated w0, w0)
    = (Ok d, (me1, w1)) ->
  exists d2 pv,
    TemporaryDirectory.temporary_directory (CustomSearchPath.tempdir me1) = Some d2
    /\ new_events w0 w1 = [EvMkdtemp d; EvMkdtemp d2; EvSetenv "PATH" pv]
    /\ forall w2, d2 ∈ dirs w2 -> is_Some (environ w2 !! "PATH") ->
         exists me2 w3,
           csp_exit cCustomSearchPath (me1, w2) = (Ok tt, (me2, w3))
           /\ new_events w2 w3
              = [EvRmtree d2;
                 match environ w0 !! "PATH" with
                 | Some v => EvSetenv "PATH" v
                 | None => EvDelenv "PATH"
                 end].
Proof.
  intros Hstr Henter.
  apply csp_enter_ok in Henter as
    (d2 & cur & Hcur & Hme & Henv & Hd2 & wa & wb & Ha & Hb & Htr); [|now left].
  eexists d2, _. subst me1. split; [reflexivity|]. split.
  - apply mkdtemp_from_ok in Ha as (_ & _ & _ & _ & Hta).
    apply mkdtemp_from_ok in Hb as (_ & _ & _ & _ & Htb).
    unfold new_events. rewrite Htr, Htb, Hta, <- !app_assoc.
    rewrite drop_app_length. reflexivity.
  - intros w2 Hin Hsome. eexists _, _. split.
    + apply csp_exit_run with (d := d2); [now left|reflexivity|exact Hin|].
      cbn. destruct (environ w0 !! "PATH") as [v|] eqn:Hp; cbn.
      * left. exact (Hstr v eq_refl).
      * right. split; [reflexivity|exact Hsome].
    + unfold new_events. cbn. rewrite <- app_assoc, drop_app_length. cbn.
      destruct (environ w0 !! "PATH") as [v|] eqn:Hp; cbn; [|reflexivity].
      destruct (Hstr v eq_refl) as [s ->]. reflexivity.
Qed.

Lemma teardown_removes_then_restores_witness :
  exists s2,
    csp_exit cCustomSearchPath (fst example_scope, snd example_scope) = (Ok tt, s2)
    /\ new_events (snd example_scope) (snd s2)
       = [EvRmtree "/tmp/tmpb"; EvSetenv "PATH" (VStr "/bin:/usr/bin")].
Proof.
  destruct (teardown_removes_then_restores ":" "/bin" false example_os
              (snd example_scope) "/tmp/tmpa" (fst example_scope))
    as (d2 & pv & Hd2 & _ & Hexit).
  - intros v Hv. vm_compute in Hv. injection Hv as <-. eauto.
  - vm_compute; reflexivity.
  - vm_compute in Hd2. injection Hd2 as <-.
    destruct (Hexit (snd example_scope)) as (me2 & w3 & Hrun & Hev).
    + vm_compute. tauto.
    + vm_compute. eauto.
    + exists (me2, w3). split; [exact Hrun | exact Hev].
Defined.

(** The directory [__enter__] returns, the one put on the search path,
    is not the one the instance stores: [PatchedItem.__enter__] reaches
    [TemporaryDirectory.__enter__] a second time through [super()], and
    the second directory replaces the first in [temporary_directory].
    The exit removes the second; the first outlives the scope. *)
Remark entered_directory_outlives_the_scope :
  let s1 := example_scope in
  let s2 := snd (csp_exit cCustomSearchPath s1) in
  new_events example_os (snd s1)
    = [EvMkdtemp "/tmp/tmpa"; EvMkdtemp "/tmp/tmpb";
       EvSetenv "PATH" (VStr "/tmp/tmpa:/bin:/usr/bin")]
  /\ TemporaryDirectory.temporary_directory (CustomSearchPath.tempdir (fst s1))
     = Some "/tmp/tmpb"
  /\ elements (dirs (snd s2)) = ["/tmp/tmpa"; "/tmp"].
Proof. repeat split; vm_compute; reflexivity. Qed.

(** ** The mocked program (C2) *)

Lemma MockedProgram_init_run (defpath name : string) (returncode : Z) (w : OS) :
  MockedProgram.init defpath name returncode w
  = (Ok (mocked_new defpath name returncode w), w).
Proof. reflexivity. Qed.

Lemma assert_program_was_run_fails (me : MockedProgram.t) (w : OS) :
  (forall f, MockedProgram.program_signal_file me = Some f -> files w !! f = None) ->
  MockedProgram.assert_program_was_run snd_lens fst_lens (me, w)
  = (Raise (never_run_error (MockedProgram.program_name me)), (me, w)).
Proof.
  intros Hnever. unfold MockedProgram.assert_program_was_run, never_run_error.
  csp_unfold. destruct me as [name rc [f|] b]; cbn in *; [|reflexivity].
  destruct (bool_decide (f = "")); csp_unfold; [reflexivity|].
  unfold isfile. now rewrite (Hnever f eq_refl).
Qed.

Lemma mocked_exit_run (me : MockedProgram.t) (w : OS) (d : string) :
  let b := MockedProgram.base me in
  TemporaryDirectory.temporary_directory (CustomSearchPath.tempdir b) = Some d ->
  d ∈ dirs w ->
  let k := PatchedItem.item_to_patch (CustomSearchPath.item b) in
  let orig := PatchedItem.original_value (CustomSearchPath.item b) in
  (exists s, orig = VStr s) \/ (orig = NOTHING /\ is_Some (environ w !! k)) ->
  mocked_exit (me, w)
  = (Ok tt,
     (update MockedProgram.base_lens
        (update CustomSearchPath.tempdir_lens
           (TemporaryDirectory.set_temporary_directory None (CustomSearchPath.tempdir b)) b)
        me,
      log_event (restore_event k orig)
        (set_environ (restore_environ k orig (environ w)) (after_rmtree d w)))).
Proof.
  intros b Hd Hin k orig Horig. subst b k orig.
  unfold mocked_exit, MockedProgram.exit, MockedProgram.assert_program_was_run,
    CustomSearchPath.exit, CustomSearchPath.super_exit, restore_event, restore_environ.
  change (after cCustomSearchPath (mro cMockedProgram))
    with [cPatchedItem; cTemporaryDirectory; cContextManager].
  destruct me as [name rc sf [iso [k pv orig] [opts td]]]; cbn in *. subst td.
  csp_unfold.
  destruct sf as [f|]; csp_unfold; [destruct (bool_decide (f = "")); csp_unfold|].
  all: try (unfold isfile; destruct (bool_decide (is_Some (files w !! f))); csp_unfold).
  all: unfold rmtree; rewrite (bool_decide_eq_true_2 _ Hin); csp_unfold.
  all: destruct Horig as [[s ->] | [-> [x Hx]]]; csp_unfold; rewrite ?Hx; reflexivity.
Qed.

(** C2, what the code does. In a [MockedProgram] scope whose signal file
    does not exist at exit (the program was never run), the assertion of
    [__exit__] fails with an [AssertionError], and yet [__exit__]
    returns normally: the [return] in its [finally] block discards the
    pending exception.  The inherited cleanup is performed: the stored
    temporary directory is removed and the environment entry is
    restored. *)
Theorem mocked_exit_discards_the_assertion (me : MockedProgram.t) (w : OS)
    (d orig : string) :
  (forall f, MockedProgram.program_signal_file me = Some f -> files w !! f = None) ->
  TemporaryDirectory.temporary_directory
    (CustomSearchPath.tempdir (MockedProgram.base me)) = Some d ->
  d ∈ dirs w ->
  PatchedItem.item_to_patch (CustomSearchPath.item (MockedProgram.base me)) = "PATH" ->
  PatchedItem.original_value (CustomSearchPath.item (MockedProgram.base me)) = VStr orig ->
  MockedProgram.assert_program_was_run snd_lens fst_lens (me, w)
    = (Raise (never_run_error (MockedProgram.program_name me)), (me, w))
  /\ exists me' w',
       mocked_exit (me, w) = (Ok tt, (me', w'))
       /\ environ w' !! "PATH" = Some (VStr orig)
       /\ (d ∉ dirs w')
       /\ new_events w w' = [EvRmtree d; EvSetenv "PATH" (VStr orig)].
Proof.
  intros Hnever Hd Hin Hk Horig. split; [now apply assert_program_was_run_fails|].
  eexists _, _. split.
  - apply mocked_exit_run with (d := d); [exact Hd|exact Hin|].
    left. now exists orig.
  - rewrite Hk, Horig. cbn. split; [apply lookup_insert_eq|]. split.
    + rewrite elem_of_filter, elem_of_difference, elem_of_singleton.
      intros (_ & _ & Hne). now apply Hne.
    + unfold new_events; cbn. now rewrite <- app_assoc, drop_app_length.
Qed.

Lemma mocked_exit_discards_the_assertion_witness :
  MockedProgram.program_signal_file (fst example_mocked_scope)
    = Some "/tmp/tmpa/program-was-run-k3J9x0QzPA"
  /\ files (snd example_mocked_scope) !! "/tmp/tmpa/program-was-run-k3J9x0QzPA" = None
  /\ exists s2,
       mocked_exit (fst example_mocked_scope, snd example_mocked_scope) = (Ok tt, s2).
Proof.
  split; [reflexivity|]. split; [reflexivity|].
  destruct (mocked_exit_discards_the_assertion (fst example_mocked_scope)
              (snd example_mocked_scope) "/tmp/tmpb" "/bin:/usr/bin")
    as (_ & me' & w' & Hexit & _).
  - intros f Hf. vm_compute in Hf. injection Hf as <-. reflexivity.
  - reflexivity.
  - vm_compute. tauto.
  - reflexivity.
  - reflexivity.
  - exists (me', w'). exact Hexit.
Defined.

(** ** Capturing the standard streams (C8) *)

Ltac capture_unfold :=
  repeat (progress
    (cbn -[fresh];
     unfold capture_enter, capture_exit, CaptureOutput.enter, CaptureOutput.exit,
       CaptureOutput.init, CaptureOutput.context_lens, CaptureOutput.getvalue,
       PatchedAttribute.enter, PatchedAttribute.exit, StringIO, getvalue_of,
       sys_protocol, pyobj_protocol, for_each, with_, with_local,
       try_except, try_except_else, try_finally,
       bind, gets, puts, ret, raise, zoom, ContextManager.enter, ContextManager.exit)).

Lemma capture_init_run (merged : bool) (input : string) (p0 : Process)
    (me0 : CaptureOutput.t) (p1 : Process) :
  CaptureOutput.init merged input p0 = (Ok me0, p1) ->
  exists i o e,
    me0 = CaptureOutput.mk i o e
            [PatchedAttribute.init "stdin" i; PatchedAttribute.init "stdout" o;
             PatchedAttribute.init "stderr" e]
    /\ sys p1 = sys p0 /\ sys_trace p1 = sys_trace p0.
Proof.
  unfold CaptureOutput.init. destruct merged; capture_unfold; intros [= <- <-];
    eexists _, _, _; repeat split.
Qed.

Lemma capture_enter_run (i o e : value) (p1 : Process) :
  let me0 := CaptureOutput.mk i o e
               [PatchedAttribute.init "stdin" i; PatchedAttribute.init "stdout" o;
                PatchedAttribute.init "stderr" e] in
  exists me1 p2,
    capture_enter (me0, p1) = (Ok tt, (me1, p2))
    /\ List.map PatchedAttribute.attribute_to_patch (CaptureOutput.patched_attributes me1)
       = ["stdin"; "stdout"; "stderr"]
    /\ touched p1 p2 = ["stdin"; "stdout"; "stderr"].
Proof.
  intros me0. eexists _, _. split; [|split].
  - subst me0. capture_unfold. reflexivity.
  - reflexivity.
  - unfold touched. cbn. rewrite <- !app_assoc, drop_app_length. reflexivity.
Qed.

Lemma capture_exit_order (i o e : value) (c0 c1 c2 : PatchedAttribute.t)
    (p3 : Process) (s4 : CaptureOutput.t * Process) :
  capture_exit (CaptureOutput.mk i o e [c0; c1; c2], p3) = (Ok tt, s4) ->
  touched p3 (snd s4)
  = List.map PatchedAttribute.attribute_to_patch [c0; c1; c2].
Proof.
  destruct c0 as [n0 v0 x0], c1 as [n1 v1 x1], c2 as [n2 v2 x2].
  capture_unfold.
  repeat match goal with
         | |- context [is_NOTHING ?x] => destruct (is_NOTHING x); capture_unfold
         | |- context [match ?m !! ?k with _ => _ end] =>
             destruct (m !! k); capture_unfold
         end;
    try discriminate;
    intros [= <-]; unfold touched; cbn;
    rewrite <- ?app_assoc, drop_app_length; reflexivity.
Qed.

Lemma capture_exit_after_enter (i o e : value) (p1 : Process) :
  let me0 := CaptureOutput.mk i o e
               [PatchedAttribute.init "stdin" i; PatchedAttribute.init "stdout" o;
                PatchedAttribute.init "stderr" e] in
  exists s3, capture_exit (snd (capture_enter (me0, p1))) = (Ok tt, s3).
Proof.
  intros me0. subst me0. destruct p1 as [[inst ty] hp tr]. capture_unfold.
  unfold lookup_attr, pyobj_setattr, pyobj_delattr; capture_unfold.
  repeat (first [ rewrite lookup_insert_eq
                | rewrite lookup_insert_ne by discriminate
                | rewrite lookup_delete_ne by discriminate
                | match goal with
                  | |- context [is_NOTHING ?x] => destruct (is_NOTHING x)
                  end ];
          capture_unfold);
    eexists; reflexivity.
Qed.

(** C8 as stated fails: in the example process the three streams are
    patched in the order stdin, stdout, stderr and restored in that
    same order, which is not the reverse one. *)
Lemma capture_exit_order_counterexample :
  exists me0 p1 s2 s3,
    CaptureOutput.init false "" example_process = (Ok me0, p1)
    /\ capture_enter (me0, p1) = (Ok tt, s2)
    /\ capture_exit s2 = (Ok tt, s3)
    /\ touched p1 (snd s2) = ["stdin"; "stdout"; "stderr"]
    /\ touched (snd s2) (snd s3) = ["stdin"; "stdout"; "stderr"]
    /\ ~ deactivated_in_reverse (touched p1 (snd s2)) (touched (snd s2) (snd s3)).
Proof.
  eexists _, _, (_, _), (_, _).
  split; [vm_compute; reflexivity|]. split; [vm_compute; reflexivity|].
  split; [vm_compute; reflexivity|]. split; [vm_compute; reflexivity|].
  split; [vm_compute; reflexivity|].
  unfold deactivated_in_reverse. vm_compute. discriminate.
Qed.

(** C8, amended. [CaptureOutput.__enter__] patches [sys.stdin],
    [sys.stdout] and [sys.stderr], in this order, and all three before
    it returns; an exit right after succeeds; and every [__exit__] that
    succeeds, in whatever state the body left, restores the three
    attributes in the same order stdin, stdout, stderr. *)
Theorem capture_exit_in_same_order (merged : bool) (input : string)
    (p0 p1 : Process) (me0 : CaptureOutput.t) :
  CaptureOutput.init merged input p0 = (Ok me0, p1) ->
  exists me1 p2,
    capture_enter (me0, p1) = (Ok tt, (me1, p2))
    /\ touched p1 p2 = ["stdin"; "stdout"; "stderr"]
    /\ (exists s3, capture_exit (me1, p2) = (Ok tt, s3))
    /\ forall p3 s4, capture_exit (me1, p3) = (Ok tt, s4) ->
         touched p3 (snd s4) = ["stdin"; "stdout"; "stderr"].
Proof.
  intros Hinit. apply capture_init_run in Hinit as (i & o & e & -> & _ & _).
  destruct (capture_enter_run i o e p1) as (me1 & p2 & Henter & Hnames & Htouched).
  exists me1, p2. split; [exact Henter|]. split; [exact Htouched|]. split.
  - pose proof (capture_exit_after_enter i o e p1) as Hexit. cbv zeta in Hexit.
    now rewrite Henter in Hexit.
  - intros p3 s4 Hexit.
    destruct me1 as [i1 o1 e1 [|c0 [|c1 [|c2 [|c3 cs]]]]]; try discriminate.
    apply capture_exit_order in Hexit. now rewrite Hexit.
Qed.

Lemma capture_exit_in_same_order_witness :
  exists me0 p1 s2 s3,
    CaptureOutput.init true "yes" example_process = (Ok me0, p1)
    /\ capture_enter (me0, p1) = (Ok tt, s2)
    /\ capture_exit s2 = (Ok tt, s3)
    /\ touched (snd s2) (snd s3) = ["stdin"; "stdout"; "stderr"].
Proof.
  destruct (capture_exit_in_same_order true "yes" example_process
              (snd (CaptureOutput.init true "yes" example_process))
              (match fst (CaptureOutput.init true "yes" example_process) with
               | Ok me => me
               | Raise _ => CaptureOutput.mk VNone VNone VNone []
               end))
    as (me1 & p2 & Henter & _ & (s3 & Hexit) & Horder).
  - vm_compute; reflexivity.
  - eexists _, _, (me1, p2), s3.
    split; [vm_compute; reflexivity|]. split; [exact Henter|].
    split; [exact Hexit|]. exact (Horder p2 s3 Hexit).
Defined.

(** ** retry (C5, C6) *)

Lemma Qgt_bool_true (a b : Q) : Qgt_bool a b = true <-> (b < a)%Q.
Proof.
  unfold Qgt_bool. rewrite negb_true_iff, <- not_true_iff_false, Qle_bool_iff.
  split; [apply Qnot_le_lt | apply Qlt_not_le].
Qed.

Lemma Qgt_bool_false (a b : Q) : Qgt_bool a b = false <-> (a <= b)%Q.
Proof. unfold Qgt_bool. now rewrite negb_false_iff, Qle_bool_iff. Qed.

Lemma next_pause_ge (pause : Q) : (0 <= pause)%Q -> (pause <= next_pause pause)%Q.
Proof.
  intros Hpos. unfold next_pause, Qlt_bool.
  destruct (Qle_bool 1 pause); cbn [negb]; lra.
Qed.

Lemma is_not_False_true (v : value) : v <> VBool false -> is_not_False v = true.
Proof. destruct v as [ |[|]| | | | | ]; cbn; congruence. Qed.

Lemma is_not_False_false (v : value) : is_not_False v = false -> v = VBool false.
Proof. destruct v as [ |[|]| | | | | ]; cbn; congruence. Qed.

(** *** Rounding to a float loses less than half of a number from 1 on *)

Lemma round_half_even_ge (x : Q) : (x - (1 # 2) <= inject_Z (round_half_even x))%Q.
Proof.
  unfold round_half_even.
  pose proof (Qfloor_le x) as Hf. pose proof (Qlt_floor x) as Hlt.
  rewrite inject_Z_plus in Hlt. change (inject_Z 1) with 1%Q in Hlt.
  destruct (Qcompare_spec (x - inject_Z (Qfloor x)) (1 # 2)) as [Heq|Hl|Hg];
    [destruct (Z.even (Qfloor x))| |];
    rewrite ?inject_Z_plus; change (inject_Z 1) with 1%Q;
    set (f := inject_Z (Qfloor x)) in *; clearbody f; lra.
Qed.

Lemma pow2_pos (k : Z) : (0 < pow2 k)%Q.
Proof. unfold pow2. apply Qpower_0_lt. reflexivity. Qed.

Lemma pow2_binade_le (a : Q) :
  (1 <= a)%Q -> (pow2 (Z.max (binade a - 52) (-1074)) <= a)%Q.
Proof.
  intros Ha. unfold binade. apply Qle_bool_iff in Ha as Hb. rewrite Hb.
  assert (Hfl : (1 <= Qfloor a)%Z).
  { change 1%Z with (Qfloor 1). now apply Qfloor_resp_le. }
  pose proof (Z.log2_spec (Qfloor a) ltac:(lia)) as [Hlo _].
  pose proof (Z.log2_nonneg (Qfloor a)) as Hnn.
  apply Qle_trans with (pow2 (Z.log2 (Qfloor a))).
  - unfold pow2. apply Qpower_le_compat_l; [lia|discriminate].
  - apply Qle_trans with (inject_Z (Qfloor a)); [|apply Qfloor_le].
    unfold pow2. change 2%Q with (inject_Z 2).
    rewrite <- Zpower_Qpower by exact Hnn. now rewrite <- Zle_Qle.
Qed.

Lemma float_ge_half (q : Q) : (1 <= q)%Q -> (q <= 2 * float q)%Q.
Proof.
  intros Hq. unfold float.
  destruct (Qeq_bool q 0) eqn:H0; [apply Qeq_bool_iff in H0; lra|].
  assert (Hpos : Qle_bool 0 q = true) by (apply Qle_bool_iff; lra).
  rewrite Hpos, Qred_correct.
  assert (Ha : (Qabs q == q)%Q) by (apply Qabs_pos; lra).
  assert (Ha1 : (1 <= Qabs q)%Q) by lra.
  pose proof (pow2_binade_le (Qabs q) Ha1) as Hle.
  set (p := pow2 (Z.max (binade (Qabs q) - 52) (-1074))) in *.
  assert (Hp : (0 < p)%Q) by apply pow2_pos.
  pose proof (round_half_even_ge (Qabs q / p)) as Hm.
  set (m := inject_Z (round_half_even (Qabs q / p))) in *.
  assert (Hx : (Qabs q / p * p == Qabs q)%Q) by (field; lra).
  assert (Hmp : ((Qabs q / p - (1 # 2)) * p <= m * p)%Q).
  { apply Qmult_le_compat_r; [exact Hm|lra]. }
  set (y := (Qabs q / p)%Q) in *. set (A := Qabs q) in *. clearbody m y A p.
  assert (Hexp : ((y - (1 # 2)) * p == y * p - (1 # 2) * p)%Q) by ring.
  rewrite Hexp, Hx in Hmp. clear Hexp Hx Hm.
  set (mp := (m * p)%Q) in *. clearbody mp. lra.
Qed.

Section retry_facts.
Context {W : Type}.
Variable clock : Lens W Clock.
Variable func : M W value.
Variable exc_type : exc_class.

Lemma attempt_run (timeout : Q) (s : W) :
  attempt clock func exc_type timeout s
  = match func s with
    | (Ok v, s') =>
        if is_not_False v then (Ok (Some v), s')
        else if Qgt_bool (float (now (view clock s'))) timeout then (Raise timed_out, s')
             else (Ok None, s')
    | (Raise e, s') =>
        if caught_by exc_type e
        then if Qgt_bool (float (now (view clock s'))) timeout then (Raise e, s')
             else (Ok None, s')
        else (Raise e, s')
    end.
Proof.
  unfold attempt, try_except_else, bind, ret, raise, time_time.
  destruct (func s) as [[v|e] s']; cbn.
  - destruct (is_not_False v); cbn; [reflexivity|].
    destruct (Qgt_bool _ _); reflexivity.
  - destruct (caught_by exc_type e); [|reflexivity].
    destruct (Qgt_bool _ _); reflexivity.
Qed.

Lemma retry_loop_step (fuel : nat) (timeout pause : Q) (s : W) :
  retry_loop clock func exc_type (S fuel) timeout pause s
  = match attempt clock func exc_type timeout s with
    | (Ok (Some v), s') => (Ok (Some v), s')
    | (Ok None, s') =>
        retry_loop clock func exc_type fuel timeout (next_pause pause)
          (snd (time_sleep clock pause s'))
    | (Raise e, s') => (Raise e, s')
    end.
Proof.
  cbn [retry_loop]. unfold bind at 1.
  destruct (attempt clock func exc_type timeout s) as [[[v|]|e] s']; reflexivity.
Qed.

Lemma retry_run (fuel : nat) (timeout : Q) (s : W) :
  retry clock func exc_type fuel timeout s
  = retry_loop clock func exc_type fuel
      (float (float timeout + float (now (view clock s)))) (1 # 10) s.
Proof. reflexivity. Qed.

(** What one pass does, case by case *)
Lemma retry_loop_returns (fuel : nat) (deadline pause : Q) (s s' : W) (v : value) :
  func s = (Ok v, s') -> v <> VBool false ->
  retry_loop clock func exc_type (S fuel) deadline pause s = (Ok (Some v), s').
Proof.
  intros Hf Hv. rewrite retry_loop_step, attempt_run, Hf. now rewrite is_not_False_true.
Qed.

Lemma retry_loop_gives_up (fuel : nat) (deadline pause : Q) (s s' : W) (r : result value) :
  func s = (r, s') ->
  r = Ok (VBool false) \/ (exists e, r = Raise e /\ caught_by exc_type e = true) ->
  (deadline < float (now (view clock s')))%Q ->
  retry_loop clock func exc_type (S fuel) deadline pause s
  = (match r with Ok _ => Raise timed_out | Raise e => Raise e end, s').
Proof.
  intros Hf Hr Hlate. rewrite retry_loop_step, attempt_run, Hf.
  apply Qgt_bool_true in Hlate.
  destruct Hr as [-> | (e & -> & He)]; cbn [is_not_False]; now rewrite ?He, Hlate.
Qed.

Lemma retry_loop_goes_on (fuel : nat) (deadline pause : Q) (s s' : W) (r : result value) :
  func s = (r, s') ->
  r = Ok (VBool false) \/ (exists e, r = Raise e /\ caught_by exc_type e = true) ->
  (float (now (view clock s')) <= deadline)%Q ->
  retry_loop clock func exc_type (S fuel) deadline pause s
  = retry_loop clock func exc_type fuel deadline (next_pause pause)
      (snd (time_sleep clock pause s')).
Proof.
  intros Hf Hr Hearly. rewrite retry_loop_step, attempt_run, Hf.
  apply Qgt_bool_false in Hearly.
  destruct Hr as [-> | (e & -> & He)]; cbn [is_not_False]; now rewrite ?He, Hearly.
Qed.

Lemma retry_loop_propagates (fuel : nat) (deadline pause : Q) (s s' : W) (e : exn) :
  func s = (Raise e, s') -> caught_by exc_type e = false ->
  retry_loop clock func exc_type (S fuel) deadline pause s = (Raise e, s').
Proof.
  intros Hf He. now rewrite retry_loop_step, attempt_run, Hf, He.
Qed.

(** An operation that never raises makes [retry] raise nothing but
    [CallableTimedOut]. *)
Lemma retry_loop_never_raising (fuel : nat) :
  (forall s, exists v s', func s = (Ok v, s')) ->
  forall timeout pause s e s',
    retry_loop clock func exc_type fuel timeout pause s = (Raise e, s') ->
    e = timed_out.
Proof.
  intros Hok. induction fuel as [|n IH]; intros timeout pause s e s'.
  - cbn. discriminate.
  - rewrite retry_loop_step, attempt_run.
    destruct (Hok s) as (v & s1 & ->).
    destruct (is_not_False v); [discriminate|].
    destruct (Qgt_bool _ _); [now intros [= <- _]|].
    apply IH.
Qed.

Hypothesis clock_lens : forall c s, view clock (update clock c s) = c.

(** An operation that keeps returning [False], and during which time
    does not run backwards, makes the loop end with [CallableTimedOut]
    once enough pauses have gone by: a clock at more than twice the
    deadline is read as later than the deadline. *)
Lemma retry_loop_times_out (n : nat) :
  (forall s, exists s', func s = (Ok (VBool false), s')
                        /\ (now (view clock s) <= now (view clock s'))%Q) ->
  forall timeout pause s,
    ((1 # 10) <= pause)%Q ->
    (1 - now (view clock s) < inject_Z (Z.of_nat n) * (1 # 10))%Q ->
    (2 * timeout - now (view clock s) < inject_Z (Z.of_nat n) * (1 # 10))%Q ->
    exists s', retry_loop clock func exc_type (S n) timeout pause s
               = (Raise timed_out, s').
Proof.
  intros Hfalse. induction n as [|m IH]; intros timeout pause s Hpause Hone Hleft;
    rewrite retry_loop_step, attempt_run;
    destruct (Hfalse s) as (s1 & -> & Hmono); cbn [is_not_False];
    destruct (Qgt_bool (float (now (view clock s1))) timeout) eqn:Hlate; eauto.
  - apply Qgt_bool_false in Hlate.
    change (inject_Z (Z.of_nat 0)) with 0%Q in Hone, Hleft.
    pose proof (float_ge_half (now (view clock s1)) ltac:(lra)). lra.
  - apply IH.
    + pose proof (next_pause_ge pause). lra.
    + unfold time_sleep; cbn. rewrite clock_lens; cbn.
      rewrite Nat2Z.inj_succ, <- Z.add_1_r, inject_Z_plus in Hone.
      change (inject_Z 1) with 1%Q in Hone. lra.
    + unfold time_sleep; cbn. rewrite clock_lens; cbn.
      rewrite Nat2Z.inj_succ, <- Z.add_1_r, inject_Z_plus in Hleft.
      change (inject_Z 1) with 1%Q in Hleft. lra.
Qed.

Lemma retry_times_out (timeout : Q) (s : W) :
  (forall s, exists s', func s = (Ok (VBool false), s')
                        /\ (now (view clock s) <= now (view clock s'))%Q) ->
  exists fuel s', retry clock func exc_type fuel timeout s = (Raise timed_out, s').
Proof.
  intros Hfalse.
  set (deadline := float (float timeout + float (now (view clock s)))).
  set (far := (Qabs (1 - now (view clock s))
               + Qabs (2 * deadline - now (view clock s)))%Q).
  set (n := Z.to_nat (Qfloor (far * 10) + 1)).
  exists (S n).
  destruct (retry_loop_times_out n Hfalse deadline (1 # 10) s) as [s' Hrun].
  - lra.
  - pose proof (Qabs_nonneg (2 * deadline - now (view clock s))) as H2.
    pose proof (Qle_Qabs (1 - now (view clock s))) as H3.
    pose proof (Qlt_floor (far * 10)) as Hfl.
    assert (Hle : (inject_Z (Qfloor (far * 10) + 1) <= inject_Z (Z.of_nat n))%Q).
    { rewrite <- Zle_Qle. lia. }
    assert (Hfar : (far == Qabs (1 - now (view clock s))
                          + Qabs (2 * deadline - now (view clock s)))%Q) by reflexivity.
    set (a := Qabs (1 - now (view clock s))) in *.
    set (b := Qabs (2 * deadline - now (view clock s))) in *.
    set (k := inject_Z (Z.of_nat n)) in *.
    set (fl := inject_Z (Qfloor (far * 10) + 1)) in *.
    clearbody a b k fl far. lra.
  - pose proof (Qabs_nonneg (1 - now (view clock s))) as H1.
    pose proof (Qle_Qabs (2 * deadline - now (view clock s))) as H4.
    pose proof (Qlt_floor (far * 10)) as Hfl.
    assert (Hle : (inject_Z (Qfloor (far * 10) + 1) <= inject_Z (Z.of_nat n))%Q).
    { rewrite <- Zle_Qle. lia. }
    assert (Hfar : (far == Qabs (1 - now (view clock s))
                          + Qabs (2 * deadline - now (view clock s)))%Q) by reflexivity.
    set (a := Qabs (1 - now (view clock s))) in *.
    set (b := Qabs (2 * deadline - now (view clock s))) in *.
    set (k := inject_Z (Z.of_nat n)) in *.
    set (fl := inject_Z (Qfloor (far * 10) + 1)) in *.
    clearbody a b k fl far. lra.
  - exists s'. rewrite retry_run. exact Hrun.
Qed.
End retry_facts.

(** C5, amended.  [retry] runs the loop with the pause [0.1] and the
    deadline [timeout + time.time()], a sum of floats.  In every pass
    of the loop: a call that returns a value other than [False] makes
    [retry] return that value at once; a call that raises an exception
    of the retried kind makes [retry] re-raise that very exception when
    the clock is read as later than the deadline, and otherwise sleep
    for the pause and go on with the next pass; a call that returns
    [False] makes [retry] raise [CallableTimedOut] when the clock is
    read as later than the deadline, and otherwise sleep and go on; an
    exception of another kind is passed on.  An operation that never
    raises can make [retry] raise nothing but [CallableTimedOut], and
    that exception is of the retried kind exactly when the retried kind
    is [CallableTimedOut], [Exception] or [BaseException]: with any
    other kind, the default [AssertionError] among them, the two
    failures cannot be taken for each other.  When the operation keeps
    returning [False] while time does not run backwards, [retry] does
    end, raising [CallableTimedOut]. *)
Theorem retry_outcomes {W : Type} (clock : Lens W Clock) (func : M W value)
    (exc_type : exc_class) (fuel : nat) (timeout deadline pause : Q) (s s' : W) :
  retry clock func exc_type fuel timeout s
    = retry_loop clock func exc_type fuel
        (float (float timeout + float (now (view clock s)))) (1 # 10) s
  /\ (forall v, func s = (Ok v, s') -> v <> VBool false ->
        retry_loop clock func exc_type (S fuel) deadline pause s = (Ok (Some v), s'))
  /\ (forall e, func s = (Raise e, s') -> caught_by exc_type e = true ->
        (deadline < float (now (view clock s')))%Q ->
        retry_loop clock func exc_type (S fuel) deadline pause s = (Raise e, s'))
  /\ (forall e, func s = (Raise e, s') -> caught_by exc_type e = true ->
        (float (now (view clock s')) <= deadline)%Q ->
        retry_loop clock func exc_type (S fuel) deadline pause s
        = retry_loop clock func exc_type fuel deadline (next_pause pause)
            (snd (time_sleep clock pause s')))
  /\ (func s = (Ok (VBool false), s') ->
        (deadline < float (now (view clock s')))%Q ->
        retry_loop clock func exc_type (S fuel) deadline pause s = (Raise timed_out, s'))
  /\ (func s = (Ok (VBool false), s') ->
        (float (now (view clock s')) <= deadline)%Q ->
        retry_loop clock func exc_type (S fuel) deadline pause s
        = retry_loop clock func exc_type fuel deadline (next_pause pause)
            (snd (time_sleep clock pause s')))
  /\ (forall e, func s = (Raise e, s') -> caught_by exc_type e = false ->
        retry_loop clock func exc_type (S fuel) deadline pause s = (Raise e, s'))
  /\ ((forall s0, exists v s1, func s0 = (Ok v, s1)) ->
        forall e s2, retry clock func exc_type fuel timeout s = (Raise e, s2) ->
                     e = timed_out)
  /\ (caught_by exc_type timed_out = true
      <-> exc_type = CallableTimedOut \/ exc_type = Exception \/ exc_type = BaseException)
  /\ ((forall c s0, view clock (update clock c s0) = c) ->
      (forall s0, exists s1, func s0 = (Ok (VBool false), s1)
                             /\ (now (view clock s0) <= now (view clock s1))%Q) ->
      exists fuel' s2,
        retry clock func exc_type fuel' timeout s = (Raise timed_out, s2)).
Proof.
  split; [apply retry_run|].
  split; [intros v Hf Hv; now apply retry_loop_returns|].
  split; [intros e Hf He Hlate;
          apply (retry_loop_gives_up clock func exc_type fuel deadline pause s s'
                   (Raise e) Hf); [right; now exists e|exact Hlate]|].
  split; [intros e Hf He Hearly;
          apply (retry_loop_goes_on clock func exc_type fuel deadline pause s s'
                   (Raise e) Hf); [right; now exists e|exact Hearly]|].
  split; [intros Hf Hlate;
          apply (retry_loop_gives_up clock func exc_type fuel deadline pause s s'
                   (Ok (VBool false)) Hf); [now left|exact Hlate]|].
  split; [intros Hf Hearly;
          apply (retry_loop_goes_on clock func exc_type fuel deadline pause s s'
                   (Ok (VBool false)) Hf); [now left|exact Hearly]|].
  split; [intros e Hf He; now apply retry_loop_propagates|].
  split; [intros Hok e s2; rewrite retry_run; now apply retry_loop_never_raising|].
  split.
  - split.
    + destruct exc_type; cbn; intros Hc; try discriminate; auto.
    + intros [-> | [-> | ->]]; reflexivity.
  - intros Hlens Hfalse. now apply retry_times_out.
Qed.

Lemma retry_outcomes_witness :
  retry id_lens returns_zero AssertionError 1 60 (mk_Clock 0 [])
    = (Ok (Some (VInt 0)), mk_Clock 0 [])
  /\ retry_loop id_lens always_False AssertionError 1 3 (1 # 10) (mk_Clock 0 [])
     = retry_loop id_lens always_False AssertionError 0 3 (next_pause (1 # 10))
         (snd (time_sleep id_lens (1 # 10) (mk_Clock 0 [])))
  /\ exists fuel s2,
       retry id_lens always_False AssertionError fuel 3 (mk_Clock 0 [])
       = (Raise timed_out, s2).
Proof.
  destruct (retry_outcomes id_lens returns_zero AssertionError 0 60
              (float (float 60 + float 0)) (1 # 10)
              (mk_Clock 0 []) (mk_Clock 0 [])) as (_ & Hvalue & _).
  destruct (retry_outcomes id_lens always_False AssertionError 0 3 3 (1 # 10)
              (mk_Clock 0 []) (mk_Clock 0 []))
    as (_ & _ & _ & _ & _ & Hgo & _ & _ & _ & Hend).
  split; [|split].
  - rewrite retry_run. apply (Hvalue (VInt 0)); [reflexivity | discriminate].
  - apply Hgo; [reflexivity | discriminate].
  - apply Hend.
    + reflexivity.
    + intros s0. exists s0. split; [reflexivity | apply Qle_refl].
Defined.

(** C5 as the specification words it does not hold: with [Exception]
    as the retried kind, an operation that only ever returns [False]
    makes [retry] raise an exception of the retried kind. *)
Lemma retry_kinds_counterexample :
  (forall c, always_False c = (Ok (VBool false), c))
  /\ exists e c',
       retry id_lens always_False Exception 100 3 (mk_Clock 0 []) = (Raise e, c')
       /\ caught_by Exception e = true.
Proof.
  split; [reflexivity|].
  exists timed_out. eexists. split; [vm_compute; reflexivity|reflexivity].
Qed.

(** The deadline is a float: [0.1 + 0.7] is [0.7999999999999999], so a
    clock at [0.8] is past it, although [8 / 10] is the sum of [1 / 10]
    and [7 / 10]. *)
Example retry_deadline_is_a_float :
  retry id_lens (returns_False_at (8 # 10)) AssertionError 5 (1 # 10) (mk_Clock (7 # 10) [])
  = (Raise timed_out, mk_Clock (8 # 10) [])
  /\ (float (float (1 # 10) + float (7 # 10)) < float (8 # 10))%Q
  /\ ((1 # 10) + (7 # 10) == 8 # 10)%Q.
Proof. split; [vm_compute; reflexivity|]. split; reflexivity. Qed.

(** [CallableTimedOut] derives from [Exception]: a caller that retries
    [Exception] gets, on a timeout, an exception that [except Exception]
    catches as well, although it is still told apart by its class. *)
Remark timed_out_is_an_Exception :
  caught_by Exception timed_out = true /\ exn_class timed_out = CallableTimedOut.
Proof. split; reflexivity. Qed.

(** ** The pause between two attempts (C6) *)

Lemma pause_at_values :
  List.map pause_at [0; 1; 2; 3; 4; 5; 6]%nat
  = [1 # 10; 2 # 10; 4 # 10; 8 # 10; 16 # 10; 16 # 10; 16 # 10]%Q.
Proof. reflexivity. Qed.

Lemma pause_at_stays (n : nat) : (4 <= n)%nat -> pause_at n = (16 # 10)%Q.
Proof.
  induction 1 as [|m _ IH]; [reflexivity|].
  change (pause_at (S m)) with (next_pause (pause_at m)). now rewrite IH.
Qed.

(** The pauses of a run of the loop are [pause_at 0], [pause_at 1], ... *)
Lemma retry_loop_sleeps {W : Type} (clock : Lens W Clock) (func : M W value)
    (exc_type : exc_class) :
  (forall c s0, view clock (update clock c s0) = c) ->
  (forall s0, sleeps (view clock (snd (func s0))) = sleeps (view clock s0)) ->
  forall fuel timeout k s r s',
    retry_loop clock func exc_type fuel timeout (pause_at k) s = (r, s') ->
    exists n, (n <= fuel)%nat
              /\ sleeps (view clock s')
                 = sleeps (view clock s) ++ List.map pause_at (seq k n).
Proof.
  intros Hlens Hquiet. induction fuel as [|m IH]; intros timeout k s r s'.
  - cbn. intros [= _ <-]. exists 0%nat. split; [lia|]. cbn. now rewrite app_nil_r.
  - rewrite retry_loop_step, attempt_run.
    pose proof (Hquiet s) as Hq. destruct (func s) as [[v|e] s1]; cbn in Hq.
    + destruct (is_not_False v);
        [intros [= _ <-]; exists 0%nat; split; [lia|]; cbn; now rewrite app_nil_r, Hq|].
      destruct (Qgt_bool _ _);
        [intros [= _ <-]; exists 0%nat; split; [lia|]; cbn; now rewrite app_nil_r, Hq|].
      change (next_pause (pause_at k)) with (pause_at (S k)).
      intros Hrest. apply IH in Hrest as (n & Hn & Hs).
      exists (S n). split; [lia|]. rewrite Hs. unfold time_sleep; cbn.
      rewrite Hlens; cbn. now rewrite Hq, <- app_assoc.
    + destruct (caught_by exc_type e);
        [|intros [= _ <-]; exists 0%nat; split; [lia|]; cbn; now rewrite app_nil_r, Hq].
      destruct (Qgt_bool _ _);
        [intros [= _ <-]; exists 0%nat; split; [lia|]; cbn; now rewrite app_nil_r, Hq|].
      change (next_pause (pause_at k)) with (pause_at (S k)).
      intros Hrest. apply IH in Hrest as (n & Hn & Hs).
      exists (S n). split; [lia|]. rewrite Hs. unfold time_sleep; cbn.
      rewrite Hlens; cbn. now rewrite Hq, <- app_assoc.
Qed.

(** C6, what the code does. With an operation that keeps returning
    [False] and a timeout of three seconds, [retry] sleeps 0.1, 0.2,
    0.4, 0.8 and then 1.6 seconds: the pause is doubled as long as it
    is below 1, so it goes from 0.8 to 1.6 and stays there, above the
    one second the docstring announces. *)
Theorem retry_pause_exceeds_one_second :
  let run := retry id_lens always_False AssertionError 100 3 (mk_Clock 0 []) in
  fst run = Raise timed_out
  /\ sleeps (snd run) = [1 # 10; 2 # 10; 4 # 10; 8 # 10; 16 # 10]%Q
  /\ (1 < 16 # 10)%Q
  /\ List.map pause_at [0; 1; 2; 3; 4; 5; 6]%nat
     = [1 # 10; 2 # 10; 4 # 10; 8 # 10; 16 # 10; 16 # 10; 16 # 10]%Q.
Proof.
  split; [vm_compute; reflexivity|]. split; [vm_compute; reflexivity|].
  split; [reflexivity|]. exact pause_at_values.
Qed.

(** ** run_cli (C4) *)

Ltac sys_lookup :=
  repeat (first [ rewrite lookup_insert_eq
                | rewrite lookup_insert_ne by discriminate ]).

Lemma stream_stdin (i o e : value) : CaptureOutput.stream i o e "stdin" = i.
Proof. reflexivity. Qed.
Lemma stream_stdout (i o e : value) : CaptureOutput.stream i o e "stdout" = o.
Proof. reflexivity. Qed.
Lemma stream_stderr (i o e : value) : CaptureOutput.stream i o e "stderr" = e.
Proof. reflexivity. Qed.

Ltac restore_all :=
  repeat (progress (rewrite ?is_NOTHING_false by assumption; capture_unfold)).

(** The whole of [run_cli], given what the entry point does in the state
    in which it is called. *)
Lemma run_cli_run (entry_point : M Process unit) (arguments : list value)
    (options : run_cli_options) (p : Process) (exe vin vout verr vargv : value)
    (r6 : result unit) (p6 : Process) :
  lookup_attr (sys p) "executable" = Some exe ->
  lookup_attr (sys p) "stdin" = Some vin -> vin <> NOTHING ->
  lookup_attr (sys p) "stdout" = Some vout -> vout <> NOTHING ->
  lookup_attr (sys p) "stderr" = Some verr -> verr <> NOTHING ->
  lookup_attr (sys p) "argv" = Some vargv -> vargv <> NOTHING ->
  entry_point (entry_state arguments options exe p) = (r6, p6) ->
  exists p7,
    run_cli entry_point arguments options p
    = (match r6 with
       | Ok _ =>
           match heap p6 !! capture_buffer options p with
           | Some text => Ok (VInt 0, VStr text)
           | None => Raise (mk_exn AttributeError (VStr "getvalue"))
           end
       | Raise e =>
           if caught_by SystemExit e
           then match heap p6 !! capture_buffer options p with
                | Some text => Ok (code e, VStr text)
                | None => Raise (mk_exn AttributeError (VStr "getvalue"))
                end
           else Raise e
       end, p7).
Proof.
  intros Hexe Hin Hin' Hout Hout' Herr Herr' Hargv Hargv' Hrun.
  destruct options as [input merged name]. destruct p as [[inst ty] hp tr].
  unfold entry_state, capture_buffer, lookup_attr in *. cbn in *.
  unfold run_cli. capture_unfold. unfold lookup_attr. cbn. rewrite Hexe.
  destruct (default false merged); unfold pyobj_setattr in *; cbn in *;
    capture_unfold; rewrite ?stream_stdin, ?stream_stdout, ?stream_stderr;
    unfold lookup_attr, pyobj_setattr; cbn;
    repeat (progress (sys_lookup; rewrite ?Hin, ?Hout, ?Herr, ?Hargv; capture_unfold;
                      rewrite ?is_NOTHING_false by assumption; capture_unfold));
    unfold log_attr; cbn -[fresh]; rewrite <- ?app_assoc; cbn [app];
    rewrite Hrun; capture_unfold;
    (destruct r6 as [[]|e]; capture_unfold;
     [|destruct (caught_by SystemExit e); capture_unfold]);
    try (destruct (heap p6 !! _); capture_unfold);
    restore_all; eexists; reflexivity.
Qed.

(** The parts of C4 that hold.  When [sys] has an [executable], and has
    [stdin], [stdout], [stderr] and [argv] attributes to put back:
    [run_cli] calls the entry point with the streams and [sys.argv]
    patched; an entry point that returns normally gives the return code
    [0]; one that raises [SystemExit] gives the return code [e.code],
    whatever that is; any other exception propagates.  The second
    component is the text of the StringIO that captures the standard
    output. *)
Lemma run_cli_outcome (entry_point : M Process unit) (arguments : list value)
    (options : run_cli_options) (p : Process) (exe vin vout verr vargv : value) :
  lookup_attr (sys p) "executable" = Some exe ->
  lookup_attr (sys p) "stdin" = Some vin -> vin <> NOTHING ->
  lookup_attr (sys p) "stdout" = Some vout -> vout <> NOTHING ->
  lookup_attr (sys p) "stderr" = Some verr -> verr <> NOTHING ->
  lookup_attr (sys p) "argv" = Some vargv -> vargv <> NOTHING ->
  let p5 := entry_state arguments options exe p in
  let out := capture_buffer options p in
  (forall p6 text,
     entry_point p5 = (Ok tt, p6) -> heap p6 !! out = Some text ->
     exists p7, run_cli entry_point arguments options p = (Ok (VInt 0, VStr text), p7))
  /\ (forall e p6 text,
       entry_point p5 = (Raise e, p6) -> caught_by SystemExit e = true ->
       heap p6 !! out = Some text ->
       exists p7, run_cli entry_point arguments options p = (Ok (code e, VStr text), p7))
  /\ (forall e p6,
       entry_point p5 = (Raise e, p6) -> caught_by SystemExit e = false ->
       exists p7, run_cli entry_point arguments options p = (Raise e, p7)).
Proof.
  intros Hexe Hin Hin' Hout Hout' Herr Herr' Hargv Hargv' p5 out.
  pose proof (fun r6 p6 =>
    run_cli_run entry_point arguments options p exe vin vout verr vargv r6 p6
      Hexe Hin Hin' Hout Hout' Herr Herr' Hargv Hargv') as Hstart.
  split; [|split].
  - intros p6 text Hrun Hbuf. destruct (Hstart _ _ Hrun) as [p7 H7].
    exists p7. fold out in H7. now rewrite H7, Hbuf.
  - intros e p6 text Hrun He Hbuf. destruct (Hstart _ _ Hrun) as [p7 H7].
    exists p7. fold out in H7. now rewrite H7, He, Hbuf.
  - intros e p6 Hrun He. destruct (Hstart _ _ Hrun) as [p7 H7].
    exists p7. now rewrite H7, He.
Qed.

(** C4, where the code departs from it.  An entry point that calls
    [sys.exit()] without an argument raises a [SystemExit] whose [code]
    is [None], and [run_cli] hands that [None] on as the return code:
    the pair returned is [(None, '')], not [(0, '')]. *)
Theorem run_cli_exit_without_code :
  fst (run_cli exits_without_code [VStr "--help"]
         (mk_run_cli_options None None None) example_process)
  = Ok (VNone, VStr "")
  /\ VNone <> VInt 0.
Proof. split; [vm_compute; reflexivity | discriminate]. Qed.

(** With an explicit code, and without a call of [sys.exit], the return
    code is as C4 says. *)
Example run_cli_exit_with_code :
  fst (run_cli (raise (mk_exn SystemExit (VInt 3))) [] (mk_run_cli_options None None None)
         example_process)
  = Ok (VInt 3, VStr "").
Proof. vm_compute; reflexivity. Qed.

Example run_cli_hello :
  fst (run_cli says_hello_and_exits_3 [] (mk_run_cli_options None None None)
         example_process)
  = Ok (VInt 3, VStr "hello").
Proof. vm_compute; reflexivity. Qed.

Example run_cli_normal_return :
  fst (run_cli (ret tt) [] (mk_run_cli_options None None None) example_process)
  = Ok (VInt 0, VStr "").
Proof. vm_compute; reflexivity. Qed.

(** * Further properties *)

(** ** Patches and what the body does in between *)

(** X1. Whatever the body did to the mapping while a [PatchedItem] was
    active, the exit succeeds as long as a key that was absent on entry
    is still there to delete; it gives the key its original state back
    (the original value, or absence), and leaves every other key as the
    body left it. *)
Theorem PatchedItem_exit_after_body {K : Type} `{Countable K}
    (ref : value) (key_repr : K -> value) (m body : gmap K value) (k : K) (v : value) :
  m !! k <> Some NOTHING ->
  (m !! k = None -> is_Some (body !! k)) ->
  let me1 := PatchedItem.mk k v (default NOTHING (m !! k)) in
  item_enter ref key_repr (PatchedItem.init k v, m) = (Ok ref, (me1, <[k := v]> m))
  /\ exists m',
       item_exit ref key_repr (me1, body) = (Ok tt, (me1, m'))
       /\ m' !! k = m !! k
       /\ forall k', k' <> k -> m' !! k' = body !! k'.
Proof.
  intros Hlegit Hthere me1. split; [apply PatchedItem_enter_run|].
  rewrite PatchedItem_exit_run. subst me1; cbn.
  destruct (m !! k) as [x|] eqn:Hk; cbn.
  - rewrite is_NOTHING_false by congruence. eexists. split; [reflexivity|].
    split; [apply lookup_insert_eq|]. intros k' Hne. now apply lookup_insert_ne.
  - destruct (Hthere eq_refl) as [y Hy]. rewrite Hy. eexists. split; [reflexivity|].
    split; [apply lookup_delete_eq|]. intros k' Hne. now apply lookup_delete_ne.
Qed.

Lemma PatchedItem_exit_after_body_witness :
  exists m' : gmap string value,
    item_exit VNone VStr
      (PatchedItem.mk "HOME" (VStr "/tmp") (VStr "/root"),
       {["HOME" := VStr "/elsewhere"; "LANG" := VStr "C"]})
    = (Ok tt, (PatchedItem.mk "HOME" (VStr "/tmp") (VStr "/root"), m'))
    /\ m' !! "HOME" = Some (VStr "/root")
    /\ m' !! "LANG" = Some (VStr "C").
Proof.
  destruct (PatchedItem_exit_after_body (K := string) VNone VStr example_dict
              {["HOME" := VStr "/elsewhere"; "LANG" := VStr "C"]} "HOME" (VStr "/tmp"))
    as (_ & m' & Hexit & Hk & Hother).
  - vm_compute. discriminate.
  - vm_compute. discriminate.
  - exists m'. split; [exact Hexit|]. split; [exact Hk|].
    rewrite Hother by discriminate. reflexivity.
Defined.

(** X2. The same for a [PatchedAttribute] on an attribute the object
    holds itself: whatever the body did to the object, the exit succeeds,
    the attribute has its original value again, and every other
    attribute, of the instance and of its type, is as the body left
    it. *)
Theorem PatchedAttribute_exit_after_body (ref : value) (o body : pyobj)
    (name : string) (v x : value) :
  inst_attrs o !! name = Some x ->
  x <> NOTHING ->
  let me1 := PatchedAttribute.mk name v x in
  attr_enter ref (PatchedAttribute.init name v, o) = (Ok ref, (me1, pyobj_setattr name v o))
  /\ attr_exit ref (me1, body) = (Ok tt, (me1, pyobj_setattr name x body))
  /\ lookup_attr (pyobj_setattr name x body) name = Some x
  /\ forall n, n <> name ->
       lookup_attr (pyobj_setattr name x body) n = lookup_attr body n.
Proof.
  intros Hx Hlegit me1. split; [|split; [|split]].
  - rewrite PatchedAttribute_enter_run. unfold lookup_attr. now rewrite Hx.
  - rewrite PatchedAttribute_exit_run. subst me1; cbn.
    now rewrite is_NOTHING_false.
  - rewrite lookup_attr_setattr. now destruct (decide (name = name)).
  - intros n Hn. rewrite lookup_attr_setattr.
    destruct (decide (name = n)); [congruence|reflexivity].
Qed.

Lemma PatchedAttribute_exit_after_body_witness :
  attr_exit VNone
    (PatchedAttribute.mk "verbose" (VBool true) VNone,
     mk_pyobj {["verbose" := VInt 7; "quiet" := VBool false]} ∅)
  = (Ok tt,
     (PatchedAttribute.mk "verbose" (VBool true) VNone,
      pyobj_setattr "verbose" VNone
        (mk_pyobj {["verbose" := VInt 7; "quiet" := VBool false]} ∅))).
Proof.
  refine (proj1 (proj2 (PatchedAttribute_exit_after_body VNone example_object
                          (mk_pyobj {["verbose" := VInt 7; "quiet" := VBool false]} ∅)
                          "verbose" (VBool true) VNone _ _))).
  - reflexivity.
  - discriminate.
Defined.

(** X3. A patch that found no key has nothing to restore and deletes
    instead, and the deletion can fail.  Entering on an absent key
    records [NOTHING], which is also what a new instance holds; the exit
    of such an instance raises [KeyError], changing nothing, when the
    key is not there (the body removed it again, or the instance was
    never entered), and removes the key when it is there, also when the
    instance was never entered. *)
Theorem PatchedItem_exit_with_nothing_to_restore {K : Type} `{Countable K}
    (ref : value) (key_repr : K -> value) (m body : gmap K value) (k : K) (v x : value) :
  m !! k = None ->
  body !! k = None ->
  item_enter ref key_repr (PatchedItem.init k v, m)
    = (Ok ref, (PatchedItem.init k v, <[k := v]> m))
  /\ item_exit ref key_repr (PatchedItem.init k v, body)
     = (Raise (mk_exn KeyError (key_repr k)), (PatchedItem.init k v, body))
  /\ item_exit ref key_repr (PatchedItem.init k v, <[k := x]> body)
     = (Ok tt, (PatchedItem.init k v, body)).
Proof.
  intros Hm Hb. rewrite PatchedItem_enter_run, !PatchedItem_exit_run, Hm; cbn.
  rewrite Hb, lookup_insert_eq, delete_insert_eq, delete_id by exact Hb.
  repeat split.
Qed.

Lemma PatchedItem_exit_with_nothing_to_restore_witness :
  item_exit VNone VStr (PatchedItem.init "LANG" (VStr "C"), example_dict)
  = (Raise (mk_exn KeyError (VStr "LANG")), (PatchedItem.init "LANG" (VStr "C"), example_dict)).
Proof.
  refine (proj1 (proj2 (PatchedItem_exit_with_nothing_to_restore (K := string)
                          VNone VStr example_dict example_dict "LANG" (VStr "C") VNone _ _)));
    reflexivity.
Defined.

(** X4. Two patches of the same key, entered one inside the other.
    Exited in the reverse order they put the mapping back as it was;
    exited in the order of entry they do not: the key ends up with the
    value the first patch had installed. *)
Theorem PatchedItem_nested {K : Type} `{Countable K}
    (ref : value) (key_repr : K -> value) (m : gmap K value) (k : K) (v1 v2 : value) :
  m !! k <> Some NOTHING ->
  v1 <> NOTHING ->
  exists a b m1 m2,
    item_enter ref key_repr (PatchedItem.init k v1, m) = (Ok ref, (a, m1))
    /\ item_enter ref key_repr (PatchedItem.init k v2, m1) = (Ok ref, (b, m2))
    /\ m2 !! k = Some v2
    /\ (exists m3, item_exit ref key_repr (b, m2) = (Ok tt, (b, m3))
                   /\ item_exit ref key_repr (a, m3) = (Ok tt, (a, m)))
    /\ (exists m3 m4, item_exit ref key_repr (a, m2) = (Ok tt, (a, m3))
                      /\ item_exit ref key_repr (b, m3) = (Ok tt, (b, m4))
                      /\ m4 !! k = Some v1).
Proof.
  intros Hlegit Hv1.
  exists (PatchedItem.mk k v1 (default NOTHING (m !! k))),
         (PatchedItem.mk k v2 v1), (<[k := v1]> m), (<[k := v2]> (<[k := v1]> m)).
  split; [apply PatchedItem_enter_run|]. split.
  { rewrite PatchedItem_enter_run. now rewrite lookup_insert_eq. }
  split; [apply lookup_insert_eq|]. split.
  - exists (<[k := v1]> m). rewrite !PatchedItem_exit_run; cbn.
    rewrite (is_NOTHING_false v1 Hv1), !insert_insert_eq. split; [reflexivity|].
    destruct (m !! k) as [x|] eqn:Hk; cbn.
    + rewrite is_NOTHING_false by congruence. now rewrite insert_id.
    + now rewrite lookup_insert_eq, delete_insert_eq, delete_id.
  - destruct (m !! k) as [x|] eqn:Hk.
    + exists (<[k := x]> (<[k := v2]> (<[k := v1]> m))),
             (<[k := v1]> (<[k := x]> (<[k := v2]> (<[k := v1]> m)))).
      rewrite !PatchedItem_exit_run; cbn.
      rewrite (is_NOTHING_false x), (is_NOTHING_false v1 Hv1) by congruence.
      split; [reflexivity|]. split; [reflexivity|]. apply lookup_insert_eq.
    + exists (delete k (<[k := v2]> (<[k := v1]> m))),
             (<[k := v1]> (delete k (<[k := v2]> (<[k := v1]> m)))).
      rewrite !PatchedItem_exit_run; cbn.
      rewrite lookup_insert_eq, (is_NOTHING_false v1 Hv1).
      split; [reflexivity|]. split; [reflexivity|]. apply lookup_insert_eq.
Qed.

Lemma PatchedItem_nested_witness :
  exists a b m1 m2 m3 : _,
    item_enter VNone VStr (PatchedItem.init "HOME" (VStr "/a"), example_dict) = (Ok VNone, (a, m1))
    /\ item_enter VNone VStr (PatchedItem.init "HOME" (VStr "/b"), m1) = (Ok VNone, (b, m2))
    /\ item_exit VNone VStr (b, m2) = (Ok tt, (b, m3))
    /\ item_exit VNone VStr (a, m3) = (Ok tt, (a, example_dict)).
Proof.
  destruct (PatchedItem_nested (K := string) VNone VStr example_dict "HOME"
              (VStr "/a") (VStr "/b"))
    as (a & b & m1 & m2 & Ha & Hb & _ & (m3 & Hb' & Ha') & _).
  - vm_compute. discriminate.
  - discriminate.
  - exists a, b, m1, m2, m3. repeat split; assumption.
Defined.

(** ** The temporary directory, entered and exited *)

(** X5. Entering a [TemporaryDirectory] creates a directory that did not
    exist and stores its path; while nothing lies below that path in the
    state entered from, exiting right after gives the instance and the
    file system back as they were. *)
Theorem tempdir_scope_round_trip (opts : mkdtemp_opts) (w w1 : OS) (d : string)
    (me1 : TemporaryDirectory.t) :
  tempdir_enter (TemporaryDirectory.init opts, w) = (Ok d, (me1, w1)) ->
  (forall p, p ∈ dirs w \/ is_Some (files w !! p) -> below d p = false) ->
  (d ∉ dirs w) /\ (d ∈ dirs w1)
  /\ TemporaryDirectory.temporary_directory me1 = Some d
  /\ exists w2,
       tempdir_exit (me1, w1) = (Ok tt, (TemporaryDirectory.init opts, w2))
       /\ dirs w2 = dirs w /\ files w2 = files w /\ environ w2 = environ w.
Proof.
  intros Henter Hclean.
  pose proof (tempdir_enter_ok _ _ _ _ _ Henter) as (Hstored & Hnew & Hin).
  split; [exact Hnew|]. split; [exact Hin|]. split; [exact Hstored|].
  unfold tempdir_enter, TemporaryDirectory.enter, bind, gets, puts, ret,
    zoom, mkdtemp, ContextManager.enter in Henter; cbn in Henter.
  destruct (mkdtemp_from opts (temp_names w) w) as [[p|e] w'] eqn:Hm; cbn in Henter;
    [|discriminate].
  injection Henter as <- <- <-.
  apply mkdtemp_from_ok in Hm as (_ & Hd & Hf & He & _).
  eexists. rewrite tempdir_exit_run; cbn.
  rewrite bool_decide_eq_true_2 by exact Hin. split; [reflexivity|]. cbn.
  split; [|split; [|exact He]].
  - rewrite Hd. apply set_eq. intros q.
    rewrite elem_of_filter, elem_of_difference, elem_of_union, elem_of_singleton.
    split.
    + intros (_ & [Hq | Hq] & Hne); [contradiction | exact Hq].
    + intros Hq. split; [apply Hclean; now left|].
      split; [now right | congruence].
  - rewrite Hf. apply map_filter_id. intros q f Hq. cbn. apply Hclean. right. eauto.
Qed.

Lemma tempdir_scope_round_trip_witness :
  let s1 := snd (tempdir_enter (TemporaryDirectory.init default_opts, example_os)) in
  exists w2,
    tempdir_exit (fst s1, snd s1) = (Ok tt, (TemporaryDirectory.init default_opts, w2))
    /\ dirs w2 = dirs example_os.
Proof.
  intros s1.
  destruct (tempdir_scope_round_trip default_opts example_os (snd s1) "/tmp/tmpa" (fst s1))
    as (_ & _ & _ & w2 & Hexit & Hdirs & _).
  - vm_compute; reflexivity.
  - intros p [Hp | [f Hf]].
    + cbn in Hp. apply elem_of_singleton in Hp as ->. reflexivity.
    + cbn in Hf. now rewrite lookup_empty in Hf.
  - exists w2. split; [exact Hexit | exact Hdirs].
Defined.

(** X6. When the stored directory has gone by the time of the exit (the
    body removed it), [__exit__] raises the [OSError] of
    [shutil.rmtree], and it does so before clearing the stored path: the
    instance and the file system are unchanged, so every further exit
    raises again. *)
Theorem tempdir_exit_of_removed_directory (me : TemporaryDirectory.t) (w : OS) (d : string) :
  TemporaryDirectory.temporary_directory me = Some d ->
  d ∉ dirs w ->
  tempdir_exit (me, w) = (Raise (os_error d), (me, w))
  /\ tempdir_exit (snd (tempdir_exit (me, w))) = (Raise (os_error d), (me, w)).
Proof.
  intros Hd Hgone.
  assert (Hrun : tempdir_exit (me, w) = (Raise (os_error d), (me, w))).
  { rewrite tempdir_exit_run, Hd. now rewrite bool_decide_eq_false_2. }
  split; [exact Hrun|]. rewrite Hrun. exact Hrun.
Qed.

Lemma tempdir_exit_of_removed_directory_witness :
  tempdir_exit (TemporaryDirectory.mk default_opts (Some "/tmp/tmpa"), example_os)
  = (Raise (os_error "/tmp/tmpa"),
     (TemporaryDirectory.mk default_opts (Some "/tmp/tmpa"), example_os)).
Proof.
  refine (proj1 (tempdir_exit_of_removed_directory
                   (TemporaryDirectory.mk default_opts (Some "/tmp/tmpa"))
                   example_os "/tmp/tmpa" _ _)).
  - reflexivity.
  - cbn. rewrite elem_of_singleton. discriminate.
Defined.

(** ** The search path scope as a whole *)

(** X7. Entering a [CustomSearchPath] changes no entry of [os.environ]
    but ['PATH'], and entering and then exiting leaves [os.environ]
    exactly as it was, whether ['PATH'] was set or not. *)
Theorem search_path_scope_round_trip (pathsep : ascii) (defpath : string)
    (isolated : bool) (w0 w1 : OS) (d : string) (me1 : CustomSearchPath.t) :
  (forall v, environ w0 !! "PATH" = Some v -> exists s, v = VStr s) ->
  csp_enter pathsep defpath cCustomSearchPath (csp_new defpath isolated w0, w0)
    = (Ok d, (me1, w1)) ->
  (forall k, k <> "PATH" -> environ w1 !! k = environ w0 !! k)
  /\ exists me2 w2,
       csp_exit cCustomSearchPath (me1, w1) = (Ok tt, (me2, w2))
       /\ environ w2 = environ w0.
Proof.
  intros Hstr Henter.
  apply csp_enter_ok in Henter as (d2 & cur & _ & Hme & Henv & Hd2 & _); [|now left].
  split.
  - intros k Hk. rewrite Henv. now apply lookup_insert_ne.
  - subst me1. eexists _, _. split.
    + apply csp_exit_run with (d := d2); [now left|reflexivity|exact Hd2|].
      cbn. destruct (environ w0 !! "PATH") as [v|] eqn:Hp; cbn.
      * left. exact (Hstr v eq_refl).
      * right. split; [reflexivity|]. rewrite Henv, lookup_insert_eq. eauto.
    + cbn. unfold restore_environ. rewrite Henv.
      destruct (environ w0 !! "PATH") as [v|] eqn:Hp; cbn.
      * destruct (Hstr v eq_refl) as [s ->]. cbn.
        now rewrite insert_insert_eq, insert_id.
      * now rewrite delete_insert_eq, delete_id.
Qed.

Lemma search_path_scope_round_trip_witness :
  exists s2,
    csp_exit cCustomSearchPath (fst example_scope, snd example_scope) = (Ok tt, s2)
    /\ environ (snd s2) = environ example_os.
Proof.
  destruct (search_path_scope_round_trip ":" "/bin" false example_os
              (snd example_scope) "/tmp/tmpa" (fst example_scope))
    as (_ & me2 & w2 & Hexit & Henv).
  - intros v Hv. vm_compute in Hv. injection Hv as <-. eauto.
  - vm_compute; reflexivity.
  - exists (me2, w2). split; [exact Hexit | exact Henv].
Defined.

(** X8. [__enter__] creates two directories.  The one it returns and
    puts on the search path is not the one the instance stores: the
    second call of [TemporaryDirectory.__enter__], made through
    [super()] by [PatchedItem.__enter__], replaces the stored path.  The
    exit removes the stored directory only; unless it lies below that
    one, the directory that was returned is still there after the
    exit. *)
Theorem search_path_scope_keeps_its_directory (pathsep : ascii) (defpath : string)
    (isolated : bool) (w0 w1 : OS) (d d2 : string) (me1 : CustomSearchPath.t) :
  (forall v, environ w0 !! "PATH" = Some v -> exists s, v = VStr s) ->
  csp_enter pathsep defpath cCustomSearchPath (csp_new defpath isolated w0, w0)
    = (Ok d, (me1, w1)) ->
  TemporaryDirectory.temporary_directory (CustomSearchPath.tempdir me1) = Some d2 ->
  below d2 d = false ->
  d <> d2
  /\ (d ∉ dirs w0) /\ (d2 ∉ dirs w0)
  /\ (d ∈ dirs w1) /\ (d2 ∈ dirs w1)
  /\ exists me2 w2,
       csp_exit cCustomSearchPath (me1, w1) = (Ok tt, (me2, w2))
       /\ (d ∈ dirs w2) /\ (d2 ∉ dirs w2).
Proof.
  intros Hstr Henter Hstored Hbelow.
  pose proof Henter as Hinv.
  apply csp_enter_inv in Hinv as (wa & d2' & wb & cur & Ha & Hb & _ & Hme & Hw);
    [|now left].
  cbn in Hme. subst me1. cbn in Hstored. injection Hstored as ->.
  apply mkdtemp_from_ok in Ha as (Hnew & Hda & _ & Hea & _).
  apply mkdtemp_from_ok in Hb as (Hnew2 & Hdb & _ & Heb & _).
  assert (Hd1 : dirs w1 = {[d2]} ∪ ({[d]} ∪ dirs w0)) by (subst w1; cbn; now rewrite Hdb, Hda).
  assert (Hne : d <> d2).
  { intros ->. apply Hnew2. rewrite Hda. apply elem_of_union_l, elem_of_singleton.
    reflexivity. }
  assert (Hin2 : d2 ∈ dirs w1)
    by (rewrite Hd1; apply elem_of_union_l, elem_of_singleton; reflexivity).
  split; [exact Hne|]. split; [exact Hnew|]. split.
  { intros Hin. apply Hnew2. rewrite Hda. now apply elem_of_union_r. }
  split.
  { rewrite Hd1. apply elem_of_union_r, elem_of_union_l, elem_of_singleton. reflexivity. }
  split; [exact Hin2|].
  eexists _, _. split; [|split].
  - apply csp_exit_run with (d := d2); [now left|reflexivity|exact Hin2|].
    cbn. destruct (environ w0 !! "PATH") as [v|] eqn:Hp; cbn.
    + left. exact (Hstr v eq_refl).
    + right. split; [reflexivity|]. subst w1; cbn. rewrite lookup_insert_eq. eauto.
  - cbn. rewrite elem_of_filter, elem_of_difference, elem_of_singleton, Hd1.
    split; [exact Hbelow|]. split; [|exact Hne].
    apply elem_of_union_r, elem_of_union_l, elem_of_singleton. reflexivity.
  - cbn. rewrite elem_of_filter, elem_of_difference, elem_of_singleton.
    intros (_ & _ & Habs). now apply Habs.
Qed.

Lemma search_path_scope_keeps_its_directory_witness :
  exists s2,
    csp_exit cCustomSearchPath (fst example_scope, snd example_scope) = (Ok tt, s2)
    /\ ("/tmp/tmpa" ∈ dirs (snd s2)) /\ ("/tmp/tmpb" ∉ dirs (snd s2)).
Proof.
  destruct (search_path_scope_keeps_its_directory ":" "/bin" false example_os
              (snd example_scope) "/tmp/tmpa" "/tmp/tmpb" (fst example_scope))
    as (_ & _ & _ & _ & _ & me2 & w2 & Hexit & Hkept & Hgone).
  - intros v Hv. vm_compute in Hv. injection Hv as <-. eauto.
  - vm_compute; reflexivity.
  - reflexivity.
  - reflexivity.
  - exists (me2, w2). split; [exact Hexit|]. split; [exact Hkept | exact Hgone].
Defined.

(** X9. When the stored directory has gone by the time of the exit,
    [__exit__] raises the [OSError] of [shutil.rmtree] from inside
    [TemporaryDirectory.__exit__], before [PatchedItem.__exit__] gets to
    its restoration: ['PATH'] is not put back, nothing is changed. *)
Theorem search_path_not_restored_when_cleanup_fails (T : class)
    (me : CustomSearchPath.t) (w : OS) (d : string) :
  is_csp T ->
  TemporaryDirectory.temporary_directory (CustomSearchPath.tempdir me) = Some d ->
  d ∉ dirs w ->
  csp_exit T (me, w) = (Raise (os_error d), (me, w)).
Proof.
  intros HT Hd Hgone.
  assert (Hmro : after cCustomSearchPath (mro T)
                 = [cPatchedItem; cTemporaryDirectory; cContextManager])
    by (destruct HT as [-> | ->]; reflexivity).
  unfold csp_exit, CustomSearchPath.exit, CustomSearchPath.super_exit.
  rewrite Hmro. destruct me as [iso [k pv orig] [opts td]]; cbn in *. subst td.
  csp_unfold. unfold rmtree. rewrite (bool_decide_eq_false_2 _ Hgone). reflexivity.
Qed.

Lemma search_path_not_restored_when_cleanup_fails_witness :
  csp_exit cCustomSearchPath
    (fst example_scope, set_fs {["/tmp"]} ∅ (snd example_scope))
  = (Raise (os_error "/tmp/tmpb"),
     (fst example_scope, set_fs {["/tmp"]} ∅ (snd example_scope)))
  /\ environ (set_fs {["/tmp"]} ∅ (snd example_scope)) !! "PATH"
     = Some (VStr "/tmp/tmpa:/bin:/usr/bin").
Proof.
  split; [|reflexivity].
  apply (search_path_not_restored_when_cleanup_fails cCustomSearchPath
           (fst example_scope) (set_fs {["/tmp"]} ∅ (snd example_scope)) "/tmp/tmpb").
  - now left.
  - reflexivity.
  - cbn. rewrite elem_of_singleton. discriminate.
Defined.

Lemma mkdtemp_first (o : mkdtemp_opts) (w : OS) (a : string) (rest : list string) :
  temp_names w = a :: rest ->
  exists_path (temp_path o a) w = false ->
  mkdtemp o w
  = (Ok (temp_path o a),
     log_event (EvMkdtemp (temp_path o a))
       (set_temp_names rest (set_fs ({[temp_path o a]} ∪ dirs w) (files w) w))).
Proof. intros Hn Hfree. unfold mkdtemp. rewrite Hn. cbn. now rewrite Hfree. Qed.

(** X10. [__enter__] succeeds whenever [tempfile] can create two
    directories in a row, ['PATH'] being a string or absent: it returns
    the first of the two, and the instance stores the second. *)
Theorem search_path_enter_succeeds (pathsep : ascii) (defpath : string)
    (isolated : bool) (w0 : OS) (a b : string) (rest : list string) :
  (forall v, environ w0 !! "PATH" = Some v -> exists s, v = VStr s) ->
  temp_names w0 = a :: b :: rest ->
  exists_path (temp_path default_opts a) w0 = false ->
  exists_path (temp_path default_opts b) w0 = false ->
  temp_path default_opts a <> temp_path default_opts b ->
  exists me1 w1,
    csp_enter pathsep defpath cCustomSearchPath (csp_new defpath isolated w0, w0)
      = (Ok (temp_path default_opts a), (me1, w1))
    /\ TemporaryDirectory.temporary_directory (CustomSearchPath.tempdir me1)
       = Some (temp_path default_opts b)
    /\ temp_names w1 = rest.
Proof.
  intros Hstr Hnames Ha Hb Hne.
  pose proof (mkdtemp_first default_opts w0 a (b :: rest) Hnames Ha) as H1.
  set (wa := log_event (EvMkdtemp (temp_path default_opts a))
               (set_temp_names (b :: rest)
                  (set_fs ({[temp_path default_opts a]} ∪ dirs w0) (files w0) w0))) in *.
  assert (Hb' : exists_path (temp_path default_opts b) wa = false).
  { unfold exists_path in *. cbn. apply orb_false_iff in Hb as [Hb1 Hb2].
    rewrite Hb2, orb_false_r. apply bool_decide_eq_false_2.
    apply bool_decide_eq_false_1 in Hb1.
    rewrite elem_of_union, elem_of_singleton. intros [Heq | Hin]; [congruence|contradiction]. }
  pose proof (mkdtemp_first default_opts wa b rest eq_refl Hb') as H2.
  unfold csp_enter, CustomSearchPath.enter, CustomSearchPath.super_enter, csp_new,
    search_path.
  change (after cTemporaryDirectory (mro cCustomSearchPath)) with [cContextManager].
  change (after cPatchedItem (mro cCustomSearchPath))
    with [cTemporaryDirectory; cContextManager].
  csp_unfold. rewrite H1. csp_unfold.
  destruct isolated; csp_unfold.
  - rewrite H2. csp_unfold.
    destruct (environ w0 !! "PATH") as [v|]; csp_unfold; eexists _, _; repeat split.
  - destruct (environ w0 !! "PATH") as [v|] eqn:Hp; csp_unfold.
    + destruct (Hstr v eq_refl) as [s ->]. csp_unfold. rewrite H2. csp_unfold.
      rewrite Hp. csp_unfold. eexists _, _; repeat split.
    + rewrite H2. csp_unfold. rewrite Hp. csp_unfold. eexists _, _; repeat split.
Qed.

Lemma search_path_enter_succeeds_witness :
  exists me1 w1,
    csp_enter ":" "/bin" cCustomSearchPath (csp_new "/bin" true example_os, example_os)
      = (Ok "/tmp/tmpa", (me1, w1))
    /\ temp_names w1 = ["c"].
Proof.
  destruct (search_path_enter_succeeds ":" "/bin" true example_os "a" "b" ["c"])
    as (me1 & w1 & Henter & _ & Hnames).
  - intros v Hv. vm_compute in Hv. injection Hv as <-. eauto.
  - reflexivity.
  - vm_compute; reflexivity.
  - vm_compute; reflexivity.
  - discriminate.
  - exists me1, w1. split; [exact Henter | exact Hnames].
Defined.

(** ** The mocked program, entered, run and exited *)

(** X11. In every state, whether the program was run or not,
    [MockedProgram.__exit__] has the outcome and the effects of the
    inherited [__exit__] on the inherited fields, and nothing else: what
    the assertion finds plays no part in what the caller gets. *)
Theorem mocked_exit_is_the_inherited_exit (me : MockedProgram.t) (w : OS) :
  mocked_exit (me, w)
  = (fst (csp_exit cMockedProgram (MockedProgram.base me, w)),
     (update MockedProgram.base_lens
        (fst (snd (csp_exit cMockedProgram (MockedProgram.base me, w)))) me,
      snd (snd (csp_exit cMockedProgram (MockedProgram.base me, w)))))
  /\ forall msg, fst (mocked_exit (me, w)) <> Raise (mk_exn AssertionError msg).
Proof.
  unfold mocked_exit, MockedProgram.exit, MockedProgram.assert_program_was_run,
    csp_exit, CustomSearchPath.exit, CustomSearchPath.super_exit.
  change (after cCustomSearchPath (mro cMockedProgram))
    with [cPatchedItem; cTemporaryDirectory; cContextManager].
  destruct me as [name rc sf [iso [k pv orig] [opts td]]].
  csp_unfold.
  destruct sf as [f|]; csp_unfold; [destruct (bool_decide (f = "")); csp_unfold|].
  all: try (unfold isfile; destruct (bool_decide (is_Some (files w !! f))); csp_unfold).
  all: destruct td as [d|]; csp_unfold;
    [unfold rmtree; destruct (bool_decide (d ∈ dirs w)); csp_unfold|].
  all: try (split; [reflexivity | intros msg; discriminate]).
  all: destruct orig; csp_unfold; try (split; [reflexivity | intros msg; discriminate]).
  all: destruct (environ w !! k); split; try reflexivity; intros msg; discriminate.
Qed.

(** What a successful [MockedProgram.__enter__] has done. *)
Lemma parent_exists_dirs (p : string) (w w' : OS) :
  dirs w = dirs w' -> parent_exists p w = parent_exists p w'.
Proof. unfold parent_exists. now intros ->. Qed.

Lemma mocked_enter_inv (pathsep : ascii) (defpath : string)
    (random_string : nat -> string) (quote : string -> string)
    (name : string) (rc : Z) (w0 w1 : OS) (d orig : string) (me1 : MockedProgram.t) :
  environ w0 !! "PATH" = Some (VStr orig) ->
  mocked_enter pathsep defpath random_string quote (mocked_new defpath name rc w0, w0)
    = (Ok d, (me1, w1)) ->
  let signal := path_join d ("program-was-run-" ++ random_string 10%nat) in
  let pathname := path_join d name in
  let pv := VStr (d ++ String pathsep orig) in
  exists wa d2 wb,
    mkdtemp default_opts w0 = (Ok d, wa)
    /\ mkdtemp default_opts wa = (Ok d2, wb)
    /\ (pathname ∉ dirs wb)
    /\ me1 = MockedProgram.mk name rc (Some signal)
               (CustomSearchPath.mk false (PatchedItem.mk "PATH" pv (VStr orig))
                  (TemporaryDirectory.mk default_opts (Some d2)))
    /\ environ w1 = <["PATH" := pv]> (environ w0)
    /\ dirs w1 = dirs wb
    /\ files w1
       = <[pathname := mk_file (MockedProgram.script quote signal rc) 493]> (files wb).
Proof.
  intros Hpath. unfold mocked_enter, MockedProgram.enter, mocked_new, csp_new, search_path,
    CustomSearchPath.enter, CustomSearchPath.super_enter.
  change (after cTemporaryDirectory (mro cMockedProgram)) with [cContextManager].
  change (after cPatchedItem (mro cMockedProgram))
    with [cTemporaryDirectory; cContextManager].
  rewrite Hpath. csp_unfold.
  destruct (mkdtemp default_opts w0) as [[d1|e] wa] eqn:Ha; csp_unfold; [|discriminate].
  pose proof (mkdtemp_from_ok _ _ _ _ _ Ha) as (_ & _ & _ & Hea & _).
  rewrite Hea, Hpath. csp_unfold.
  destruct (mkdtemp default_opts wa) as [[d2|e] wb] eqn:Hb; csp_unfold; [|discriminate].
  pose proof (mkdtemp_from_ok _ _ _ _ _ Hb) as (_ & _ & _ & Heb & _).
  rewrite Heb, Hea, Hpath. csp_unfold.
  unfold write_file, chmod. csp_unfold.
  destruct (bool_decide (path_join d1 name ∈ dirs wb)) eqn:Hdir; csp_unfold; [discriminate|].
  rewrite (parent_exists_dirs _ _ wb) by reflexivity.
  destruct (parent_exists (path_join d1 name) wb) eqn:Hparent; csp_unfold; [|discriminate].
  rewrite lookup_insert_eq. csp_unfold.
  intros [= <- <- <-]. exists wa, d2, wb.
  destruct (str_split_cons pathsep orig) as (p & ps & Hs).
  rewrite Hs, <- Hs, str_join_split. rewrite insert_insert_eq.
  apply bool_decide_eq_false_1 in Hdir.
  repeat split; try reflexivity; try assumption.
  cbn. now rewrite Heb, Hea.
Qed.

Lemma path_join_signal_nonempty (d r : string) :
  path_join d ("program-was-run-" ++ r) <> "".
Proof.
  unfold path_join. cbn [String.prefix append].
  destruct (bool_decide (d = "")); [discriminate|].
  destruct (get _ d) as [c|]; [|destruct d; discriminate].
  destruct (Ascii.eqb_spec c "/"%char) as [->|Hc].
  - destruct d; discriminate.
  - destruct c as [[] [] [] [] [] [] [] []]; destruct d; discriminate.
Qed.

(** X12. A successful [MockedProgram.__enter__] has put the temporary
    directory it returns in front of the search path, and has written
    there, under the name of the program and with mode [0o755], the
    script that creates the signal file and exits with the return code;
    the path of the signal file is stored in the instance. *)
Theorem mocked_enter_installs_the_program (pathsep : ascii) (defpath : string)
    (random_string : nat -> string) (quote : string -> string)
    (name : string) (rc : Z) (w0 w1 : OS) (d orig : string) (me1 : MockedProgram.t) :
  environ w0 !! "PATH" = Some (VStr orig) ->
  mocked_enter pathsep defpath random_string quote (mocked_new defpath name rc w0, w0)
    = (Ok d, (me1, w1)) ->
  let signal := path_join d ("program-was-run-" ++ random_string 10%nat) in
  MockedProgram.program_signal_file me1 = Some signal
  /\ MockedProgram.program_name me1 = name
  /\ MockedProgram.program_returncode me1 = rc
  /\ files w1 !! path_join d name
     = Some (mk_file (MockedProgram.script quote signal rc) 493)
  /\ environ w1 !! "PATH" = Some (VStr (d ++ String pathsep orig))
  /\ (d ∈ dirs w1).
Proof.
  intros Hpath Henter signal.
  apply (mocked_enter_inv _ _ _ _ _ _ _ _ _ _ _ Hpath) in Henter
    as (wa & d2 & wb & Ha & Hb & _ & -> & Henv & Hdirs & Hfiles).
  split; [reflexivity|]. split; [reflexivity|]. split; [reflexivity|].
  split; [rewrite Hfiles; apply lookup_insert_eq|].
  split; [rewrite Henv; apply lookup_insert_eq|].
  rewrite Hdirs. apply mkdtemp_from_ok in Ha as (_ & Hda & _).
  apply mkdtemp_from_ok in Hb as (_ & Hdb & _).
  rewrite Hdb, Hda. apply elem_of_union_r, elem_of_union_l, elem_of_singleton. reflexivity.
Qed.

Lemma mocked_enter_installs_the_program_witness :
  files (snd example_mocked_scope) !! "/tmp/tmpa/git"
  = Some (mk_file (MockedProgram.script (fun s => s)
                     "/tmp/tmpa/program-was-run-k3J9x0QzPA" 0) 493)
  /\ environ (snd example_mocked_scope) !! "PATH" = Some (VStr "/tmp/tmpa:/bin:/usr/bin").
Proof.
  destruct (mocked_enter_installs_the_program ":" "/bin" (fun _ => "k3J9x0QzPA")
              (fun s => s) "git" 0 example_os (snd example_mocked_scope) "/tmp/tmpa"
              "/bin:/usr/bin" (fst example_mocked_scope))
    as (_ & _ & _ & Hfile & Henv & _).
  - reflexivity.
  - vm_compute; reflexivity.
  - split; [exact Hfile | exact Henv].
Defined.

(** X13. Once the script has been run in the scope, the assertion of
    [__exit__] holds, and [__exit__] returns normally with ['PATH'] put
    back to its original value. *)
Theorem mocked_program_run_then_exit (pathsep : ascii) (defpath : string)
    (random_string : nat -> string) (quote : string -> string)
    (name : string) (rc : Z) (w0 w1 w2 : OS) (d orig : string)
    (me1 : MockedProgram.t) :
  environ w0 !! "PATH" = Some (VStr orig) ->
  mocked_enter pathsep defpath random_string quote (mocked_new defpath name rc w0, w0)
    = (Ok d, (me1, w1)) ->
  run_mocked_program me1 w1 = (Ok tt, w2) ->
  MockedProgram.assert_program_was_run snd_lens fst_lens (me1, w2) = (Ok tt, (me1, w2))
  /\ exists me3 w3,
       mocked_exit (me1, w2) = (Ok tt, (me3, w3))
       /\ environ w3 !! "PATH" = Some (VStr orig).
Proof.
  intros Hpath Henter Hrun.
  apply (mocked_enter_inv _ _ _ _ _ _ _ _ _ _ _ Hpath) in Henter
    as (wa & d2 & wb & Ha & Hb & _ & -> & Henv & Hdirs & Hfiles).
  unfold run_mocked_program, write_file in Hrun. cbn in Hrun.
  destruct (bool_decide (_ ∈ dirs w1)) eqn:Hdir; [discriminate|].
  destruct (parent_exists _ w1) eqn:Hparent; [|discriminate].
  injection Hrun as <-.
  split.
  - unfold MockedProgram.assert_program_was_run. csp_unfold.
    rewrite bool_decide_eq_false_2 by apply path_join_signal_nonempty.
    csp_unfold. unfold isfile. cbn. rewrite lookup_insert_eq.
    rewrite bool_decide_eq_true_2 by eauto. reflexivity.
  - eexists _, _. split.
    + apply mocked_exit_run with (d := d2); [reflexivity| |left; now exists orig].
      cbn. rewrite Hdirs. apply mkdtemp_from_ok in Hb as (_ & Hdb & _).
      rewrite Hdb. apply elem_of_union_l, elem_of_singleton. reflexivity.
    + cbn. apply lookup_insert_eq.
Qed.

Lemma mocked_program_run_then_exit_witness :
  exists w2 s3,
    run_mocked_program (fst example_mocked_scope) (snd example_mocked_scope) = (Ok tt, w2)
    /\ mocked_exit (fst example_mocked_scope, w2) = (Ok tt, s3)
    /\ environ (snd s3) !! "PATH" = Some (VStr "/bin:/usr/bin").
Proof.
  destruct (mocked_program_run_then_exit ":" "/bin" (fun _ => "k3J9x0QzPA")
              (fun s => s) "git" 0 example_os (snd example_mocked_scope)
              (snd (run_mocked_program (fst example_mocked_scope) (snd example_mocked_scope)))
              "/tmp/tmpa" "/bin:/usr/bin" (fst example_mocked_scope))
    as (_ & me3 & w3 & Hexit & Henv).
  - reflexivity.
  - vm_compute; reflexivity.
  - vm_compute; reflexivity.
  - eexists _, (me3, w3). split; [vm_compute; reflexivity|].
    split; [exact Hexit | exact Henv].
Defined.

Ltac capture_unfold_in H :=
  repeat (progress
    (cbn -[fresh] in H;
     unfold StringIO, bind, ret in H)).
Ltac heap_lookup :=
  repeat (progress
    (cbn;
     repeat (first [ rewrite lookup_insert_eq
                   | rewrite lookup_insert_ne by (discriminate || congruence) ]))).

(** ** Capturing, writing and reading back *)

(** X14. Entering a [CaptureOutput] makes [sys.stdin], [sys.stdout] and
    [sys.stderr] the three streams of the instance; exiting right after
    puts the original streams back, and module [sys] is exactly as it
    was. *)
Theorem capture_scope_round_trip (merged : bool) (input : string)
    (p0 p1 : Process) (me0 : CaptureOutput.t) (vin vout verr : value) :
  inst_attrs (sys p0) !! "stdin" = Some vin -> vin <> NOTHING ->
  inst_attrs (sys p0) !! "stdout" = Some vout -> vout <> NOTHING ->
  inst_attrs (sys p0) !! "stderr" = Some verr -> verr <> NOTHING ->
  CaptureOutput.init merged input p0 = (Ok me0, p1) ->
  exists me1 p2 p3,
    capture_enter (me0, p1) = (Ok tt, (me1, p2))
    /\ lookup_attr (sys p2) "stdin" = Some (CaptureOutput.stdin me0)
    /\ lookup_attr (sys p2) "stdout" = Some (CaptureOutput.stdout me0)
    /\ lookup_attr (sys p2) "stderr" = Some (CaptureOutput.stderr me0)
    /\ capture_exit (me1, p2) = (Ok tt, (me1, p3))
    /\ sys p3 = sys p0.
Proof.
  intros Hin Hin' Hout Hout' Herr Herr' Hinit.
  apply capture_init_run in Hinit as (i & o & e & -> & Hsys & _).
  destruct p1 as [[inst ty] hp tr]. cbn in Hsys. rewrite <- Hsys in *. cbn in *.
  eexists _, _, _. split; [|split; [|split; [|split; [|split]]]].
  - capture_unfold. unfold lookup_attr, pyobj_setattr; capture_unfold.
    repeat (sys_lookup; rewrite ?Hin, ?Hout, ?Herr; capture_unfold). reflexivity.
  - unfold lookup_attr; cbn. now sys_lookup.
  - unfold lookup_attr; cbn. now sys_lookup.
  - unfold lookup_attr; cbn. now sys_lookup.
  - capture_unfold. rewrite !is_NOTHING_false by assumption. capture_unfold. reflexivity.
  - unfold pyobj_setattr; cbn. f_equal. apply map_eq. intros n.
    destruct (decide (n = "stderr")) as [->|?]; [now sys_lookup|].
    destruct (decide (n = "stdout")) as [->|?]; [now sys_lookup|].
    destruct (decide (n = "stdin")) as [->|?]; [now sys_lookup|].
    now rewrite !lookup_insert_ne by congruence.
Qed.

Lemma capture_scope_round_trip_witness :
  let s1 := CaptureOutput.init false "" example_process in
  let me0 := match fst s1 with
             | Ok me => me
             | Raise _ => CaptureOutput.mk VNone VNone VNone []
             end in
  exists me1 p2 p3,
    capture_enter (me0, snd s1) = (Ok tt, (me1, p2))
    /\ capture_exit (me1, p2) = (Ok tt, (me1, p3))
    /\ sys p3 = sys example_process.
Proof.
  intros s1 me0.
  destruct (capture_scope_round_trip false "" example_process (snd s1) me0
              (VRef 100) (VRef 101) (VRef 102))
    as (me1 & p2 & p3 & Henter & _ & _ & _ & Hexit & Hsys).
  - reflexivity.
  - discriminate.
  - reflexivity.
  - discriminate.
  - reflexivity.
  - discriminate.
  - vm_compute; reflexivity.
  - exists me1, p2, p3. split; [exact Henter|]. split; [exact Hexit | exact Hsys].
Defined.

Lemma fresh_after_insert (h : gmap N string) (o : N) (text : string) :
  fresh (dom (<[o := text]> h)) <> o.
Proof.
  intros Heq. apply (is_fresh (dom (<[o := text]> h))). rewrite Heq.
  rewrite dom_insert_L. apply elem_of_union_l, elem_of_singleton. reflexivity.
Qed.

(** X15. Inside a [CaptureOutput] scope, what is written to [sys.stdout]
    is what [getvalue] returns; what is written to [sys.stderr] is part
    of it, in the order of the writes, when the streams are merged, and
    is no part of it when they are not. *)
Theorem capture_merged_or_separate (merged : bool) (input a b : string)
    (p0 p1 : Process) (me0 : CaptureOutput.t) :
  CaptureOutput.init merged input p0 = (Ok me0, p1) ->
  exists me1 p2 p3 p4,
    capture_enter (me0, p1) = (Ok tt, (me1, p2))
    /\ sys_write "stdout" a p2 = (Ok tt, p3)
    /\ sys_write "stderr" b p3 = (Ok tt, p4)
    /\ CaptureOutput.getvalue snd_lens fst_lens (me1, p4)
       = (Ok (VStr (if merged then a ++ b else a)), (me1, p4)).
Proof.
  intros Hinit. unfold CaptureOutput.init in Hinit. destruct p0 as [[inst ty] hp tr].
  destruct merged; capture_unfold_in Hinit;
    rewrite ?stream_stdin, ?stream_stdout, ?stream_stderr in Hinit;
    injection Hinit as <- <-.
  - eexists _, _, _, _. split; [capture_unfold; reflexivity|].
    unfold sys_write, lookup_attr, pyobj_setattr; cbn -[fresh]. sys_lookup.
    cbn -[fresh]. sys_lookup. split; [reflexivity|]. sys_lookup. cbn -[fresh].
    sys_lookup. split; [reflexivity|].
    capture_unfold. sys_lookup. reflexivity.
  - pose proof (fresh_after_insert (<[fresh (dom hp) := input]> hp)
                  (fresh (dom (<[fresh (dom hp) := input]> hp))) "") as He.
    set (e := fresh (dom (<[fresh (dom (<[fresh (dom hp) := input]> hp)) := ""]>
                            (<[fresh (dom hp) := input]> hp)))) in *.
    clearbody e.
    set (o := fresh (dom (<[fresh (dom hp) := input]> hp))) in *. clearbody o.
    eexists _, _, _, _. split; [capture_unfold; reflexivity|].
    unfold sys_write, lookup_attr, pyobj_setattr.
    split; [heap_lookup; reflexivity|]. split; [heap_lookup; reflexivity|].
    capture_unfold. heap_lookup. reflexivity.
Qed.

Lemma capture_merged_or_separate_witness :
  exists me0 p1 me1 p2 p3 p4,
    CaptureOutput.init true "" example_process = (Ok me0, p1)
    /\ capture_enter (me0, p1) = (Ok tt, (me1, p2))
    /\ sys_write "stdout" "out;" p2 = (Ok tt, p3)
    /\ sys_write "stderr" "err;" p3 = (Ok tt, p4)
    /\ CaptureOutput.getvalue snd_lens fst_lens (me1, p4)
       = (Ok (VStr "out;err;"), (me1, p4)).
Proof.
  destruct (capture_merged_or_separate true "" "out;" "err;" example_process
              (snd (CaptureOutput.init true "" example_process))
              (match fst (CaptureOutput.init true "" example_process) with
               | Ok me0 => me0
               | Raise _ => CaptureOutput.mk VNone VNone VNone [] end))
    as (me1 & p2 & p3 & p4 & Henter & Hout & Herr & Hget).
  - vm_compute; reflexivity.
  - eexists _, _, me1, p2, p3, p4.
    split; [vm_compute; reflexivity|].
    split; [exact Henter|]. split; [exact Hout|]. split; [exact Herr|exact Hget].
Defined.

(** ** run_cli from the caller's side *)

Lemma run_cli_run_state (entry_point : M Process unit) (arguments : list value)
    (options : run_cli_options) (p : Process) (exe vin vout verr vargv : value)
    (r6 : result unit) (p6 : Process) :
  lookup_attr (sys p) "executable" = Some exe ->
  lookup_attr (sys p) "stdin" = Some vin -> vin <> NOTHING ->
  lookup_attr (sys p) "stdout" = Some vout -> vout <> NOTHING ->
  lookup_attr (sys p) "stderr" = Some verr -> verr <> NOTHING ->
  lookup_attr (sys p) "argv" = Some vargv -> vargv <> NOTHING ->
  entry_point (entry_state arguments options exe p) = (r6, p6) ->
  exists p7,
    run_cli entry_point arguments options p
    = (run_cli_result r6 (heap p6 !! capture_buffer options p), p7)
    /\ lookup_attr (sys p7) "argv" = Some vargv
    /\ lookup_attr (sys p7) "stdin" = Some vin
    /\ lookup_attr (sys p7) "stdout" = Some vout
    /\ lookup_attr (sys p7) "stderr" = Some verr
    /\ heap p7 = heap p6
    /\ forall n, n <> "argv" -> n <> "stdin" -> n <> "stdout" -> n <> "stderr" ->
         lookup_attr (sys p7) n = lookup_attr (sys p6) n.
Proof.
  intros Hexe Hin Hin' Hout Hout' Herr Herr' Hargv Hargv' Hrun.
  destruct options as [input merged name]. destruct p as [[inst ty] hp tr].
  unfold run_cli_result, entry_state, capture_buffer, lookup_attr in *. cbn in *.
  unfold run_cli. capture_unfold. unfold lookup_attr. cbn. rewrite Hexe.
  destruct (default false merged); unfold pyobj_setattr in *; cbn in *;
    capture_unfold; rewrite ?stream_stdin, ?stream_stdout, ?stream_stderr;
    unfold lookup_attr, pyobj_setattr; cbn;
    repeat (progress (sys_lookup; rewrite ?Hin, ?Hout, ?Herr, ?Hargv; capture_unfold;
                      rewrite ?is_NOTHING_false by assumption; capture_unfold));
    unfold log_attr; cbn -[fresh]; rewrite <- ?app_assoc; cbn [app];
    rewrite Hrun; capture_unfold;
    (destruct r6 as [[]|e]; capture_unfold;
     [|destruct (caught_by SystemExit e); capture_unfold]);
    try (destruct (heap p6 !! _); capture_unfold);
    restore_all; eexists; (split; [reflexivity|]);
    cbn; sys_lookup; repeat split;
    intros n H1 H2 H3 H4; now rewrite !lookup_insert_ne by congruence.
Qed.

(** X16. With [sys.executable] there and the three streams and
    [sys.argv] set: an entry point that returns gives the return code
    [0]; one that raises [SystemExit] with a code gives that code; any
    exception that is no [SystemExit] comes out of [run_cli] as it is.
    The second component is what the entry point left in the StringIO
    that stood for [sys.stdout]. *)
Theorem run_cli_return_code (entry_point : M Process unit) (arguments : list value)
    (options : run_cli_options) (p : Process) (exe vin vout verr vargv : value) :
  lookup_attr (sys p) "executable" = Some exe ->
  lookup_attr (sys p) "stdin" = Some vin -> vin <> NOTHING ->
  lookup_attr (sys p) "stdout" = Some vout -> vout <> NOTHING ->
  lookup_attr (sys p) "stderr" = Some verr -> verr <> NOTHING ->
  lookup_attr (sys p) "argv" = Some vargv -> vargv <> NOTHING ->
  let p5 := entry_state arguments options exe p in
  let out := capture_buffer options p in
  (forall p6 text,
     entry_point p5 = (Ok tt, p6) -> heap p6 !! out = Some text ->
     fst (run_cli entry_point arguments options p) = Ok (VInt 0, VStr text))
  /\ (forall c p6 text,
       entry_point p5 = (Raise (mk_exn SystemExit c), p6) -> heap p6 !! out = Some text ->
       fst (run_cli entry_point arguments options p) = Ok (c, VStr text))
  /\ (forall e p6,
       entry_point p5 = (Raise e, p6) -> exn_class e <> SystemExit ->
       fst (run_cli entry_point arguments options p) = Raise e).
Proof.
  intros Hexe Hin Hin' Hout Hout' Herr Herr' Hargv Hargv' p5 out.
  pose proof (fun r6 p6 =>
    run_cli_run_state entry_point arguments options p exe vin vout verr vargv r6 p6
      Hexe Hin Hin' Hout Hout' Herr Herr' Hargv Hargv') as Hstart.
  split; [|split].
  - intros p6 text Hrun Hbuf. destruct (Hstart _ _ Hrun) as (p7 & H7 & _).
    fold out in H7. now rewrite H7, Hbuf.
  - intros c p6 text Hrun Hbuf. destruct (Hstart _ _ Hrun) as (p7 & H7 & _).
    fold out in H7. now rewrite H7, Hbuf.
  - intros e p6 Hrun He. destruct (Hstart _ _ Hrun) as (p7 & H7 & _).
    rewrite H7. unfold run_cli_result.
    replace (caught_by SystemExit e) with false; [reflexivity|].
    symmetry. destruct e as [[] arg]; cbn in *; try reflexivity. congruence.
Qed.

Lemma run_cli_return_code_witness :
  fst (run_cli says_hello_and_exits_3 [] (mk_run_cli_options None None None)
         example_process)
  = Ok (VInt 3, VStr "hello").
Proof.
  refine (proj1 (proj2 (run_cli_return_code says_hello_and_exits_3 []
                          (mk_run_cli_options None None None) example_process
                          (VStr "/usr/bin/python") (VRef 100) (VRef 101) (VRef 102)
                          (VList [VStr "prog"]) _ _ _ _ _ _ _ _ _))
            (VInt 3)
            (snd (says_hello_and_exits_3
                    (entry_state [] (mk_run_cli_options None None None)
                       (VStr "/usr/bin/python") example_process)))
            "hello" _ _);
    first [ discriminate | vm_compute; reflexivity ].
Defined.

(** X17. Whatever the entry point does, to module [sys] as well, and
    however it ends, [run_cli] comes back with [sys.argv], [sys.stdin],
    [sys.stdout] and [sys.stderr] holding their original values; it
    does not touch what else the entry point left in [sys], nor the
    contents of the streams. *)
Theorem run_cli_restores_sys (entry_point : M Process unit) (arguments : list value)
    (options : run_cli_options) (p : Process) (exe vin vout verr vargv : value) :
  lookup_attr (sys p) "executable" = Some exe ->
  lookup_attr (sys p) "stdin" = Some vin -> vin <> NOTHING ->
  lookup_attr (sys p) "stdout" = Some vout -> vout <> NOTHING ->
  lookup_attr (sys p) "stderr" = Some verr -> verr <> NOTHING ->
  lookup_attr (sys p) "argv" = Some vargv -> vargv <> NOTHING ->
  let p6 := snd (entry_point (entry_state arguments options exe p)) in
  let p7 := snd (run_cli entry_point arguments options p) in
  lookup_attr (sys p7) "argv" = Some vargv
  /\ lookup_attr (sys p7) "stdin" = Some vin
  /\ lookup_attr (sys p7) "stdout" = Some vout
  /\ lookup_attr (sys p7) "stderr" = Some verr
  /\ heap p7 = heap p6
  /\ forall n, n <> "argv" -> n <> "stdin" -> n <> "stdout" -> n <> "stderr" ->
       lookup_attr (sys p7) n = lookup_attr (sys p6) n.
Proof.
  intros Hexe Hin Hin' Hout Hout' Herr Herr' Hargv Hargv' p6 p7. subst p6 p7.
  destruct (entry_point (entry_state arguments options exe p)) as [r6 p6] eqn:Hrun.
  destruct (run_cli_run_state entry_point arguments options p exe vin vout verr vargv
              r6 p6 Hexe Hin Hin' Hout Hout' Herr Herr' Hargv Hargv' Hrun)
    as (p7 & H7 & Hrest).
  rewrite H7. exact Hrest.
Qed.

Lemma run_cli_restores_sys_witness :
  lookup_attr (sys (snd (run_cli exits_without_code [VStr "--help"]
                           (mk_run_cli_options None None None) example_process))) "argv"
  = Some (VList [VStr "prog"]).
Proof.
  refine (proj1 (run_cli_restores_sys exits_without_code [VStr "--help"]
                   (mk_run_cli_options None None None) example_process
                   (VStr "/usr/bin/python") (VRef 100) (VRef 101) (VRef 102)
                   (VList [VStr "prog"]) _ _ _ _ _ _ _ _ _));
    try reflexivity; discriminate.
Defined.

(** X18. What the entry point finds.  [run_cli] calls it in a state in
    which [sys.argv] is the program name, [sys.executable] unless one
    was given, followed by the arguments; [sys.stdin] is a new stream
    holding the input; [sys.stdout] is a new empty stream, the one
    [run_cli] reads the captured text from; and [sys.stderr] is that
    same stream when the streams are merged, another new empty stream
    otherwise. *)
Theorem run_cli_entry_environment (entry_point : M Process unit) (arguments : list value)
    (options : run_cli_options) (p : Process) (exe vin vout verr vargv : value) :
  lookup_attr (sys p) "executable" = Some exe ->
  lookup_attr (sys p) "stdin" = Some vin -> vin <> NOTHING ->
  lookup_attr (sys p) "stdout" = Some vout -> vout <> NOTHING ->
  lookup_attr (sys p) "stderr" = Some verr -> verr <> NOTHING ->
  lookup_attr (sys p) "argv" = Some vargv -> vargv <> NOTHING ->
  exists p5 i o e,
    (forall r6 p6, entry_point p5 = (r6, p6) ->
       fst (run_cli entry_point arguments options p) = run_cli_result r6 (heap p6 !! o))
    /\ lookup_attr (sys p5) "argv"
       = Some (VList (default exe (opt_program_name options) :: arguments))
    /\ lookup_attr (sys p5) "stdin" = Some (VRef i)
    /\ heap p5 !! i = Some (default "" (opt_input options))
    /\ lookup_attr (sys p5) "stdout" = Some (VRef o)
    /\ heap p5 !! o = Some ""
    /\ lookup_attr (sys p5) "stderr" = Some (VRef e)
    /\ heap p5 !! e = Some ""
    /\ i <> o
    /\ (e = o <-> default false (opt_merged options) = true).
Proof.
  intros Hexe Hin Hin' Hout Hout' Herr Herr' Hargv Hargv'.
  exists (entry_state arguments options exe p), (fresh (dom (heap p))),
         (capture_buffer options p),
         (if default false (opt_merged options) then capture_buffer options p
          else fresh (dom (<[capture_buffer options p := ""]>
                             (<[fresh (dom (heap p)) := default "" (opt_input options)]>
                                (heap p))))).
  split.
  { intros r6 p6 Hrun.
    destruct (run_cli_run_state entry_point arguments options p exe vin vout verr vargv
                r6 p6 Hexe Hin Hin' Hout Hout' Herr Herr' Hargv Hargv' Hrun)
      as (p7 & H7 & _).
    now rewrite H7. }
  pose proof (fresh_after_insert (heap p) (fresh (dom (heap p)))
                (default "" (opt_input options))) as Hio.
  pose proof (fresh_after_insert
                (<[fresh (dom (heap p)) := default "" (opt_input options)]> (heap p))
                (capture_buffer options p) "") as Heo.
  pose proof (is_fresh (dom (<[capture_buffer options p := ""]>
                             (<[fresh (dom (heap p)) := default "" (opt_input options)]>
                                (heap p))))) as Hei.
  unfold entry_state, capture_buffer in *.
  set (i := fresh (dom (heap p))) in *. clearbody i.
  set (o := fresh (dom (<[i := default "" (opt_input options)]> (heap p)))) in *.
  clearbody o.
  set (e := fresh (dom (<[o := ""]> (<[i := default "" (opt_input options)]> (heap p)))))
    in *.
  clearbody e.
  assert (Hie : e <> i).
  { intros ->. apply Hei. rewrite !dom_insert_L.
    apply elem_of_union_r, elem_of_union_l, elem_of_singleton. reflexivity. }
  unfold lookup_attr, pyobj_setattr.
  destruct (default false (opt_merged options)); cbn;
    repeat (first [ rewrite lookup_insert_eq
                  | rewrite lookup_insert_ne by (discriminate || congruence) ]);
    repeat split; try congruence; try discriminate.
Qed.

Lemma run_cli_entry_environment_witness :
  exists p5 i o e,
    lookup_attr (sys p5) "argv" = Some (VList [VStr "frob"; VStr "--help"])
    /\ lookup_attr (sys p5) "stdin" = Some (VRef i)
    /\ heap p5 !! i = Some "yes"
    /\ lookup_attr (sys p5) "stdout" = Some (VRef o)
    /\ lookup_attr (sys p5) "stderr" = Some (VRef e)
    /\ e = o.
Proof.
  destruct (run_cli_entry_environment exits_without_code [VStr "--help"]
              (mk_run_cli_options (Some "yes") (Some true) (Some (VStr "frob")))
              example_process
              (VStr "/usr/bin/python") (VRef 100) (VRef 101) (VRef 102)
              (VList [VStr "prog"]))
    as (p5 & i & o & e & _ & Hargv & Hin & Hi & Hout & _ & Herr & _ & _ & Hmerged);
    try reflexivity; try discriminate.
  exists p5, i, o, e. repeat split; try assumption. now apply Hmerged.
Defined.

(** ** retry, attempt after attempt *)

Lemma pause_at_bounds (n : nat) : (1 # 10 <= pause_at n)%Q /\ (pause_at n <= 16 # 10)%Q.
Proof.
  destruct (le_lt_dec 4 n) as [Hn|Hn].
  - rewrite (pause_at_stays n Hn). split; [discriminate | apply Qle_refl].
  - do 4 (destruct n as [|n]; [split; discriminate|]). lia.
Qed.

Lemma retry_loop_last_call {W : Type} (clock : Lens W Clock) (func : M W value)
    (exc_type : exc_class) (fuel : nat) :
  forall deadline pause s,
    let run := retry_loop clock func exc_type fuel deadline pause s in
    match fst run with
    | Ok (Some v) => v <> VBool false /\ exists s0, func s0 = (Ok v, snd run)
    | Ok None => True
    | Raise e =>
        exists s0,
          (func s0 = (Raise e, snd run)
           /\ (caught_by exc_type e = true ->
               (deadline < float (now (view clock (snd run))))%Q))
          \/ (e = timed_out /\ func s0 = (Ok (VBool false), snd run)
              /\ (deadline < float (now (view clock (snd run))))%Q)
    end.
Proof.
  induction fuel as [|n IH]; intros deadline pause s; [exact I|].
  cbv zeta. rewrite retry_loop_step, attempt_run.
  destruct (func s) as [[v|e] s1] eqn:Hf.
  - destruct (is_not_False v) eqn:Hv.
    + cbn. split; [|now exists s]. intros ->. discriminate.
    + apply is_not_False_false in Hv as ->.
      destruct (Qgt_bool _ _) eqn:Hlate.
      * cbn. exists s. right. apply Qgt_bool_true in Hlate. now repeat split.
      * apply IH.
  - destruct (caught_by exc_type e) eqn:He.
    + destruct (Qgt_bool _ _) eqn:Hlate.
      * cbn. exists s. left. apply Qgt_bool_true in Hlate. now split.
      * apply IH.
    + cbn. exists s. left. split; [exact Hf|]. congruence.
Qed.

(** X19. What [retry] gives back is what the operation did in its last
    call, and nothing happens after that call.  A value it returns is a
    value the operation returned, and it is never [False].  An exception
    it raises is the one the operation raised, or it is
    [CallableTimedOut] after the operation returned [False].  And [retry]
    does not give up early: when it raises an exception of the retried
    kind, or [CallableTimedOut] of its own, the clock is read as later
    than the deadline, the float sum of the timeout and the time at
    which [retry] was called. *)
Theorem retry_outcome_is_the_last_call {W : Type} (clock : Lens W Clock)
    (func : M W value) (exc_type : exc_class) (fuel : nat) (timeout : Q) (s : W) :
  let deadline := float (float timeout + float (now (view clock s))) in
  let run := retry clock func exc_type fuel timeout s in
  match fst run with
  | Ok (Some v) => v <> VBool false /\ exists s0, func s0 = (Ok v, snd run)
  | Ok None => True
  | Raise e =>
      exists s0,
        (func s0 = (Raise e, snd run)
         /\ (caught_by exc_type e = true ->
             (deadline < float (now (view clock (snd run))))%Q))
        \/ (e = timed_out /\ func s0 = (Ok (VBool false), snd run)
            /\ (deadline < float (now (view clock (snd run))))%Q)
  end.
Proof. cbv zeta. rewrite retry_run. apply retry_loop_last_call. Qed.

(** The counted loop runs as the plain one, and sleeps once after each
    call but the one that ends it. *)
Lemma retry_loop_counting {W : Type} (clock : Lens W Clock) (func : M W value)
    (exc_type : exc_class) :
  (forall c s0, view clock (update clock c s0) = c) ->
  (forall s0, sleeps (view clock (snd (func s0))) = sleeps (view clock s0)) ->
  forall fuel deadline k s c0,
    let run := retry_loop (compose_lens fst_lens clock) (counting func) exc_type
                 fuel deadline (pause_at k) (s, c0) in
    let plain := retry_loop clock func exc_type fuel deadline (pause_at k) s in
    fst run = fst plain
    /\ fst (snd run) = snd plain
    /\ exists n,
         snd (snd run) = (c0 + n)%nat
         /\ (n <= fuel)%nat
         /\ (fst run = Ok None -> n = fuel)
         /\ (fst run <> Ok None -> (1 <= n)%nat)
         /\ sleeps (view clock (snd plain))
            = sleeps (view clock s)
              ++ List.map pause_at
                   (seq k (match fst run with Ok None => n | _ => Nat.pred n end)).
Proof.
  intros Hlens Hquiet. induction fuel as [|m IH]; intros deadline k s c0; cbv zeta.
  - cbn. repeat split. exists 0%nat. cbn. rewrite Nat.add_0_r, app_nil_r.
    repeat split; try reflexivity. intros Hne. now contradiction Hne.
  - rewrite !retry_loop_step, !attempt_run.
    unfold counting. cbn [fst snd].
    pose proof (Hquiet s) as Hq.
    destruct (func s) as [r s1] eqn:Hf. cbn [snd] in Hq.
    change (view (compose_lens fst_lens clock) (s1, S c0)) with (view clock s1).
    assert (Hend : forall (x : result (option value)), x <> Ok None ->
              (x, (s1, S c0)).1 = (x, s1).1
              /\ (x, (s1, S c0)).2.1 = (x, s1).2
              /\ exists n, (x, (s1, S c0)).2.2 = (c0 + n)%nat /\ (n <= S m)%nat
                   /\ ((x, (s1, S c0)).1 = Ok None -> n = S m)
                   /\ ((x, (s1, S c0)).1 <> Ok None -> (1 <= n)%nat)
                   /\ sleeps (view clock (x, s1).2)
                      = sleeps (view clock s)
                        ++ List.map pause_at
                             (seq k (match (x, (s1, S c0)).1 with
                                     | Ok None => n | _ => Nat.pred n end))).
    { intros x Hx. cbn. repeat split. exists 1%nat.
      split; [lia|]. split; [lia|]. split; [intros; congruence|]. split; [lia|].
      destruct x as [[v|]|e]; try congruence; cbn; now rewrite app_nil_r, Hq. }
    assert (Hgo :
      let run := retry_loop (compose_lens fst_lens clock) (counting func) exc_type m
                   deadline (next_pause (pause_at k))
                   (snd (time_sleep (compose_lens fst_lens clock) (pause_at k)
                           (s1, S c0))) in
      let plain := retry_loop clock func exc_type m deadline (next_pause (pause_at k))
                     (snd (time_sleep clock (pause_at k) s1)) in
      run.1 = plain.1 /\ run.2.1 = plain.2
      /\ exists n, run.2.2 = (c0 + n)%nat /\ (n <= S m)%nat
           /\ (run.1 = Ok None -> n = S m)
           /\ (run.1 <> Ok None -> (1 <= n)%nat)
           /\ sleeps (view clock plain.2)
              = sleeps (view clock s)
                ++ List.map pause_at
                     (seq k (match run.1 with Ok None => n | _ => Nat.pred n end))).
    { cbv zeta. change (next_pause (pause_at k)) with (pause_at (S k)).
      change (snd (time_sleep (compose_lens fst_lens clock) (pause_at k) (s1, S c0)))
        with (snd (time_sleep clock (pause_at k) s1), S c0).
      destruct (IH deadline (S k) (snd (time_sleep clock (pause_at k) s1)) (S c0))
        as (H1 & H2 & n & Hn & Hle & Hout & Hin & Hs).
      split; [exact H1|]. split; [exact H2|].
      exists (S n). split; [rewrite Hn; lia|]. split; [lia|].
      split; [intros Hr; now rewrite (Hout Hr)|]. split; [lia|].
      rewrite Hs. unfold time_sleep at 1; cbn [snd]. rewrite Hlens; cbn [sleeps].
      rewrite Hq, <- app_assoc. f_equal.
      destruct (retry_loop _ _ _ _ _ _ _).1 as [[v|]|e] eqn:Hr.
      - specialize (Hin ltac:(congruence)). destruct n; [lia|]. reflexivity.
      - reflexivity.
      - specialize (Hin ltac:(congruence)). destruct n; [lia|]. reflexivity. }
    destruct r as [v|e].
    + destruct (is_not_False v); [apply Hend; congruence|].
      destruct (Qgt_bool _ _); [apply Hend; congruence|exact Hgo].
    + destruct (caught_by exc_type e); [|apply Hend; congruence].
      destruct (Qgt_bool _ _); [apply Hend; congruence|exact Hgo].
Qed.

(** X20. [retry] sleeps once after every call of the operation but the
    one that ends the loop, and as long as the operation does not sleep
    itself these pauses are [0.1], [0.2], [0.4], [0.8], [1.6], [1.6],
    ... in this order: with the calls counted, a run that made [calls]
    calls has slept [calls - 1] times, for [pause_at 0] to
    [pause_at (calls - 2)].  None of the pauses is shorter than a tenth
    of a second or longer than 1.6 seconds. *)
Theorem retry_sleeps_follow_the_schedule {W : Type} (clock : Lens W Clock)
    (func : M W value) (exc_type : exc_class) (fuel : nat) (timeout : Q) (s : W) :
  (forall c s0, view clock (update clock c s0) = c) ->
  (forall s0, sleeps (view clock (snd (func s0))) = sleeps (view clock s0)) ->
  let counted := retry (compose_lens fst_lens clock) (counting func) exc_type
                   fuel timeout (s, 0%nat) in
  let run := retry clock func exc_type fuel timeout s in
  let calls := snd (snd counted) in
  let slept := match fst run with Ok None => calls | _ => Nat.pred calls end in
  fst counted = fst run
  /\ fst (snd counted) = snd run
  /\ (calls <= fuel)%nat
  /\ (fst run = Ok None -> calls = fuel)
  /\ (fst run <> Ok None -> (1 <= calls)%nat)
  /\ sleeps (view clock (snd run))
     = sleeps (view clock s) ++ List.map pause_at (seq 0 slept)
  /\ Forall (fun q => (1 # 10 <= q)%Q /\ (q <= 16 # 10)%Q)
       (List.map pause_at (seq 0 slept)).
Proof.
  intros Hlens Hquiet. cbv zeta. rewrite !retry_run.
  change (view (compose_lens fst_lens clock) (s, 0%nat)) with (view clock s).
  change (1 # 10)%Q with (pause_at 0).
  destruct (retry_loop_counting clock func exc_type Hlens Hquiet fuel
              (float (float timeout + float (now (view clock s)))) 0%nat s 0%nat)
    as (H1 & H2 & n & Hn & Hle & Hout & Hin & Hs).
  cbn [Nat.add] in Hn. rewrite Hn, <- H1.
  split; [reflexivity|]. split; [exact H2|]. split; [exact Hle|].
  split; [exact Hout|]. split; [exact Hin|]. split; [exact Hs|].
  apply List.Forall_map, List.Forall_forall. intros i _. apply pause_at_bounds.
Qed.

Lemma retry_sleeps_follow_the_schedule_witness :
  let counted := retry (compose_lens fst_lens id_lens) (counting always_False)
                   AssertionError 100 3 (mk_Clock 0 [], 0%nat) in
  snd (snd counted) = 6%nat
  /\ sleeps (snd (retry id_lens always_False AssertionError 100 3 (mk_Clock 0 [])))
     = [] ++ List.map pause_at (seq 0 5).
Proof.
  assert (Hcalls : snd (snd (retry (compose_lens fst_lens id_lens) (counting always_False)
                               AssertionError 100 3 (mk_Clock 0 [], 0%nat))) = 6%nat)
    by (vm_compute; reflexivity).
  assert (Hrun : fst (retry id_lens always_False AssertionError 100 3 (mk_Clock 0 []))
                 = Raise timed_out) by (vm_compute; reflexivity).
  destruct (retry_sleeps_follow_the_schedule id_lens always_False AssertionError 100 3
              (mk_Clock 0 [])) as (_ & _ & _ & _ & _ & Hs & _).
  - reflexivity.
  - reflexivity.
  - cbv zeta. split; [exact Hcalls|].
    etransitivity; [exact Hs|]. rewrite Hrun, Hcalls. reflexivity.
Defined.

(** After [N] failed attempts before the deadline, the loop stands
    where attempt [N + 1] starts. *)
Lemma retry_loop_after_failures {W : Type} (clock : Lens W Clock) (func : M W value)
    (exc_type : exc_class) (P : nat -> W -> Prop) (N : nat) (deadline : Q) :
  (forall i s0, (i < N)%nat -> P i s0 ->
     exists r s1, func s0 = (r, s1)
       /\ (r = Ok (VBool false) \/ exists e, r = Raise e /\ caught_by exc_type e = true)
       /\ (float (now (view clock s1)) <= deadline)%Q
       /\ P (S i) (snd (time_sleep clock (pause_at i) s1))) ->
  forall k i s, (i + k = N)%nat -> P i s ->
    exists s0, P N s0
      /\ forall fuel,
           retry_loop clock func exc_type (k + fuel) deadline (pause_at i) s
           = retry_loop clock func exc_type fuel deadline (pause_at N) s0.
Proof.
  intros Hagain. induction k as [|k IH]; intros i s Hi HP.
  - replace i with N in * by lia. exists s. split; [exact HP|reflexivity].
  - destruct (Hagain i s ltac:(lia) HP) as (r & s1 & Hf & Hr & Hearly & Hnext).
    destruct (IH (S i) _ ltac:(lia) Hnext) as (s0 & HPN & Hrun).
    exists s0. split; [exact HPN|]. intros fuel. cbn [Nat.add].
    rewrite (retry_loop_goes_on clock func exc_type _ deadline _ s s1 r Hf Hr Hearly).
    apply Hrun.
Qed.

(** X21. [retry] retries.  When the operation fails [N] times in a row,
    by returning [False] or by raising an exception of the retried kind,
    each time with the clock read as not later than the deadline, and
    then returns a value other than [False], [retry] returns that value.
    The states in which the operation is called are given by [P]:
    attempt [i + 1] starts where attempt [i] ended, [pause_at i] seconds
    later.  The deadline is the float sum of the timeout and the time at
    which [retry] was called. *)
Theorem retry_keeps_trying {W : Type} (clock : Lens W Clock) (func : M W value)
    (exc_type : exc_class) (P : nat -> W -> Prop) (N : nat) (timeout : Q) (s : W) :
  P 0%nat s ->
  (forall i s0, (i < N)%nat -> P i s0 ->
     exists r s1, func s0 = (r, s1)
       /\ (r = Ok (VBool false) \/ exists e, r = Raise e /\ caught_by exc_type e = true)
       /\ (float (now (view clock s1))
           <= float (float timeout + float (now (view clock s))))%Q
       /\ P (S i) (snd (time_sleep clock (pause_at i) s1))) ->
  (forall s0, P N s0 -> exists v s1, func s0 = (Ok v, s1) /\ v <> VBool false) ->
  exists v s0 s',
    P N s0 /\ func s0 = (Ok v, s') /\ v <> VBool false
    /\ retry clock func exc_type (S N) timeout s = (Ok (Some v), s').
Proof.
  intros Hstart Hagain Hdone. rewrite retry_run.
  destruct (retry_loop_after_failures clock func exc_type P N _ Hagain N 0%nat s
              ltac:(lia) Hstart) as (s0 & HPN & Hrun).
  destruct (Hdone s0 HPN) as (v & s' & Hf & Hv).
  exists v, s0, s'. repeat split; try assumption.
  replace (S N) with (N + 1)%nat by lia. change (1 # 10)%Q with (pause_at 0).
  rewrite Hrun. now apply retry_loop_returns.
Qed.

Lemma retry_keeps_trying_witness :
  exists s',
    retry fst_lens (fails_then 2 (Ok (VInt 42))) AssertionError 3 60 (mk_Clock 0 [], 0%nat)
    = (Ok (Some (VInt 42)), s').
Proof.
  destruct (retry_keeps_trying fst_lens (fails_then 2 (Ok (VInt 42))) AssertionError
              (fun i s0 =>
                 nth_error [(mk_Clock 0 [], 0%nat);
                            (mk_Clock (0 + (1 # 10)) [1 # 10], 1%nat);
                            (mk_Clock (0 + (1 # 10) + (2 # 10)) [1 # 10; 2 # 10], 2%nat)] i
                 = Some s0)
              2%nat 60 (mk_Clock 0 [], 0%nat))
    as (v & s0 & s' & HP & Hlast & _ & Hrun).
  - reflexivity.
  - intros i s0 Hi HP.
    destruct i as [|[|i]]; [| |lia]; injection HP as <-;
      eexists _, _; (split; [reflexivity|]);
      (split; [right; eexists; split; reflexivity|]);
      (split; [vm_compute; discriminate|reflexivity]).
  - intros s0 HP. injection HP as <-. eexists _, _. split; [reflexivity|discriminate].
  - injection HP as <-. injection Hlast as <- <-. eexists. exact Hrun.
Defined.

(** X22. An exception that is not of the retried kind is never retried:
    in whichever attempt the operation raises it, after any number of
    failed attempts, it comes out of [retry] from that attempt,
    whatever the timeout, and without a sleep after it. *)
Theorem retry_lets_other_exceptions_through {W : Type} (clock : Lens W Clock)
    (func : M W value) (exc_type : exc_class) (P : nat -> W -> Prop) (N fuel : nat)
    (timeout : Q) (s : W) :
  P 0%nat s ->
  (forall i s0, (i < N)%nat -> P i s0 ->
     exists r s1, func s0 = (r, s1)
       /\ (r = Ok (VBool false) \/ exists e, r = Raise e /\ caught_by exc_type e = true)
       /\ (float (now (view clock s1))
           <= float (float timeout + float (now (view clock s))))%Q
       /\ P (S i) (snd (time_sleep clock (pause_at i) s1))) ->
  (forall s0, P N s0 ->
     exists e s1, func s0 = (Raise e, s1) /\ caught_by exc_type e = false) ->
  exists e s0 s',
    P N s0 /\ func s0 = (Raise e, s') /\ caught_by exc_type e = false
    /\ retry clock func exc_type (N + S fuel) timeout s = (Raise e, s').
Proof.
  intros Hstart Hagain Hlast. rewrite retry_run.
  destruct (retry_loop_after_failures clock func exc_type P N _ Hagain N 0%nat s
              ltac:(lia) Hstart) as (s0 & HPN & Hrun).
  destruct (Hlast s0 HPN) as (e & s' & Hf & He).
  exists e, s0, s'. repeat split; try assumption.
  change (1 # 10)%Q with (pause_at 0).
  rewrite Hrun. now apply retry_loop_propagates.
Qed.

Lemma retry_lets_other_exceptions_through_witness :
  exists s',
    retry fst_lens (fails_then 2 (Raise (mk_exn KeyError (VStr "missing"))))
      AssertionError 10 60 (mk_Clock 0 [], 0%nat)
    = (Raise (mk_exn KeyError (VStr "missing")), s').
Proof.
  destruct (retry_lets_other_exceptions_through fst_lens
              (fails_then 2 (Raise (mk_exn KeyError (VStr "missing")))) AssertionError
              (fun i s0 =>
                 nth_error [(mk_Clock 0 [], 0%nat);
                            (mk_Clock (0 + (1 # 10)) [1 # 10], 1%nat);
                            (mk_Clock (0 + (1 # 10) + (2 # 10)) [1 # 10; 2 # 10], 2%nat)] i
                 = Some s0)
              2%nat 7%nat 60 (mk_Clock 0 [], 0%nat))
    as (e & s0 & s' & HP & Hlast & _ & Hrun).
  - reflexivity.
  - intros i s0 Hi HP.
    destruct i as [|[|i]]; [| |lia]; injection HP as <-;
      eexists _, _; (split; [reflexivity|]);
      (split; [right; eexists; split; reflexivity|]);
      (split; [vm_compute; discriminate|reflexivity]).
  - intros s0 HP. injection HP as <-. eexists _, _. split; reflexivity.
  - injection HP as <-. injection Hlast as <- <-. eexists. exact Hrun.
Defined.

(** ** TestCase.assertRaises *)

(** X23. [assertRaises] returns the exception object exactly when the
    callable raised it and it is of the expected kind; it raises in the
    two other cases: the callable's own exception when that is of
    another kind, and an [AssertionError] with the message
    [Expected an exception to be raised!] when the callable returned.
    What the callable did to the state stays. *)
Theorem assertRaises_outcome {S A : Type} (exception : exc_class) (callable : M S A)
    (s s' : S) (x : exn) :
  (TestCase.assertRaises exception callable s = (Ok x, s')
   <-> callable s = (Raise x, s') /\ caught_by exception x = true)
  /\ (TestCase.assertRaises exception callable s = (Raise x, s')
      <-> (callable s = (Raise x, s') /\ caught_by exception x = false)
          \/ (exists a, callable s = (Ok a, s'))
             /\ x = mk_exn AssertionError (VStr "Expected an exception to be raised!")).
Proof.
  unfold TestCase.assertRaises, try_except_else, ret, raise.
  destruct (callable s) as [[a|e] s1]; [|destruct (caught_by exception e) eqn:He].
  - split; split.
    + discriminate.
    + now intros [[=] _].
    + intros [= <- <-]. right. split; [now exists a|reflexivity].
    + intros [[[=] _] | [(a' & [= _ <-]) ->]]. reflexivity.
  - split; split.
    + intros [= <- <-]. now split.
    + now intros [[= <- <-] _].
    + discriminate.
    + intros [[[= <- <-] Hx] | [(a' & [=]) _]]. congruence.
  - split; split.
    + discriminate.
    + intros [[= <- <-] Hx]. congruence.
    + intros [= <- <-]. left. now split.
    + intros [[[= <- <-] _] | [(a' & [=]) _]]. reflexivity.
Qed.

(** X24. [assertRaises] and [retry] together, as a test of a timeout is
    written: with an operation that keeps returning [False] while time
    does not run backwards, [assertRaises(CallableTimedOut, retry, ...)]
    returns the [CallableTimedOut] object, and
    [assertRaises(AssertionError, retry, ...)] lets that exception
    through, since it is no [AssertionError]. *)
Theorem assertRaises_of_retry {W : Type} (clock : Lens W Clock) (func : M W value)
    (exc_type : exc_class) (timeout : Q) (s : W) :
  (forall c s0, view clock (update clock c s0) = c) ->
  (forall s0, exists s1, func s0 = (Ok (VBool false), s1)
                         /\ (now (view clock s0) <= now (view clock s1))%Q) ->
  exists fuel s',
    TestCase.assertRaises CallableTimedOut (retry clock func exc_type fuel timeout) s
    = (Ok timed_out, s')
    /\ TestCase.assertRaises AssertionError (retry clock func exc_type fuel timeout) s
       = (Raise timed_out, s').
Proof.
  intros Hlens Hfalse.
  destruct (retry_times_out clock func exc_type Hlens timeout s Hfalse)
    as (fuel & s' & Hrun).
  exists fuel, s'. unfold TestCase.assertRaises, try_except_else.
  rewrite Hrun. split; reflexivity.
Qed.

Lemma assertRaises_of_retry_witness :
  exists fuel s',
    TestCase.assertRaises CallableTimedOut
      (retry id_lens always_False AssertionError fuel 3) (mk_Clock 0 [])
    = (Ok timed_out, s')
    /\ TestCase.assertRaises AssertionError
         (retry id_lens always_False AssertionError fuel 3) (mk_Clock 0 [])
       = (Raise timed_out, s').
Proof.
  apply (assertRaises_of_retry id_lens always_False AssertionError 3 (mk_Clock 0 [])).
  - reflexivity.
  - intros s0. exists s0. split; [reflexivity | apply Qle_refl].
Defined.

(** ** The with statement *)

(** X25. [with PatchedItem(m, k, v): body], whatever the body does to
    the mapping and however it ends, as long as a key that was absent
    on entry is there at the end of the body: the outcome of the
    statement is the outcome of the body, an exception included, the
    key is back in its original state, and every other key is as the
    body left it. *)
Theorem with_PatchedItem {K : Type} `{Countable K} {A : Type}
    (ref : value) (key_repr : K -> value) (m : gmap K value) (k : K) (v : value)
    (body : M (gmap K value) A) :
  m !! k <> Some NOTHING ->
  (m !! k = None -> is_Some (snd (body (<[k := v]> m)) !! k)) ->
  exists me1 m',
    with_ (item_enter ref key_repr) (item_exit ref key_repr)
      (fun _ => zoom snd_lens body) (PatchedItem.init k v, m)
    = (fst (body (<[k := v]> m)), (me1, m'))
    /\ m' !! k = m !! k
    /\ forall k', k' <> k -> m' !! k' = snd (body (<[k := v]> m)) !! k'.
Proof.
  intros Hlegit Hthere.
  unfold with_, bind. rewrite PatchedItem_enter_run. unfold zoom; cbn.
  destruct (body (<[k := v]> m)) as [r mb]; cbn in *.
  destruct (m !! k) as [x|] eqn:Hk; cbn.
  - rewrite is_NOTHING_false by congruence. eexists _, _. split; [reflexivity|].
    split; [apply lookup_insert_eq|]. intros k' Hne. now apply lookup_insert_ne.
  - destruct (Hthere eq_refl) as [y Hy]. rewrite Hy. eexists _, _. split; [reflexivity|].
    split; [apply lookup_delete_eq|]. intros k' Hne. now apply lookup_delete_ne.
Qed.

Lemma with_PatchedItem_witness :
  exists me1 m',
    with_ (item_enter VNone VStr) (item_exit VNone VStr)
      (fun _ => zoom snd_lens (raise (A := unit) (mk_exn KeyError (VStr "oops"))))
      (PatchedItem.init "HOME" (VStr "/tmp"), example_dict)
    = (Raise (mk_exn KeyError (VStr "oops")), (me1, m'))
    /\ m' !! "HOME" = example_dict !! "HOME".
Proof.
  destruct (with_PatchedItem (K := string) (A := unit) VNone VStr example_dict "HOME"
              (VStr "/tmp") (raise (mk_exn KeyError (VStr "oops"))))
    as (me1 & m' & Hrun & Hk & _).
  - vm_compute. discriminate.
  - vm_compute. discriminate.
  - exists me1, m'. split; [exact Hrun | exact Hk].
Defined.
